(** * Lead synchronisation pipeline: WordPress -> MySQL -> Go High Level

    A shallow embedding of the synchronisation scripts
    ([sync_to_mysql.py], [unified_sync.py], [sync_to_ghl.py]) and of the
    CRM client ([api/ghl_client.py]), with the properties of the
    specification stated over it.

    Conventions of the embedding:
    - Python [str] is [string]; the case, whitespace and digit methods
      are the ASCII ones (code points above 127 are left alone), so the
      embedding is exact on ASCII text ([PyStr.is_ascii]).
    - A Python [dict] with string keys is a [gmap string value]; a value
      is one of the JSON-like shapes of [value].
    - A Python exception is the [Raise] branch of [result].
    - The clock, the HTTP peer and the third-party validators
      ([email_validator], [phonenumbers]) are parameters. *)

From Stdlib Require Import ZArith List Lia Bool String Ascii Sorted.
From stdpp Require Import gmap strings list.

Set Warnings "-register-all".

(** ** Python strings *)

Module PyStr.

Definition is_upper (c : ascii) : bool :=
  let n := nat_of_ascii c in (65 <=? n)%nat && (n <=? 90)%nat.

Definition lower_char (c : ascii) : ascii :=
  if is_upper c then ascii_of_nat (nat_of_ascii c + 32) else c.

(** [str.lower()] *)
Fixpoint lower (s : string) : string :=
  match s with
  | EmptyString => EmptyString
  | String c s' => String (lower_char c) (lower s')
  end.

(** [str.isspace()] on one character: TAB..CR, FS..US and the blank. *)
Definition is_space (c : ascii) : bool :=
  let n := nat_of_ascii c in
  ((9 <=? n)%nat && (n <=? 13)%nat) || ((28 <=? n)%nat && (n <=? 32)%nat).

Fixpoint lstrip (s : string) : string :=
  match s with
  | EmptyString => EmptyString
  | String c s' => if is_space c then lstrip s' else s
  end.

Fixpoint rstrip (s : string) : string :=
  match s with
  | EmptyString => EmptyString
  | String c s' =>
      match rstrip s' with
      | EmptyString => if is_space c then EmptyString else String c EmptyString
      | r => String c r
      end
  end.

(** [str.strip()] *)
Definition strip (s : string) : string := rstrip (lstrip s).

(** A string that does not start with white space. *)
Definition no_leading_space (s : string) : Prop :=
  match s with
  | EmptyString => True
  | String c _ => is_space c = false
  end.

(** [s.split(sep)] for a one-character separator: never empty. *)
Fixpoint split (sep : ascii) (s : string) : list string :=
  match s with
  | EmptyString => [EmptyString]
  | String c s' =>
      if Ascii.eqb c sep then EmptyString :: split sep s'
      else match split sep s' with
           | [] => [String c EmptyString]
           | h :: t => String c h :: t
           end
  end.

(** [s.split(sep, 1)]: the part before the first separator and, when
    there is one, the part after it. *)
Fixpoint split_once (sep : ascii) (s : string) : string * option string :=
  match s with
  | EmptyString => (EmptyString, None)
  | String c s' =>
      if Ascii.eqb c sep then (EmptyString, Some s')
      else let '(h, t) := split_once sep s' in (String c h, t)
  end.

(** [c in s] for a character. *)
Fixpoint mem_char (c : ascii) (s : string) : bool :=
  match s with
  | EmptyString => false
  | String d s' => Ascii.eqb c d || mem_char c s'
  end.

(** [sub in s] for a substring. *)
Definition contains (sub s : string) : bool :=
  match String.index 0 sub s with Some _ => true | None => false end.

(** [s in l] for a list of strings. *)
Definition in_list (s : string) (l : list string) : bool :=
  existsb (String.eqb s) l.

Definition is_digit (c : ascii) : bool :=
  let n := nat_of_ascii c in (48 <=? n)%nat && (n <=? 57)%nat.

(** [re.sub(r'[^\d]', '', s)] on ASCII text, where [\d] is [0-9]. *)
Fixpoint digits_only (s : string) : string :=
  match s with
  | EmptyString => EmptyString
  | String c s' => if is_digit c then String c (digits_only s') else digits_only s'
  end.

(** Text inside the ASCII range, on which [lower], [strip], [len] and
    [\d] are exactly the Python ones. *)
Definition is_ascii_char (c : ascii) : bool := (nat_of_ascii c <? 128)%nat.

Fixpoint is_ascii (s : string) : bool :=
  match s with
  | EmptyString => true
  | String c s' => is_ascii_char c && is_ascii s'
  end.

End PyStr.

(** ** Python values, dictionaries and exceptions *)

Inductive value : Type :=
  | VNone
  | VBool (b : bool)
  | VInt (n : Z)
  | VStr (s : string)
  | VDate (d : Z)
  | VDateTime (t : Z)
  | VList (l : list value)
  | VDict (d : gmap string value).

Inductive exc : Type :=
  | AttributeError
  | TypeError
  | JSONDecodeError
  | HTTPError (status : Z)
  | RequestException (msg : string)
  | IntegrityError (msg : string)
  | DatabaseError (msg : string).

(** [str(e)] *)
Definition exc_str (e : exc) : string :=
  match e with
  | AttributeError => "object has no such attribute"
  | TypeError => "object of this type is not supported"
  | JSONDecodeError => "Expecting value"
  | HTTPError _ => "HTTP error"
  | RequestException m | IntegrityError m | DatabaseError m => m
  end.

Inductive result (A : Type) : Type :=
  | Ok (a : A)
  | Raise (e : exc).
Arguments Ok {A} a.
Arguments Raise {A} e.

#[global] Instance result_ret : MRet result := fun A a => Ok a.

#[global] Instance result_bind : MBind result := fun A B f m =>
  match m with
  | Ok a => f a
  | Raise e => Raise e
  end.

Module Py.

(** Truth value of an object, as [if x:] and [not x] take it. *)
Definition truthy (v : value) : bool :=
  match v with
  | VNone => false
  | VBool b => b
  | VInt n => negb (n =? 0)%Z
  | VStr s => negb (String.eqb s "")
  | VDate _ | VDateTime _ => true
  | VList l => negb (Nat.eqb (List.length l) 0)
  | VDict d => negb (Nat.eqb (size d) 0)
  end.

(** [len(x)]: a [TypeError] on objects without a length. *)
Definition len (v : value) : result nat :=
  match v with
  | VStr s => Ok (String.length s)
  | VList l => Ok (List.length l)
  | VDict d => Ok (size d)
  | _ => Raise TypeError
  end.

(** Receiver of a [str] method: an [AttributeError] on anything else. *)
Definition str_self (v : value) : result string :=
  match v with
  | VStr s => Ok s
  | _ => Raise AttributeError
  end.

(** Receiver of [dict.get]: an [AttributeError] on anything else. *)
Definition dict_self (v : value) : result (gmap string value) :=
  match v with
  | VDict d => Ok d
  | _ => Raise AttributeError
  end.

(** [d.get(k)] and [d.get(k, dflt)] *)
Definition get (d : gmap string value) (k : string) : value :=
  default VNone (d !! k).

Definition get_or (d : gmap string value) (k : string) (dflt : value) : value :=
  default dflt (d !! k).

End Py.

(** ** [sync_to_mysql.LeadCleaner] *)

Module LeadCleaner.
Import PyStr Py.

Section Cleaner.

(** [email_validator.validate_email]: [Some n] is the normalised
    address of an accepted input, [None] is [EmailNotValidError]. *)
Variable validate_email : string -> option string.

(** [phonenumbers]: [None] is [NumberParseException]; an accepted parse
    carries the validity verdict, the E164 rendering and the region. *)
Variable phonenumbers_parse : string -> string -> option (bool * string * value).

Definition clean_email (email : value) : result (string * bool) :=
  if negb (truthy email) then Ok ("", false)
  else
    s ← str_self email;
    let email := lower (strip s) in
    match validate_email email with
    | Some normalised => Ok (normalised, true)
    | None => Ok (email, false)
    end.

Definition clean_phone (phone : value) (default_country : string)
  : result (string * value * bool) :=
  if negb (truthy phone) then Ok ("", VStr "", false)
  else
    s ← str_self phone;
    let phone := strip s in
    match phonenumbers_parse phone default_country with
    | Some (true, cleaned, country) => Ok (cleaned, country, true)
    | Some (false, _, _) => Ok (digits_only phone, VStr "", false)
    | None => Ok (digits_only phone, VStr "", false)
    end.

End Cleaner.

Definition free_providers : list string :=
  ["gmail.com"; "yahoo.com"; "hotmail.com"; "outlook.com"].

Definition poor_sources : list string := ["test"; "unknown"; ""].

Definition calculate_quality_score (lead : gmap string value) : result Z :=
  let score := 50%Z in
  let score := if truthy (get lead "email_valid") then (score + 20)%Z else score in
  has_phone ←
    (if truthy (get lead "phone_cleaned")
     then n ← len (get_or lead "phone_cleaned" (VStr "")); mret (10 <=? n)%nat
     else mret false);
  let score := if has_phone : bool then (score + 15)%Z else score in
  let score := if truthy (get lead "phone_valid") then (score + 10)%Z else score in
  e ← str_self (get_or lead "email" (VStr ""));
  let email_domain := lower (List.last (split "@" e) "") in
  let score := if negb (in_list email_domain free_providers) then (score + 10)%Z else score in
  src ← str_self (get_or lead "source" (VStr ""));
  let score := if in_list (lower src) poor_sources then (score - 5)%Z else score in
  mret (Z.min (Z.max score 0) 100).

End LeadCleaner.

(** ** The [leads] table *)

Module LeadRow.

(** One row of [leads] (see [setup_mysql_database.py]).  Columns filled
    from the processed dictionary keep the Python value that was bound
    to the statement; [quality_score] and the dates are numeric. *)
Record t : Type := mk {
  id : Z;
  email : string;
  phone : value;
  first_name : value;
  last_name : value;
  signup_date : Z;
  signup_datetime : Z;
  email_valid : value;
  email_domain : value;
  phone_valid : value;
  phone_country : value;
  phone_type : value;
  quality_score : Z;
  is_processed : bool;
  processed_at : option Z;
  ghl_synced : bool;
  ghl_synced_at : option Z;
  ghl_contact_id : option value;
  ghl_sync_attempts : Z;
  source : value;
  source_id : value;
  created_at : Z;
  updated_at : Z
}.

(** [SET updated_at = NOW()] *)
Definition set_updated_at (now : Z) (r : t) : t :=
  mk (id r) (email r) (phone r) (first_name r) (last_name r)
     (signup_date r) (signup_datetime r) (email_valid r) (email_domain r)
     (phone_valid r) (phone_country r) (phone_type r) (quality_score r)
     (is_processed r) (processed_at r) (ghl_synced r) (ghl_synced_at r)
     (ghl_contact_id r) (ghl_sync_attempts r) (source r) (source_id r)
     (created_at r) now.

(** Every column but [updated_at] agrees. *)
Definition same_but_updated_at (r r' : t) : Prop :=
  r' = set_updated_at (updated_at r') r.

End LeadRow.

(** The table with its [AUTO_INCREMENT] counter. *)
Record leads_table : Type := {
  rows : list LeadRow.t;
  next_id : Z
}.

(** [SELECT id FROM leads WHERE email = %s LIMIT 1] *)
Definition select_id_by_email (tbl : leads_table) (e : string) : option Z :=
  LeadRow.id <$> List.find (fun r => String.eqb (LeadRow.email r) e) (rows tbl).

(** [UPDATE leads SET updated_at = NOW() WHERE id = %s] *)
Definition touch_by_id (now : Z) (i : Z) (tbl : leads_table) : leads_table :=
  {| rows := List.map (fun r => if (LeadRow.id r =? i)%Z
                                then LeadRow.set_updated_at now r else r) (rows tbl);
     next_id := next_id tbl |}.

(** How many rows carry the identity [e]. *)
Definition count_email (e : string) (tbl : leads_table) : nat :=
  List.length (List.filter (fun r => String.eqb (LeadRow.email r) e) (rows tbl)).

(** ** [process_lead] and the upsert *)

Module Sync.
Import PyStr Py LeadCleaner.

Section Pipeline.

Variable validate_email : string -> option string.
Variable phonenumbers_parse : string -> string -> option (bool * string * value).
(** [datetime.strptime(s, '%Y-%m-%d %H:%M:%S')], [None] when it raises;
    a datetime is a number of seconds, a date a number of days. *)
Variable strptime : string -> option Z.
(** [str(x)] of the builtins. *)
Variable py_str : value -> string.

Definition date_of (t : Z) : Z := (t / 86400)%Z.

(** [MySQLSync.process_lead] and [UnifiedSyncService.process_lead]:
    the two bodies are the same text. *)
Definition process_lead (now : Z) (lead : gmap string value)
  : result (gmap string value) :=
  let processed : gmap string value := ∅ in
  raw_data ← dict_self (get_or lead "raw_data" (VDict lead));
  '(email, email_valid) ← clean_email validate_email (get_or raw_data "email" (VStr ""));
  let processed := <["email" := VStr email]> processed in
  let processed := <["email_valid" := VBool email_valid]> processed in
  let processed :=
    if negb (String.eqb email "") && mem_char "@" email
    then <["email_domain" := VStr (nth 1 (split "@" email) "")]> processed
    else <["email_domain" := VNone]> processed in
  '(phone_cleaned, phone_country, phone_valid) ←
    clean_phone phonenumbers_parse (get_or raw_data "phone" (VStr "")) "US";
  let processed := <["phone" := get_or raw_data "phone" (VStr "")]> processed in
  let processed := <["phone_country" := phone_country]> processed in
  let processed := <["phone_valid" := VBool phone_valid]> processed in
  let processed :=
    <["phone_type" := if phone_valid : bool then VStr "mobile" else VNone]> processed in
  let processed := <["first_name" := get_or raw_data "first_name" (VStr "")]> processed in
  let processed := <["last_name" := get_or raw_data "last_name" (VStr "")]> processed in
  let signup_date_str := get_or raw_data "signup_date" (VStr "") in
  let signup_dt :=
    if truthy signup_date_str
    then match signup_date_str with
         | VStr s => default now (strptime s)
         | _ => now
         end
    else now in
  let processed := <["signup_date" := VDate (date_of signup_dt)]> processed in
  let processed := <["signup_datetime" := VDateTime signup_dt]> processed in
  let processed := <["source" := VStr "wordpress"]> processed in
  let processed := <["source_id" := VStr (py_str (get_or raw_data "id" (VStr "")))]> processed in
  score ← calculate_quality_score processed;
  mret (<["quality_score" := VInt score]> processed).

(** Binding of a statement parameter to a numeric column. *)
Definition col_int (v : value) : result Z :=
  match v with
  | VInt n | VDate n | VDateTime n => Ok n
  | VBool b => Ok (if b then 1 else 0)%Z
  | _ => Raise (DatabaseError "Incorrect integer value")
  end.

(** The row that [INSERT INTO leads (...) VALUES (...)] adds: the
    fourteen bound columns, the rest at their declared defaults. *)
Definition insert_row (now : Z) (new_id : Z) (processed : gmap string value)
  : result LeadRow.t :=
  email ← str_self (get processed "email");
  signup_date ← col_int (get processed "signup_date");
  signup_datetime ← col_int (get processed "signup_datetime");
  quality_score ← col_int (get_or processed "quality_score" (VInt 0));
  mret (LeadRow.mk new_id email
          (get processed "phone") (get processed "first_name") (get processed "last_name")
          signup_date signup_datetime
          (get_or processed "email_valid" (VBool false))
          (get processed "email_domain")
          (get_or processed "phone_valid" (VBool false))
          (get processed "phone_country") (get processed "phone_type")
          quality_score
          false None false None None 0%Z
          (get_or processed "source" (VStr "wordpress"))
          (get processed "source_id")
          now now).

(** ['Duplicate entry' in str(e)] *)
Definition is_duplicate_entry (msg : string) : bool := contains "Duplicate entry" msg.

(** [UnifiedSyncService.save_lead_to_mysql].  [fault] is the exception,
    if any, that the storage layer raises inside the [try] block; the
    transaction is then not committed.  (A failure to connect, before
    the [try] block, is told apart in [Connection.save_lead_to_mysql].) *)
Definition save_lead_to_mysql (now : Z) (fault : option exc)
    (lead : gmap string value) (tbl : leads_table)
  : result ((bool * bool * option Z) * leads_table) :=
  processed ← process_lead now lead;
  if negb (truthy (get processed "email")) then Ok ((false, false, None), tbl)
  else
    let attempt : result ((bool * bool * option Z) * leads_table) :=
      match fault with
      | Some e => Raise e
      | None =>
          email ← str_self (get processed "email");
          match select_id_by_email tbl email with
          | Some existing => Ok ((true, false, Some existing), touch_by_id now existing tbl)
          | None =>
              row ← insert_row now (next_id tbl) processed;
              Ok ((true, true, Some (next_id tbl)),
                  {| rows := rows tbl ++ [row]; next_id := (next_id tbl + 1)%Z |})
          end
      end in
    match attempt with
    | Ok r => Ok r
    | Raise (IntegrityError msg) =>
        if is_duplicate_entry msg then Ok ((true, false, None), tbl)
        else Ok ((false, false, None), tbl)
    | Raise _ => Ok ((false, false, None), tbl)
    end.

(** [MySQLSync.save_lead]: the same steps, returning [(success, is_new)]. *)
Definition save_lead (now : Z) (fault : option exc)
    (lead : gmap string value) (tbl : leads_table)
  : result ((bool * bool) * leads_table) :=
  processed ← process_lead now lead;
  if negb (truthy (get processed "email")) then Ok ((false, false), tbl)
  else
    let attempt : result ((bool * bool) * leads_table) :=
      match fault with
      | Some e => Raise e
      | None =>
          email ← str_self (get processed "email");
          match select_id_by_email tbl email with
          | Some existing => Ok ((true, false), touch_by_id now existing tbl)
          | None =>
              row ← insert_row now (next_id tbl) processed;
              Ok ((true, true),
                  {| rows := rows tbl ++ [row]; next_id := (next_id tbl + 1)%Z |})
          end
      end in
    match attempt with
    | Ok r => Ok r
    | Raise (IntegrityError msg) =>
        if is_duplicate_entry msg then Ok ((true, false), tbl)
        else Ok ((false, false), tbl)
    | Raise _ => Ok ((false, false), tbl)
    end.

(** The identity under which a source record is stored: the cleaned
    email of the processed record. *)
Definition identity (now : Z) (lead : gmap string value) : option string :=
  match process_lead now lead with
  | Ok p =>
      match p !! "email" with
      | Some (VStr e) => Some e
      | _ => None
      end
  | Raise _ => None
  end.

(** A sequence of upserts, each with its clock and its storage fault:
    what every call returned ([None] when it raised) and the table
    after the last one. *)
Fixpoint upserts (calls : list (Z * option exc * gmap string value)) (tbl : leads_table)
  : list (option (bool * bool * option Z)) * leads_table :=
  match calls with
  | [] => ([], tbl)
  | (now, fault, lead) :: rest =>
      match save_lead_to_mysql now fault lead tbl with
      | Ok (r, tbl') =>
          let '(rs, tbl'') := upserts rest tbl' in (Some r :: rs, tbl'')
      | Raise _ =>
          let '(rs, tbl'') := upserts rest tbl in (None :: rs, tbl'')
      end
  end.

End Pipeline.

End Sync.

(** ** Logging and the HTTP peer *)

Inductive log_record : Type :=
  | LogInfo (msg : string)
  | LogWarning (msg : string)
  | LogError (msg : string) (cause : option exc).

(** What a call of [requests] ends in: an exception of the transport
    (connection refused, timeout, ...) or a response with its status
    code, its body parsed as JSON when it parses, and its raw text. *)
Inductive http_outcome : Type :=
  | Transport (msg : string)
  | Response (status : Z) (json : option value) (text : string).

Module Http.

Definition send (o : http_outcome) : result (Z * option value * string) :=
  match o with
  | Transport msg => Raise (RequestException msg)
  | Response status json text => Ok (status, json, text)
  end.

(** [response.raise_for_status()]: [HTTPError] on 4xx and 5xx. *)
Definition raise_for_status (status : Z) : result unit :=
  if ((400 <=? status) && (status <? 600))%Z then Raise (HTTPError status) else Ok tt.

(** [response.json()] *)
Definition json_of (json : option value) : result value :=
  match json with
  | Some v => Ok v
  | None => Raise JSONDecodeError
  end.

(** The classes below [requests.RequestException]. *)
Definition is_request_exception (e : exc) : bool :=
  match e with
  | RequestException _ | HTTPError _ | JSONDecodeError => true
  | _ => false
  end.

End Http.

(** ** Fetching from the source *)

Module WordPressSync.
Import Py Http.

Section Fetch.

(** The source endpoint, as a function of the query parameters. *)
Variable wp_leads_endpoint : gmap string value -> http_outcome.
Variable strftime : Z -> string.

(** [WordPressSync.fetch_leads] of [sync_to_mysql.py]: the failure is
    logged and raised again. *)
Definition fetch_params (since : option Z) (last_id : value) (limit : value)
  : gmap string value :=
  let params : gmap string value := <["limit" := limit]> ∅ in
  let params :=
    match since with
    | Some t => <["since" := VStr (strftime t)]> params
    | None => params
    end in
  if truthy last_id then <["last_id" := last_id]> params else params.

Definition fetch_leads (since : option Z) (last_id : value) (limit : value)
  : result value * list log_record :=
  let params := fetch_params since last_id limit in
  let attempt : result value :=
    '(status, json, _) ← send (wp_leads_endpoint params);
    _ ← raise_for_status status;
    data ← json_of json;
    d ← dict_self data;
    mret (get_or d "leads" (VList [])) in
  match attempt with
  | Ok leads => (Ok leads, [])
  | Raise e =>
      if is_request_exception e
      then (Raise e, [LogError "Failed to fetch leads from WordPress" (Some e)])
      else (Raise e, [])
  end.

End Fetch.

End WordPressSync.


(** ** [api/ghl_client.GHLClient] *)

Module GHLClient.
Import PyStr Py Http.

Section Client.

(** [str(x)] of the builtins on containers and numbers. *)
Variable py_str : value -> string.
Variable location_id : value.
(** [datetime.utcnow().isoformat()] *)
Variable utcnow_iso : string.
(** The three endpoints of the destination: [POST /contacts/] by
    payload, [GET /contacts/] by query parameters, [PUT /contacts/{id}]
    by contact id and payload. *)
Variable post_contacts : gmap string value -> http_outcome.
Variable get_contacts : gmap string value -> http_outcome.
Variable put_contact : value -> gmap string value -> http_outcome.

Definition str_of (v : value) : string :=
  match v with
  | VStr s => s
  | VNone => "None"
  | VBool true => "True"
  | VBool false => "False"
  | _ => py_str v
  end.

(** The dictionary both request methods return from their
    [except requests.exceptions.RequestException] clause. *)
Definition transport_failure (payload : gmap string value) (e : exc)
  : gmap string value :=
  <["error_message" := VStr (exc_str e)]>
  (<["success" := VBool false]>
  (<["response_timestamp" := VStr utcnow_iso]>
  (<["response_body" := VNone]>
  (<["response_status_code" := VNone]>
  (<["request_body" := VDict payload]>
  (<["request_timestamp" := VStr utcnow_iso]> ∅)))))).

Definition set_if (k : string) (v : value) (d : gmap string value) : gmap string value :=
  if truthy v then <[k := v]> d else d.

(** The request payload that [create_contact] builds. *)
Definition create_payload
    (email phone first_name last_name name tags custom_fields source : value)
  : result (gmap string value) :=
  let payload : gmap string value :=
    <["email" := email]> (<["locationId" := location_id]> ∅) in
  let payload := set_if "phone" phone payload in
  payload ←
    (if truthy first_name then Ok (<["firstName" := first_name]> payload)
     else if truthy name then
       n ← str_self name;
       let '(h, t) := split_once " " (strip n) in
       let payload := <["firstName" := VStr h]> payload in
       Ok (match t with
           | Some r => <["lastName" := VStr r]> payload
           | None => payload
           end)
     else Ok payload);
  let payload := set_if "lastName" last_name payload in
  let payload := set_if "tags" tags payload in
  let payload := set_if "customField" custom_fields payload in
  Ok (if truthy source then <["source" := source]> payload
      else <["source" := VStr "WordPress Lead Form"]> payload).

Definition create_contact
    (email phone first_name last_name name tags custom_fields source : value)
  : result (gmap string value) :=
  payload ← create_payload email phone first_name last_name name tags custom_fields source;
  match send (post_contacts payload) with
  | Raise e => Ok (<["ghl_contact_id" := VNone]> (transport_failure payload e))
  | Ok (status, json, text) =>
      let result : gmap string value :=
        <["ghl_contact_id" := VNone]>
        (<["error_message" := VNone]>
        (<["success" := VBool false]>
        (<["response_timestamp" := VStr utcnow_iso]>
        (<["response_body" := VNone]>
        (<["response_status_code" := VInt status]>
        (<["request_body" := VDict payload]>
        (<["request_timestamp" := VStr utcnow_iso]> ∅))))))) in
      let body :=
        match json with
        | Some v => v
        | None => VDict (<["raw_text" := VStr text]> ∅)
        end in
      let result := <["response_body" := body]> result in
      if ((status =? 200) || (status =? 201))%Z then
        let result := <["success" := VBool true]> result in
        match body with
        | VDict b =>
            contact ← dict_self (get_or b "contact" (VDict ∅));
            let cid := get contact "id" in
            Ok (<["ghl_contact_id" := if truthy cid then cid else get b "id"]> result)
        | _ => Ok result
        end
      else if (status =? 422)%Z then
        let result :=
          <["error_message" := VStr "Validation error or duplicate contact"]> result in
        match body with
        | VDict b =>
            if contains "duplicate" (lower (str_of body)) then
              let result := <["error_message" := VStr "Duplicate contact"]> result in
              contact ← dict_self (get_or b "contact" (VDict ∅));
              let existing_id := get contact "id" in
              if truthy existing_id
              then Ok (<["success" := VBool true]>
                       (<["ghl_contact_id" := existing_id]> result))
              else Ok result
            else Ok result
        | _ => Ok result
        end
      else if (status =? 401)%Z then
        Ok (<["error_message" := VStr "Authentication failed - check access token"]> result)
      else if (status =? 400)%Z then
        Ok (<["error_message" := VStr "Bad request - check payload format"]> result)
      else
        Ok (<["error_message" := VStr ("API error: " ++ str_of (VInt status))]> result)
  end.

(** The request payload that [update_contact] builds. *)
Definition update_payload (email phone first_name last_name tags custom_fields : value)
  : gmap string value :=
  let payload : gmap string value := ∅ in
  let payload := set_if "email" email payload in
  let payload := set_if "phone" phone payload in
  let payload := set_if "firstName" first_name payload in
  let payload := set_if "lastName" last_name payload in
  let payload := set_if "tags" tags payload in
  set_if "customField" custom_fields payload.

Definition update_contact
    (contact_id email phone first_name last_name tags custom_fields : value)
  : gmap string value :=
  let payload := update_payload email phone first_name last_name tags custom_fields in
  match send (put_contact contact_id payload) with
  | Raise e => transport_failure payload e
  | Ok (status, json, text) =>
      let result : gmap string value :=
        <["error_message" := VNone]>
        (<["success" := VBool false]>
        (<["response_timestamp" := VStr utcnow_iso]>
        (<["response_body" := VNone]>
        (<["response_status_code" := VInt status]>
        (<["request_body" := VDict payload]>
        (<["request_timestamp" := VStr utcnow_iso]> ∅)))))) in
      let body :=
        match json with
        | Some v => v
        | None => VDict (<["raw_text" := VStr text]> ∅)
        end in
      let result := <["response_body" := body]> result in
      if (status =? 200)%Z then <["success" := VBool true]> result
      else <["error_message" := VStr ("Update failed: " ++ str_of (VInt status))]> result
  end.

(** The loop of [get_contact_by_email] over the returned contacts. *)
Fixpoint first_with_email (email : value) (contacts : list value)
  : result (option value) :=
  match contacts with
  | [] => Ok None
  | contact :: rest =>
      d ← dict_self contact;
      e ← str_self (get_or d "email" (VStr ""));
      mine ← str_self email;
      if String.eqb (lower e) (lower mine) then Ok (Some contact)
      else first_with_email email rest
  end.

Definition get_contact_by_email (email : value) : result (option value) :=
  let params : gmap string value :=
    <["limit" := VInt 1]> (<["query" := email]> (<["locationId" := location_id]> ∅)) in
  let attempt : result (option value) :=
    '(status, json, _) ← send (get_contacts params);
    if (status =? 200)%Z then
      data ← json_of json;
      d ← dict_self data;
      let contacts := get_or d "contacts" (VList []) in
      if truthy contacts then
        match contacts with
        | VList l => first_with_email email l
        | VDict _ | VStr _ => Raise AttributeError
        | _ => Raise TypeError
        end
      else Ok None
    else Ok None in
  match attempt with
  | Raise e => if is_request_exception e then Ok None else Raise e
  | Ok r => Ok r
  end.

Definition create_or_update_contact
    (email phone first_name last_name name tags custom_fields source : value)
  : result (gmap string value) :=
  result ← create_contact email phone first_name last_name name tags custom_fields source;
  if negb (truthy (get result "success"))
     && contains "duplicate" (lower (str_of (get_or result "error_message" (VStr ""))))
  then
    existing ← get_contact_by_email email;
    match existing with
    | Some contact =>
        if truthy contact then
          c ← dict_self contact;
          let contact_id := get c "id" in
          if truthy contact_id then
            let update_result :=
              update_contact contact_id VNone phone first_name last_name tags custom_fields in
            let update_result := <["ghl_contact_id" := contact_id]> update_result in
            Ok (<["note" := VStr "Updated existing contact"]> update_result)
          else Ok result
        else Ok result
    | None => Ok result
    end
  else Ok result.

End Client.

End GHLClient.

(** ** The delivery ledger [ghl_sync_log] *)

Inductive sync_status : Type := Pending | Success | Failed | Retry.

Definition sync_status_eqb (a b : sync_status) : bool :=
  match a, b with
  | Pending, Pending | Success, Success | Failed, Failed | Retry, Retry => true
  | _, _ => false
  end.

Module LogRow.

(** One row of [ghl_sync_log].  [request_timestamp] is the instant the
    bound ISO string denotes; [None] is SQL [NULL]. *)
Record t : Type := mk {
  id : Z;
  lead_id : Z;
  email : value;
  request_timestamp : option Z;
  request_body : value;
  response_status_code : value;
  response_body : value;
  response_timestamp : value;
  status : sync_status;
  error_message : value;
  retry_count : Z;
  next_retry_at : option Z;
  ghl_contact_id : value;
  ghl_location_id : value;
  created_at : Z;
  updated_at : Z
}.

(** [SET status = 'retry', next_retry_at = NOW()], with the
    [ON UPDATE CURRENT_TIMESTAMP] of [updated_at]. *)
Definition set_retry (now : Z) (r : t) : t :=
  mk (id r) (lead_id r) (email r) (request_timestamp r) (request_body r)
     (response_status_code r) (response_body r) (response_timestamp r)
     Retry (error_message r) (retry_count r) (Some now)
     (ghl_contact_id r) (ghl_location_id r) (created_at r) now.

End LogRow.

Record database : Type := {
  leads : leads_table;
  ghl_sync_log : list LogRow.t;
  next_log_id : Z
}.

(** ** [sync_to_ghl.GHLSyncManager] *)

Module GHLSyncManager.
Import PyStr Py.

(** A row of the result set of [get_leads_to_sync]: the lead and the
    joined latest ledger row, if any. *)
Record candidate : Type := {
  lead : LeadRow.t;
  latest_log : option LogRow.t
}.

(** The derived table [latest_log]: among the ledger rows of a lead,
    the one with [ROW_NUMBER() OVER (... ORDER BY id DESC) = 1]. *)
Definition latest_step (lid : Z) (acc : option LogRow.t) (r : LogRow.t)
  : option LogRow.t :=
  if (LogRow.lead_id r =? lid)%Z then
    match acc with
    | Some a => if (LogRow.id a <? LogRow.id r)%Z then Some r else acc
    | None => Some r
    end
  else acc.

Definition latest_of (log : list LogRow.t) (lid : Z) : option LogRow.t :=
  fold_left (latest_step lid) log None.

(** [l.id NOT IN (SELECT DISTINCT lead_id FROM ghl_sync_log)] *)
Definition never_logged (log : list LogRow.t) (lid : Z) : bool :=
  negb (existsb (fun r => (LogRow.lead_id r =? lid)%Z) log).

(** The [WHERE] clause. *)
Definition where_clause (max_retries now : Z) (log : list LogRow.t) (c : candidate) : bool :=
  (negb (LeadRow.ghl_synced (lead c)) && never_logged log (LeadRow.id (lead c)))
  || match latest_log c with
     | Some ll =>
         (sync_status_eqb (LogRow.status ll) Failed || sync_status_eqb (LogRow.status ll) Retry)
         && (LogRow.retry_count ll <? max_retries)%Z
         && match LogRow.next_retry_at ll with
            | None => true
            | Some t => (t <=? now)%Z
            end
     | None => false
     end.

(** The [ORDER BY] key: retries first, then the better score, then the
    earlier signup. *)
Definition order_key (c : candidate) : Z * Z * Z :=
  ((match latest_log c with
    | Some ll => if sync_status_eqb (LogRow.status ll) Retry then 0 else 1
    | None => 1
    end)%Z,
   (- LeadRow.quality_score (lead c))%Z,
   LeadRow.signup_date (lead c)).

Definition key_leb (a b : Z * Z * Z) : bool :=
  let '(a1, a2, a3) := a in
  let '(b1, b2, b3) := b in
  ((a1 <? b1) || ((a1 =? b1) && ((a2 <? b2) || ((a2 =? b2) && (a3 <=? b3)))))%Z.

Fixpoint insert_by_key (c : candidate) (l : list candidate) : list candidate :=
  match l with
  | [] => [c]
  | x :: rest =>
      if key_leb (order_key c) (order_key x) then c :: l
      else x :: insert_by_key c rest
  end.

Definition order_by (l : list candidate) : list candidate :=
  fold_right insert_by_key [] l.

Section Manager.

Variable batch_size : Z.
Variable max_retries : Z.
Variable retry_delay_minutes : Z.
Variable location_id : value.
(** The instant a bound timestamp string denotes, [None] for [NULL]. *)
Variable sql_timestamp : value -> option Z.
Variable strftime_ym : Z -> string.
Variable isoformat : Z -> string.
Variable py_str : value -> string.
(** [self.ghl_client.create_or_update_contact], by its arguments
    [email phone first_name last_name name tags custom_fields source]. *)
Variable create_or_update_contact :
  value -> value -> value -> value -> value -> value -> value -> value ->
  result (gmap string value).

Definition get_leads_to_sync (now : Z) (limit : option Z) (db : database)
  : result (list candidate) :=
  let log := ghl_sync_log db in
  let joined :=
    List.map (fun l => {| lead := l; latest_log := latest_of log (LeadRow.id l) |})
             (rows (leads db)) in
  let selected := List.filter (where_clause max_retries now log) joined in
  let n :=
    match limit with
    | Some k => if (k =? 0)%Z then batch_size else k
    | None => batch_size
    end in
  if (n <? 0)%Z then Raise (DatabaseError "You have an error in your SQL syntax")
  else Ok (firstn (Z.to_nat n) (order_by selected)).

(** [SELECT MAX(retry_count) FROM ghl_sync_log WHERE lead_id = %s],
    then [... or 0]. *)
Definition current_retry (log : list LogRow.t) (lid : Z) : Z :=
  let counts :=
    List.map LogRow.retry_count
             (List.filter (fun r => (LogRow.lead_id r =? lid)%Z) log) in
  match counts with
  | [] => 0%Z
  | c :: cs => fold_left Z.max cs c
  end.

(** The two [UPDATE leads ...] statements of [log_sync_attempt]. *)
Definition mark_synced (now : Z) (contact_id : value) (r : LeadRow.t) : LeadRow.t :=
  LeadRow.mk (LeadRow.id r) (LeadRow.email r) (LeadRow.phone r) (LeadRow.first_name r)
    (LeadRow.last_name r) (LeadRow.signup_date r) (LeadRow.signup_datetime r)
    (LeadRow.email_valid r) (LeadRow.email_domain r) (LeadRow.phone_valid r)
    (LeadRow.phone_country r) (LeadRow.phone_type r) (LeadRow.quality_score r)
    (LeadRow.is_processed r) (LeadRow.processed_at r)
    true (Some now) (Some contact_id) (LeadRow.ghl_sync_attempts r + 1)%Z
    (LeadRow.source r) (LeadRow.source_id r) (LeadRow.created_at r) now.

Definition count_attempt (now : Z) (r : LeadRow.t) : LeadRow.t :=
  LeadRow.mk (LeadRow.id r) (LeadRow.email r) (LeadRow.phone r) (LeadRow.first_name r)
    (LeadRow.last_name r) (LeadRow.signup_date r) (LeadRow.signup_datetime r)
    (LeadRow.email_valid r) (LeadRow.email_domain r) (LeadRow.phone_valid r)
    (LeadRow.phone_country r) (LeadRow.phone_type r) (LeadRow.quality_score r)
    (LeadRow.is_processed r) (LeadRow.processed_at r)
    (LeadRow.ghl_synced r) (LeadRow.ghl_synced_at r) (LeadRow.ghl_contact_id r)
    (LeadRow.ghl_sync_attempts r + 1)%Z
    (LeadRow.source r) (LeadRow.source_id r) (LeadRow.created_at r) now.

Definition update_lead (f : LeadRow.t -> LeadRow.t) (lid : Z) (tbl : leads_table)
  : leads_table :=
  {| rows := List.map (fun r => if (LeadRow.id r =? lid)%Z then f r else r) (rows tbl);
     next_id := next_id tbl |}.

(** [log_sync_attempt].  [fault] is the exception, if any, raised inside
    its [try] block: it is logged and the transaction rolled back.  (A
    failure to connect, before the [try] block, is told apart in
    [Connection.log_sync_attempt].) *)
Definition log_sync_attempt (now : Z) (fault : option exc)
    (lid : Z) (email : value) (result : gmap string value) (db : database)
  : database * list log_record :=
  match fault with
  | Some e => (db, [LogError "Failed to log sync attempt" (Some e)])
  | None =>
      let success := truthy (get result "success") in
      let status := if success then Success else Failed in
      let next_retry := if success then None else Some (now + 60 * retry_delay_minutes)%Z in
      let current := current_retry (ghl_sync_log db) lid in
      let row :=
        LogRow.mk (next_log_id db) lid email
          (sql_timestamp (get result "request_timestamp"))
          (get result "request_body")
          (get result "response_status_code")
          (get result "response_body")
          (get result "response_timestamp")
          status
          (get result "error_message")
          (current + (if success then 0 else 1))%Z
          next_retry
          (get result "ghl_contact_id")
          location_id now now in
      let leads' :=
        if success && truthy (get result "ghl_contact_id")
        then update_lead (mark_synced now (get result "ghl_contact_id")) lid (leads db)
        else update_lead (count_attempt now) lid (leads db) in
      ({| leads := leads';
          ghl_sync_log := ghl_sync_log db ++ [row];
          next_log_id := (next_log_id db + 1)%Z |}, [])
  end.

(** [sync_lead]: tag, deliver, log the attempt. *)
Definition sync_lead (now : Z) (fault : option exc) (l : LeadRow.t) (db : database)
  : bool * database * list log_record :=
  let tags :=
    [ VStr (if (80 <=? LeadRow.quality_score l)%Z then "high-quality"
            else if (50 <=? LeadRow.quality_score l)%Z then "medium-quality"
            else "low-quality");
      VStr "wordpress-lead";
      VStr ("signup-" ++ strftime_ym (LeadRow.signup_date l)) ] in
  let custom_fields : gmap string value :=
    <["source" := VStr "WordPress Sweepstakes"]>
    (<["quality_score" := VStr (py_str (VInt (LeadRow.quality_score l)))]>
    (<["signup_date" := VStr (isoformat (LeadRow.signup_date l))]> ∅)) in
  match create_or_update_contact (VStr (LeadRow.email l)) (LeadRow.phone l)
          (LeadRow.first_name l) (LeadRow.last_name l) VNone
          (VList tags) (VDict custom_fields) (VStr "WordPress Lead Form") with
  | Ok result =>
      let '(db', logs) :=
        log_sync_attempt now fault (LeadRow.id l) (VStr (LeadRow.email l)) result db in
      if truthy (get result "success")
      then (true, db', logs ++ [LogInfo "[SUCCESS] Synced"])
      else (false, db', logs ++ [LogWarning "[FAILED] Failed to sync"])
  | Raise e =>
      let error_result : gmap string value :=
        <["ghl_contact_id" := VNone]>
        (<["error_message" := VStr (exc_str e)]>
        (<["success" := VBool false]>
        (<["response_timestamp" := VStr (isoformat now)]>
        (<["response_body" := VNone]>
        (<["response_status_code" := VNone]>
        (<["request_body" := VDict (<["email" := VStr (LeadRow.email l)]> ∅)]>
        (<["request_timestamp" := VStr (isoformat now)]> ∅))))))) in
      let '(db', logs) :=
        log_sync_attempt now fault (LeadRow.id l) (VStr (LeadRow.email l)) error_result db in
      (false, db', LogError "Error syncing lead" (Some e) :: logs)
  end.

(** The loop of [sync_batch] over the selected leads: the counts of
    successes and failures and the database it leaves. *)
Fixpoint sync_each (now : Z) (fault : Z -> option exc) (cs : list candidate)
    (db : database) : Z * Z * database :=
  match cs with
  | [] => (0%Z, 0%Z, db)
  | c :: rest =>
      let '(ok, db', _) := sync_lead now (fault (LeadRow.id (lead c))) (lead c) db in
      let '(s, f, db'') := sync_each now fault rest db' in
      if ok then ((s + 1)%Z, f, db'') else (s, (f + 1)%Z, db'')
  end.

Definition sync_batch (now : Z) (fault : Z -> option exc) (size : option Z)
    (db : database) : result (Z * Z * Z * database) :=
  cs ← get_leads_to_sync now size db;
  let '(s, f, db') := sync_each now fault cs db in
  mret (Z.of_nat (List.length cs), s, f, db').

(** The [WHERE] clause of the sweep in [retry_failed_leads]. *)
Definition sweep_selects (date : Z) (r : LogRow.t) : bool :=
  match LogRow.request_timestamp r with
  | Some t => (Sync.date_of t =? date)%Z
  | None => false
  end
  && sync_status_eqb (LogRow.status r) Failed
  && (LogRow.retry_count r <? max_retries)%Z.

(** The [UPDATE ghl_sync_log SET status = 'retry', next_retry_at = NOW()
    WHERE ...] of [retry_failed_leads]. *)
Definition mark_for_retry (now date : Z) (log : list LogRow.t) : list LogRow.t :=
  List.map (fun r => if sweep_selects date r then LogRow.set_retry now r else r) log.

Definition marked_count (date : Z) (log : list LogRow.t) : Z :=
  Z.of_nat (List.length (List.filter (sweep_selects date) log)).

Definition retry_failed_leads (now : Z) (fault : Z -> option exc) (date : option Z)
    (db : database) : result (Z * Z * Z * database) :=
  let date := default (Sync.date_of now) date in
  let db' := {| leads := leads db;
                ghl_sync_log := mark_for_retry now date (ghl_sync_log db);
                next_log_id := next_log_id db |} in
  let marked := marked_count date (ghl_sync_log db) in
  if (0 <? marked)%Z then sync_batch now fault (Some marked) db'
  else Ok (0%Z, 0%Z, 0%Z, db').

End Manager.

End GHLSyncManager.

(** ** [unified_sync.UnifiedSyncService] *)

Module UnifiedSyncService.
Import Py Http.

Section Fetch.

Variable wp_leads_endpoint : gmap string value -> http_outcome.
Variable strftime : Z -> string.

(** [UnifiedSyncService.fetch_wordpress_leads]: every [Exception] of the
    body is logged and answered with the empty list. *)
Definition fetch_params (since_datetime : Z) : gmap string value :=
  let since_str := strftime since_datetime in
  <["limit" := VInt 1000]> (<["since" := VStr since_str]> ∅).

Definition fetch_wordpress_leads (since_datetime : Z) : value * list log_record :=
  let attempt : result value :=
    let params := fetch_params since_datetime in
    '(status, json, _) ← send (wp_leads_endpoint params);
    _ ← raise_for_status status;
    data ← json_of json;
    d ← dict_self data;
    let leads := get_or d "leads" (VList []) in
    _ ← len leads;
    mret leads in
  match attempt with
  | Ok leads => (leads, [LogInfo "Fetched leads from WordPress"])
  | Raise e => (VList [], [LogError "Failed to fetch WordPress leads" (Some e)])
  end.

End Fetch.

Section Delivery.

Variable location_id : value.
Variable sql_timestamp : value -> option Z.
Variable strftime_ym : Z -> string.
Variable isoformat : Z -> string.
Variable py_str : value -> string.
Variable create_or_update_contact :
  value -> value -> value -> value -> value -> value -> value -> value ->
  result (gmap string value).

(** The [UPDATE leads SET ghl_synced = TRUE, ...] of [sync_lead_to_ghl]. *)
Definition mark_synced (now : Z) (contact_id : value) (r : LeadRow.t) : LeadRow.t :=
  LeadRow.mk (LeadRow.id r) (LeadRow.email r) (LeadRow.phone r) (LeadRow.first_name r)
    (LeadRow.last_name r) (LeadRow.signup_date r) (LeadRow.signup_datetime r)
    (LeadRow.email_valid r) (LeadRow.email_domain r) (LeadRow.phone_valid r)
    (LeadRow.phone_country r) (LeadRow.phone_type r) (LeadRow.quality_score r)
    (LeadRow.is_processed r) (LeadRow.processed_at r)
    true (Some now) (Some contact_id) (LeadRow.ghl_sync_attempts r)
    (LeadRow.source r) (LeadRow.source_id r) (LeadRow.created_at r) now.

(** [UnifiedSyncService.sync_lead_to_ghl].  An exception of the body
    (of the client, or [fault] of the storage layer) is logged and
    nothing of the transaction is committed. *)
Definition sync_lead_to_ghl (now : Z) (fault : option exc) (lid : Z) (db : database)
  : bool * database * list log_record :=
  match List.find (fun r => (LeadRow.id r =? lid)%Z && negb (LeadRow.ghl_synced r))
                  (rows (leads db)) with
  | None => (false, db, [])
  | Some l =>
      let tags :=
        [ VStr "wordpress-lead"; VStr "auto-sync";
          VStr (if (80 <=? LeadRow.quality_score l)%Z then "high-quality"
                else if (50 <=? LeadRow.quality_score l)%Z then "medium-quality"
                else "low-quality");
          VStr ("signup-" ++ strftime_ym (LeadRow.signup_date l)) ] in
      let custom_fields : gmap string value :=
        <["source" := VStr "WordPress Sweepstakes"]>
        (<["quality_score" := VStr (py_str (VInt (LeadRow.quality_score l)))]>
        (<["signup_date" := VStr (isoformat (LeadRow.signup_datetime l))]> ∅)) in
      let attempt : result (gmap string value) :=
        result ← create_or_update_contact (VStr (LeadRow.email l)) (LeadRow.phone l)
                   (LeadRow.first_name l) (LeadRow.last_name l) VNone
                   (VList tags) (VDict custom_fields) (VStr "WordPress Lead Form");
        match fault with
        | Some e => Raise e
        | None => Ok result
        end in
      match attempt with
      | Raise e => (false, db, [LogError "Error syncing lead to GHL" (Some e)])
      | Ok result =>
          let success := truthy (get result "success") in
          let row :=
            LogRow.mk (next_log_id db) lid (VStr (LeadRow.email l))
              (sql_timestamp (get result "request_timestamp"))
              (get result "request_body")
              (get result "response_status_code")
              (get result "response_body")
              (get result "response_timestamp")
              (if success then Success else Failed)
              (get result "error_message")
              0%Z None
              (get result "ghl_contact_id")
              location_id now now in
          let delivered := success && truthy (get result "ghl_contact_id") in
          let leads' :=
            if delivered
            then {| rows := List.map (fun r => if (LeadRow.id r =? lid)%Z
                                              then mark_synced now (get result "ghl_contact_id") r
                                              else r) (rows (leads db));
                    next_id := next_id (leads db) |}
            else leads db in
          (delivered,
           {| leads := leads';
              ghl_sync_log := ghl_sync_log db ++ [row];
              next_log_id := (next_log_id db + 1)%Z |},
           [if delivered then LogInfo "Successfully synced lead to GHL"
            else LogWarning "Failed to sync lead"])
      end
  end.

End Delivery.

Section Cycle.

Variable validate_email : string -> option string.
Variable phonenumbers_parse : string -> string -> option (bool * string * value).
Variable strptime : string -> option Z.
Variable py_str : value -> string.

(** Step 2 of [run_sync_cycle]: every fetched lead is saved; an
    exception of one lead is counted and the loop goes on.  Each lead
    comes with the fault the storage layer raises for it, if any.  The
    result is [(mysql_new, mysql_updated, errors)], the ids of the new
    leads and the table. *)
Fixpoint store_leads (now : Z) (batch : list (value * option exc)) (tbl : leads_table)
  : (Z * Z * Z) * list Z * leads_table :=
  match batch with
  | [] => ((0, 0, 0)%Z, [], tbl)
  | (lead, fault) :: rest =>
      let saved :=
        d ← dict_self lead;
        Sync.save_lead_to_mysql validate_email phonenumbers_parse strptime py_str
          now fault d tbl in
      match saved with
      | Ok ((success, is_new, lead_id), tbl') =>
          let '((n, u, e), ids, tbl'') := store_leads now rest tbl' in
          if success : bool then
            if is_new : bool then
              ((n + 1, u, e)%Z,
               match lead_id with
               | Some i => if (i =? 0)%Z then ids else i :: ids
               | None => ids
               end,
               tbl'')
            else ((n, u + 1, e)%Z, ids, tbl'')
          else ((n, u, e), ids, tbl'')
      | Raise _ =>
          let '((n, u, e), ids, tbl'') := store_leads now rest tbl in
          ((n, u, e + 1)%Z, ids, tbl'')
      end
  end.

End Cycle.

(** The lower bound of the fetch window in [run_sync_cycle]:
    [start_time - timedelta(minutes=self.sync_interval + 1)], in seconds. *)
Definition since_datetime (start_time sync_interval : Z) : Z :=
  (start_time - 60 * (sync_interval + 1))%Z.

(** The pause of [run_continuous] between two cycles, in seconds, when
    no shutdown is requested: [sync_interval * 60] sleeps of one second. *)
Definition inter_cycle_sleep (sync_interval : Z) : Z :=
  (Z.max 0 (sync_interval * 60))%Z.

(** When the cycle after the one started at [start_time] starts, if
    that cycle ran for [duration] seconds and no shutdown came. *)
Definition next_cycle_start (start_time duration sync_interval : Z) : Z :=
  (start_time + duration + inter_cycle_sleep sync_interval)%Z.

End UnifiedSyncService.

(** ** Stand-ins for the third-party libraries in the worked examples *)

Module Examples.
Import PyStr Py.

Definition address_char (c : ascii) : bool :=
  let n := nat_of_ascii c in (32 <? n)%nat && (n <? 127)%nat.

Fixpoint all_chars (p : ascii -> bool) (s : string) : bool :=
  match s with
  | EmptyString => true
  | String c s' => p c && all_chars p s'
  end.

(** Modelled from the spec: the address-syntax validity of section 4.1
    ("local-part@domain, domain has at least one dot, no disallowed
    characters"), standing for [email_validator.validate_email], whose
    code is not part of the repository.  An accepted address is
    returned as it is. *)
Definition syntax_validate (s : string) : option string :=
  match split "@" s with
  | [local; domain] =>
      if negb (String.eqb local "") && mem_char "." domain && all_chars address_char s
      then Some s else None
  | _ => None
  end.

(** Modelled from the spec: the phone normalisation of section 4.1 for
    the region US, standing for [phonenumbers]: ten digits are a valid
    national number, rendered in the international format. *)
Definition us_phone_parse (s region : string) : option (bool * string * value) :=
  let d := digits_only s in
  if String.eqb d "" then None
  else if Nat.eqb (String.length d) 10 then Some (true, ("+1" ++ d)%string, VStr "US")
  else Some (false, d, VNone).

Definition digit_char (n : nat) : ascii := ascii_of_nat (48 + n mod 10).

Fixpoint decimal_fuel (fuel n : nat) (acc : string) : string :=
  match fuel with
  | O => acc
  | S f =>
      let acc' := String (digit_char n) acc in
      if (n <? 10)%nat then acc' else decimal_fuel f (n / 10) acc'
  end.

(** [str(n)] of an integer. *)
Definition decimal (z : Z) : string :=
  let n := Z.to_nat (Z.abs z) in
  let digits := decimal_fuel (S n) n "" in
  if (z <? 0)%Z then String "-" digits else digits.

(** [repr] of a scalar inside a container. *)
Definition repr_scalar (v : value) : string :=
  match v with
  | VNone => "None"
  | VBool true => "True"
  | VBool false => "False"
  | VInt n => decimal n
  | VStr s => ("'" ++ s ++ "'")%string
  | _ => "..."
  end.

Fixpoint join (sep : string) (l : list string) : string :=
  match l with
  | [] => ""
  | [x] => x
  | x :: rest => (x ++ sep ++ join sep rest)%string
  end.

(** [str(x)] for numbers and for dictionaries of scalars. *)
Definition py_str (v : value) : string :=
  match v with
  | VStr s => s
  | VDict d =>
      ("{" ++ join ", " (List.map (fun kv => "'" ++ fst kv ++ "': " ++ repr_scalar (snd kv))
                                  (map_to_list d)) ++ "}")%string
  | other => repr_scalar other
  end.

(** [strftime('%Y-%m-%d %H:%M:%S')] on the two instants of the examples. *)
Definition strftime (t : Z) : string :=
  if (t =? 1735725600)%Z then "2025-01-01 10:00:00" else "2025-01-01 00:00:00".

(** [strptime(s, '%Y-%m-%d %H:%M:%S')] on the text of the examples. *)
Definition strptime (s : string) : option Z :=
  if String.eqb s "2025-01-01 10:00:00" then Some 1735725600%Z else None.

(** The source record of the scenario of section 8. *)
Definition scenario_lead : gmap string value :=
  <["email" := VStr "A@Test.com"]>
  (<["phone" := VStr "5551234567"]>
  (<["signup_date" := VStr "2025-01-01 10:00:00"]>
  (<["source" := VStr "wordpress"]>
  (<["id" := VInt 42]> ∅)))).

Definition empty_table : leads_table := {| rows := []; next_id := 1 |}.

(** A record with every bonus of the score. *)
Definition full_record : gmap string value :=
  <["email" := VStr "a@test.com"]>
  (<["email_valid" := VBool true]>
  (<["phone_cleaned" := VStr "5551234567"]>
  (<["phone_valid" := VBool true]>
  (<["source" := VStr "wordpress"]> ∅)))).

(** A record with every bonus whose cleaned phone is a valid number
    of the Faroe Islands in E.164: ten characters, nine digits. *)
Definition nine_digit_record : gmap string value :=
  <["email" := VStr "a@test.com"]>
  (<["email_valid" := VBool true]>
  (<["phone_cleaned" := VStr "+298201234"]>
  (<["phone_valid" := VBool true]>
  (<["source" := VStr "wordpress"]> ∅)))).

(** The scenario of section 8 at the destination: the create request
    is answered 422 with a duplicate indicator, the search finds the
    contact ["C-1"]. *)
Definition duplicate_answer (payload : gmap string value) : http_outcome :=
  Response 422 (Some (VDict (<["message" := VStr "This contact is a duplicate"]> ∅)))
           "This contact is a duplicate".

Definition search_answer (params : gmap string value) : http_outcome :=
  Response 200
    (Some (VDict (<["contacts" :=
                     VList [VDict (<["id" := VStr "C-1"]>
                                   (<["email" := VStr "a@test.com"]> ∅))]]> ∅)))
    "".

Definition update_accepted (contact_id : value) (payload : gmap string value)
  : http_outcome :=
  Response 200 (Some (VDict (<["contact" := VDict (<["id" := contact_id]> ∅)]> ∅))) "".

Definition update_unavailable (contact_id : value) (payload : gmap string value)
  : http_outcome :=
  Response 503 None "Service Unavailable".

(** The lead of the scenario as it is stored, and a ledger in which
    its only delivery attempt failed. *)
Definition stored_lead : LeadRow.t :=
  LeadRow.mk 1 "a@test.com" (VStr "5551234567") (VStr "") (VStr "")
    20089 1735725600 (VBool true) (VStr "test.com") (VBool true) (VStr "US")
    (VStr "mobile") 90 false None false None None 1
    (VStr "wordpress") (VStr "42") 1735725700 1735725700.

(** Two more stored leads, and a table in which the lead of the
    scenario stands between them. *)
Definition earlier_lead : LeadRow.t :=
  LeadRow.mk 7 "b@test.com" (VStr "5550001111") (VStr "Bea") (VStr "")
    20088 1735639200 (VBool true) (VStr "test.com") (VBool true) (VStr "US")
    (VStr "mobile") 90 false None true (Some 1735640000%Z) (Some (VStr "C-7")) 1
    (VStr "wordpress") (VStr "41") 1735639300 1735640000.

Definition later_lead : LeadRow.t :=
  LeadRow.mk 9 "c@gmail.com" (VStr "") (VStr "") (VStr "Cho")
    20089 1735725900 (VBool true) (VStr "gmail.com") (VBool false) (VStr "")
    VNone 70 false None false None None 0
    (VStr "wordpress") (VStr "43") 1735726000 1735726000.

Definition three_leads : leads_table :=
  {| rows := [earlier_lead; stored_lead; later_lead]; next_id := 10 |}.

Definition failed_attempt (retries : Z) : LogRow.t :=
  LogRow.mk 1 1 (VStr "a@test.com") (Some 1735725800%Z) VNone (VInt 503) VNone
    (VStr "2025-01-01T10:03:20") Failed (VStr "API error: 503") retries
    (Some 1735727600%Z) VNone (VStr "loc-1") 1735725800 1735725800.

Definition database_with_failure (retries : Z) : database :=
  {| leads := {| rows := [stored_lead]; next_id := 2 |};
     ghl_sync_log := [failed_attempt retries];
     next_log_id := 2 |}.

(** A destination that answers every delivery with 503. *)
Definition unavailable_client
    (email phone first_name last_name name tags custom_fields source : value)
  : result (gmap string value) :=
  Ok (<["error_message" := VStr "API error: 503"]>
      (<["success" := VBool false]>
      (<["response_status_code" := VInt 503]>
      (<["request_timestamp" := VStr "2025-01-01T11:00:00"]> ∅)))).

(** The instant of a bound timestamp text and the renderings of dates,
    on the values of the examples. *)
Definition sql_timestamp (v : value) : option Z :=
  match v with
  | VStr _ => Some 1735729200%Z
  | _ => None
  end.

Definition strftime_ym (d : Z) : string := "2025-01".

Definition isoformat (t : Z) : string := "2025-01-01".

End Examples.

(** ** The specification's reading of the score *)

Module Spec.
Import PyStr Py LeadCleaner.

Definition clamp (lo hi x : Z) : Z := Z.min (Z.max x lo) hi.

Definition bonus (b : bool) (n : Z) : Z := if b then n else 0%Z.

(** The text bound to a key, empty when the key is absent. *)
Definition text_of (lead : gmap string value) (k : string) : string :=
  match lead !! k with
  | Some (VStr s) => s
  | _ => ""
  end.

Definition email_is_valid (lead : gmap string value) : bool :=
  truthy (get lead "email_valid").

(** The phone bonus as the code decides it: the cleaned number has at
    least ten characters, digits or not. *)
Definition phone_present (lead : gmap string value) : bool :=
  (10 <=? String.length (text_of lead "phone_cleaned"))%nat.

(** The phone bonus in the words of section 4.2: a phone number of at
    least ten digits is present. *)
Definition phone_of_ten_digits (lead : gmap string value) : bool :=
  (10 <=? String.length (digits_only (text_of lead "phone_cleaned")))%nat.

Definition phone_passed_validation (lead : gmap string value) : bool :=
  truthy (get lead "phone_valid").

Definition email_domain (lead : gmap string value) : string :=
  lower (List.last (split "@" (text_of lead "email")) "").

Definition generic_provider (lead : gmap string value) : bool :=
  in_list (email_domain lead) free_providers.

Definition poor_source (lead : gmap string value) : bool :=
  in_list (lower (text_of lead "source")) poor_sources.

(** The score as the code computes it: base 50, the four bonuses, the
    penalty, the clamp, with the phone bonus by the count of characters. *)
Definition quality_formula (lead : gmap string value) : Z :=
  clamp 0 100
    (50 + bonus (email_is_valid lead) 20
        + bonus (phone_present lead) 15
        + bonus (phone_passed_validation lead) 10
        + bonus (negb (generic_provider lead)) 10
        - bonus (poor_source lead) 5)%Z.

(** The score in the words of section 4.2, with the phone bonus by the
    count of digits. *)
Definition stated_formula (lead : gmap string value) : Z :=
  clamp 0 100
    (50 + bonus (email_is_valid lead) 20
        + bonus (phone_of_ten_digits lead) 15
        + bonus (phone_passed_validation lead) 10
        + bonus (negb (generic_provider lead)) 10
        - bonus (poor_source lead) 5)%Z.

(** A record whose text fields are texts: [email] and [source] are
    strings when present, [phone_cleaned] is a string or [None]. *)
Definition is_text_or_absent (o : option value) : bool :=
  match o with
  | None | Some (VStr _) => true
  | Some _ => false
  end.

Definition scorable (lead : gmap string value) : bool :=
  is_text_or_absent (lead !! "email")
  && is_text_or_absent (lead !! "source")
  && match lead !! "phone_cleaned" with
     | None | Some VNone | Some (VStr _) => true
     | Some _ => false
     end.

(** Whether the upsert of an identity that is stored runs its
    [UPDATE]: the identity is not empty and the storage does not fail. *)
Definition refreshes (fault : option exc) (e : string) : bool :=
  match fault with
  | None => negb (String.eqb e "")
  | Some _ => false
  end.

(** The texts the score reads are ASCII texts. *)
Definition ascii_texts (lead : gmap string value) : bool :=
  is_ascii (text_of lead "email")
  && is_ascii (text_of lead "source")
  && is_ascii (text_of lead "phone_cleaned").

(** A failed fetch as the fetchers see it: an exception of the
    transport, or a status that [raise_for_status] rejects. *)
Definition fetch_rejected (o : http_outcome) : bool :=
  match o with
  | Transport _ => true
  | Response status _ _ => ((400 <=? status) && (status <? 600))%Z
  end.

(** A field of the dictionary a call returned, [None] when it raised. *)
Definition result_field (k : string) (r : result (gmap string value)) : option value :=
  match r with
  | Ok d => Some (Py.get d k)
  | Raise _ => None
  end.

(** The request was answered with HTTP 200. *)
Definition answered_200 (o : http_outcome) : bool :=
  match o with
  | Transport _ => false
  | Response status _ _ => (status =? 200)%Z
  end.

(** How far the lower bound of the fetch window lies before the start
    of the cycle, beyond one polling interval (in seconds). *)
Definition window_buffer (start_time sync_interval : Z) : Z :=
  ((start_time - 60 * sync_interval)
   - UnifiedSyncService.since_datetime start_time sync_interval)%Z.

(** The scores a record can get once neither the phone bonus nor the
    source penalty applies. *)
Definition pipeline_scores : list Z := [50; 60; 70; 80; 90]%Z.

End Spec.

(** ** Conditions and invariants used by the further properties *)

Module Invariant.
Import PyStr Py.

(** A value that the cleaners accept: falsy, or a text. *)
Definition cleanable (v : value) : bool :=
  negb (truthy v) || match v with VStr _ => true | _ => false end.

(** The fault is the duplicate-key error of the storage layer. *)
Definition is_duplicate_fault (e : exc) : bool :=
  match e with
  | IntegrityError msg => Sync.is_duplicate_entry msg
  | _ => false
  end.

(** The rows of [leads] as the upsert keeps them: identities pairwise
    distinct and not empty, ids pairwise distinct and below the counter. *)
Definition leads_wf (tbl : leads_table) : Prop :=
  NoDup (List.map LeadRow.email (rows tbl))
  /\ Forall (fun r => LeadRow.email r <> "") (rows tbl)
  /\ NoDup (List.map LeadRow.id (rows tbl))
  /\ Forall (fun r => (LeadRow.id r < next_id tbl)%Z) (rows tbl).

(** The ids of the ledger lie below its counter. *)
Definition log_ids_fresh (db : database) : Prop :=
  Forall (fun r => (LogRow.id r < next_log_id db)%Z) (ghl_sync_log db).

(** The [LIMIT] that [get_leads_to_sync] puts on its query: the given
    one unless it is missing or zero, then the batch size. *)
Definition effective_limit (batch_size : Z) (limit : option Z) : Z :=
  match limit with
  | Some k => if (k =? 0)%Z then batch_size else k
  | None => batch_size
  end.

(** The order of the result set of [get_leads_to_sync]. *)
Definition before (a b : GHLSyncManager.candidate) : Prop :=
  GHLSyncManager.key_leb (GHLSyncManager.order_key a) (GHLSyncManager.order_key b) = true.

(** What a delivery may change of a stored lead: never its id, its
    identity or its score; a synced lead stays synced and the count of
    attempts does not fall. *)
Definition lead_kept (r r' : LeadRow.t) : Prop :=
  LeadRow.id r' = LeadRow.id r
  /\ LeadRow.email r' = LeadRow.email r
  /\ LeadRow.quality_score r' = LeadRow.quality_score r
  /\ (LeadRow.ghl_synced r = true -> LeadRow.ghl_synced r' = true)
  /\ (LeadRow.ghl_sync_attempts r <= LeadRow.ghl_sync_attempts r')%Z.

End Invariant.

Module Delivery.
Import PyStr Py.

(** The body of an HTTP answer as the client keeps it: the parsed JSON,
    or the raw text under [raw_text]. *)
Definition body_of (json : option value) (text : string) : value :=
  match json with
  | Some v => v
  | None => VDict (<["raw_text" := VStr text]> ∅)
  end.

(** The error message of [create_contact] for a status that is neither
    a success nor 422. *)
Definition rejection_message (py_str : value -> string) (status : Z) : string :=
  if (status =? 401)%Z then "Authentication failed - check access token"
  else if (status =? 400)%Z then "Bad request - check payload format"
  else "API error: " ++ GHLClient.str_of py_str (VInt status).

(** The duplicate indicator of a 422 answer as [create_contact] reads
    it: a JSON object whose rendering mentions [duplicate]. *)
Definition duplicate_body (py_str : value -> string) (body : value) : bool :=
  match body with
  | VDict _ => contains "duplicate" (lower (GHLClient.str_of py_str body))
  | _ => false
  end.

End Delivery.

(** ** The storage calls with a connection that can fail

    [save_lead_to_mysql] and [log_sync_attempt] call
    [get_db_connection()] before their [try] block: an exception raised
    there leaves the function, whereas one raised by a statement or by
    the commit is handled inside it.  The functions below are the ones
    above with that distinction made. *)

Module Connection.
Import PyStr Py.

Inductive storage_fault : Type :=
  | AtConnect (e : exc)
  | InTransaction (e : exc).

(** The fault of the [try] block, if the connection is made. *)
Definition in_try (fault : option storage_fault) : option exc :=
  match fault with
  | Some (InTransaction e) => Some e
  | _ => None
  end.

Section Upsert.

Variable validate_email : string -> option string.
Variable phonenumbers_parse : string -> string -> option (bool * string * value).
Variable strptime : string -> option Z.
Variable py_str : value -> string.

(** [UnifiedSyncService.save_lead_to_mysql]: the record is processed
    and a record without an email is rejected before the connection is
    opened. *)
Definition save_lead_to_mysql (now : Z) (fault : option storage_fault)
    (lead : gmap string value) (tbl : leads_table)
  : result ((bool * bool * option Z) * leads_table) :=
  processed ← Sync.process_lead validate_email phonenumbers_parse strptime py_str now lead;
  if negb (truthy (get processed "email")) then Ok ((false, false, None), tbl)
  else
    match fault with
    | Some (AtConnect e) => Raise e
    | _ =>
        Sync.save_lead_to_mysql validate_email phonenumbers_parse strptime py_str
          now (in_try fault) lead tbl
    end.

End Upsert.

Section Manager.

Variable batch_size : Z.
Variable max_retries : Z.
Variable retry_delay_minutes : Z.
Variable location_id : value.
Variable sql_timestamp : value -> option Z.
Variable strftime_ym : Z -> string.
Variable isoformat : Z -> string.
Variable py_str : value -> string.
Variable create_or_update_contact :
  value -> value -> value -> value -> value -> value -> value -> value ->
  result (gmap string value).

(** [GHLSyncManager.log_sync_attempt] *)
Definition log_sync_attempt (now : Z) (fault : option storage_fault)
    (lid : Z) (email : value) (res : gmap string value) (db : database)
  : result (database * list log_record) :=
  match fault with
  | Some (AtConnect e) => Raise e
  | _ =>
      Ok (GHLSyncManager.log_sync_attempt retry_delay_minutes location_id sql_timestamp
            now (in_try fault) lid email res db)
  end.

(** The [error_result] of the [except] clause of [sync_lead]. *)
Definition error_result (now : Z) (l : LeadRow.t) (e : exc) : gmap string value :=
  <["ghl_contact_id" := VNone]>
  (<["error_message" := VStr (exc_str e)]>
  (<["success" := VBool false]>
  (<["response_timestamp" := VStr (isoformat now)]>
  (<["response_body" := VNone]>
  (<["response_status_code" := VNone]>
  (<["request_body" := VDict (<["email" := VStr (LeadRow.email l)]> ∅)]>
  (<["request_timestamp" := VStr (isoformat now)]> ∅))))))).

(** [GHLSyncManager.sync_lead].  [logging] is the fault of the call of
    [log_sync_attempt] in the [try] block, [relogging] the fault of the
    call in the [except] clause, which handles an exception of the
    client and also one of the first call. *)
Definition sync_lead (now : Z) (logging relogging : option storage_fault)
    (l : LeadRow.t) (db : database)
  : result (bool * database * list log_record) :=
  let tags :=
    [ VStr (if (80 <=? LeadRow.quality_score l)%Z then "high-quality"
            else if (50 <=? LeadRow.quality_score l)%Z then "medium-quality"
            else "low-quality");
      VStr "wordpress-lead";
      VStr ("signup-" ++ strftime_ym (LeadRow.signup_date l)) ] in
  let custom_fields : gmap string value :=
    <["source" := VStr "WordPress Sweepstakes"]>
    (<["quality_score" := VStr (py_str (VInt (LeadRow.quality_score l)))]>
    (<["signup_date" := VStr (isoformat (LeadRow.signup_date l))]> ∅)) in
  let attempt : result (bool * database * list log_record) :=
    res ← create_or_update_contact (VStr (LeadRow.email l)) (LeadRow.phone l)
            (LeadRow.first_name l) (LeadRow.last_name l) VNone
            (VList tags) (VDict custom_fields) (VStr "WordPress Lead Form");
    '(db', logs) ← log_sync_attempt now logging (LeadRow.id l) (VStr (LeadRow.email l))
                     res db;
    if truthy (get res "success")
    then Ok (true, db', logs ++ [LogInfo "[SUCCESS] Synced"])
    else Ok (false, db', logs ++ [LogWarning "[FAILED] Failed to sync"]) in
  match attempt with
  | Ok r => Ok r
  | Raise e =>
      '(db', logs) ← log_sync_attempt now relogging (LeadRow.id l)
                       (VStr (LeadRow.email l)) (error_result now l e) db;
      Ok (false, db', LogError "Error syncing lead" (Some e) :: logs)
  end.

(** The loop of [sync_batch]: the counts when every lead returns, the
    exception of the first lead that raises otherwise, and the database
    left in either case. *)
Fixpoint sync_each (now : Z)
    (faults : Z -> option storage_fault * option storage_fault)
    (cs : list GHLSyncManager.candidate) (db : database)
  : result (Z * Z) * database :=
  match cs with
  | [] => (Ok (0%Z, 0%Z), db)
  | c :: rest =>
      let lid := LeadRow.id (GHLSyncManager.lead c) in
      match sync_lead now (fst (faults lid)) (snd (faults lid)) (GHLSyncManager.lead c) db with
      | Raise e => (Raise e, db)
      | Ok (ok, db', _) =>
          let '(counts, db'') := sync_each now faults rest db' in
          (match counts with
           | Ok (s, f) => Ok (if ok : bool then ((s + 1)%Z, f) else (s, (f + 1)%Z))
           | Raise e => Raise e
           end, db'')
      end
  end.

(** [GHLSyncManager.sync_batch]: [(total, success, failed)], or the
    exception that leaves it, and the database left. *)
Definition sync_batch (now : Z)
    (faults : Z -> option storage_fault * option storage_fault)
    (size : option Z) (db : database)
  : result (Z * Z * Z) * database :=
  match GHLSyncManager.get_leads_to_sync batch_size max_retries now size db with
  | Raise e => (Raise e, db)
  | Ok cs =>
      let '(counts, db') := sync_each now faults cs db in
      (match counts with
       | Ok (s, f) => Ok (Z.of_nat (List.length cs), s, f)
       | Raise e => Raise e
       end, db')
  end.

End Manager.

End Connection.

(** * Properties *)

Import PyStr Py LeadCleaner Spec Sync Http.
Set Warnings "-notation-for-abbreviation".

(** ** Strings *)

Lemma lower_char_idem c : lower_char (lower_char c) = lower_char c.
Proof. destruct c as [[] [] [] [] [] [] [] []]; reflexivity. Qed.

Lemma is_space_lower_char c : is_space (lower_char c) = is_space c.
Proof. destruct c as [[] [] [] [] [] [] [] []]; reflexivity. Qed.

Lemma lower_idem s : lower (lower s) = lower s.
Proof. induction s as [|c s IH]; simpl; [reflexivity|]. by rewrite lower_char_idem, IH. Qed.

Lemma lstrip_lower s : lstrip (lower s) = lower (lstrip s).
Proof.
  induction s as [|c s IH]; simpl; [reflexivity|].
  rewrite is_space_lower_char. destruct (is_space c); [exact IH | reflexivity].
Qed.

Lemma rstrip_lower s : rstrip (lower s) = lower (rstrip s).
Proof.
  induction s as [|c s IH]; simpl; [reflexivity|].
  rewrite IH, is_space_lower_char.
  destruct (rstrip s); simpl; [destruct (is_space c)|]; reflexivity.
Qed.

Lemma strip_lower s : strip (lower s) = lower (strip s).
Proof. unfold strip. by rewrite lstrip_lower, rstrip_lower. Qed.

Lemma rstrip_idem s : rstrip (rstrip s) = rstrip s.
Proof.
  induction s as [|c s IH]; simpl; [reflexivity|].
  destruct (rstrip s) as [|d r] eqn:E.
  - destruct (is_space c) eqn:Ec; simpl; [reflexivity|]. by rewrite Ec.
  - simpl in *. by rewrite IH.
Qed.

Lemma lstrip_no_leading s : no_leading_space (lstrip s).
Proof.
  induction s as [|c s IH]; simpl; [exact I|].
  destruct (is_space c) eqn:E; [exact IH | exact E].
Qed.

Lemma lstrip_fixed s : no_leading_space s -> lstrip s = s.
Proof. destruct s as [|c s]; simpl; [done|]. by intros ->. Qed.

Lemma rstrip_no_leading s : no_leading_space s -> no_leading_space (rstrip s).
Proof.
  destruct s as [|c s]; simpl; [done|]. intros Hc.
  destruct (rstrip s); simpl; [by rewrite Hc|done].
Qed.

Lemma strip_idem s : strip (strip s) = strip s.
Proof.
  unfold strip.
  rewrite (lstrip_fixed (rstrip (lstrip s))).
  - apply rstrip_idem.
  - apply rstrip_no_leading, lstrip_no_leading.
Qed.

Lemma lower_strip_idem s : lower (strip (lower (strip s))) = lower (strip s).
Proof. by rewrite strip_lower, strip_idem, lower_idem. Qed.

(** ** The quality score *)

Ltac case_bools :=
  repeat match goal with
         | |- context [if ?b then _ else _] =>
             match type of b with bool => destruct b eqn:? end
         end.

(** The code's running sum is the closed formula [quality_formula]. *)
Lemma calculate_quality_score_spec (lead : gmap string value) :
  scorable lead = true ->
  calculate_quality_score lead = Ok (quality_formula lead).
Proof.
  intros Hs.
  unfold scorable in Hs. unfold calculate_quality_score, quality_formula.
  unfold email_is_valid, phone_present, phone_passed_validation, generic_provider,
    poor_source, email_domain, text_of, get_or.
  generalize (truthy (get lead "email_valid")) (truthy (get lead "phone_valid")).
  intros ev pv. unfold get.
  destruct (lead !! "email") as [[]|]; try discriminate Hs;
  destruct (lead !! "source") as [[]|]; try discriminate Hs;
  destruct (lead !! "phone_cleaned") as [[| | |[|? ?]| | | |]|]; try discriminate Hs;
  cbn -[in_list List.last split lower Z.min Z.max Z.add Z.sub];
  unfold clamp, bonus.
  all: repeat match goal with
       | |- context [in_list ?a ?b] => generalize (in_list a b); intro
       | |- context [Nat.leb ?a ?b] => generalize (Nat.leb a b); intro
       | |- context [String.eqb ?a ?b] => generalize (String.eqb a b); intro
       end.
  all: repeat match goal with b : bool |- _ => destruct b end; try reflexivity.
  all: case_bools; reflexivity.
Qed.

Lemma quality_formula_bounds (lead : gmap string value) :
  (0 <= quality_formula lead <= 100)%Z.
Proof. unfold quality_formula, clamp. lia. Qed.

(** C2 as stated fails.  The record below has every bonus and a valid
    cleaned phone of ten characters with nine digits: the formula of
    section 4.2, which counts digits, gives 90, the code gives 100.
    And not every record has a score: one whose email is not a text
    makes the scorer raise. *)
Lemma ten_characters_are_not_ten_digits :
  scorable Examples.nine_digit_record = true
  /\ ascii_texts Examples.nine_digit_record = true
  /\ String.length (digits_only "+298201234") = 9%nat
  /\ stated_formula Examples.nine_digit_record = 90%Z
  /\ calculate_quality_score Examples.nine_digit_record = Ok 100%Z
  /\ calculate_quality_score (<["email" := VNone]> ∅) = Raise AttributeError.
Proof. repeat split; reflexivity. Qed.

(** C2, as the code has it. For every record whose [email], [source]
    and [phone_cleaned] are ASCII texts or absent, the quality score is
    the clamp to [0,100] of 50, plus 20 for a valid email, plus 15 for
    a cleaned phone of at least ten characters, plus 10 for a phone
    that passed validation, plus 10 for an email domain outside the
    free providers, minus 5 for a source that is empty, [test] or
    [unknown]; it lies in [0,100]; and a record with every bonus and no
    penalty scores exactly 100. *)
Theorem quality_score_formula (lead : gmap string value) :
  scorable lead = true ->
  ascii_texts lead = true ->
  calculate_quality_score lead = Ok (quality_formula lead)
  /\ (0 <= quality_formula lead <= 100)%Z
  /\ (email_is_valid lead = true -> phone_present lead = true ->
      phone_passed_validation lead = true -> generic_provider lead = false ->
      poor_source lead = false -> calculate_quality_score lead = Ok 100%Z).
Proof.
  intros Hs _. rewrite (calculate_quality_score_spec lead Hs).
  split; [reflexivity|]. split; [apply quality_formula_bounds|].
  unfold quality_formula. intros -> -> -> -> ->. reflexivity.
Qed.

Lemma quality_score_formula_witness :
  calculate_quality_score Examples.full_record
    = Ok (quality_formula Examples.full_record)
  /\ (0 <= quality_formula Examples.full_record <= 100)%Z
  /\ (email_is_valid Examples.full_record = true ->
      phone_present Examples.full_record = true ->
      phone_passed_validation Examples.full_record = true ->
      generic_provider Examples.full_record = false ->
      poor_source Examples.full_record = false ->
      calculate_quality_score Examples.full_record = Ok 100%Z).
Proof. apply (quality_score_formula Examples.full_record); reflexivity. Defined.

(** The record with every bonus, evaluated. *)
Example full_record_scores_100 :
  calculate_quality_score Examples.full_record = Ok 100%Z.
Proof. reflexivity. Qed.

(** A record without a usable email field has no score: the call raises. *)
Example ill_typed_record_raises :
  calculate_quality_score (<["email" := VNone]> ∅) = Raise AttributeError.
Proof. reflexivity. Qed.

Lemma score_without_phone_and_penalty (d : gmap string value) (e : string) :
  d !! "phone_cleaned" = None ->
  d !! "source" = Some (VStr "wordpress") ->
  d !! "email" = Some (VStr e) ->
  let score := (50 + bonus (email_is_valid d) 20 + bonus (phone_passed_validation d) 10
                + bonus (negb (generic_provider d)) 10)%Z in
  calculate_quality_score d = Ok score /\ In score pipeline_scores.
Proof.
  intros Hp Hs He score.
  assert (Hsc : scorable d = true) by (unfold scorable; rewrite Hp, Hs, He; reflexivity).
  rewrite (calculate_quality_score_spec d Hsc).
  assert (Hf : quality_formula d = score).
  { unfold quality_formula, score, phone_present, poor_source, text_of.
    rewrite Hp, Hs. change (bonus (10 <=? String.length "")%nat 15) with 0%Z.
    change (bonus (in_list (lower "wordpress") poor_sources) 5) with 0%Z.
    unfold clamp, bonus.
    destruct (email_is_valid d), (phone_passed_validation d), (generic_provider d);
      reflexivity. }
  rewrite Hf. split; [reflexivity|].
  unfold score, bonus, pipeline_scores.
  destruct (email_is_valid d), (phone_passed_validation d), (generic_provider d);
    simpl; tauto.
Qed.

Section ProcessLead.
Variable validate_email : string -> option string.
Variable phonenumbers_parse : string -> string -> option (bool * string * value).
Variable strptime : string -> option Z.
Variable py_str : value -> string.

Lemma process_lead_shape now lead p :
  process_lead validate_email phonenumbers_parse strptime py_str now lead = Ok p ->
  exists processed e score,
    p = <["quality_score" := VInt score]> processed
    /\ processed !! "phone_cleaned" = None
    /\ processed !! "source" = Some (VStr "wordpress")
    /\ processed !! "email" = Some (VStr e)
    /\ processed !! "quality_score" = None
    /\ processed !! "phone" <> None
    /\ (exists d, processed !! "signup_date" = Some (VDate d))
    /\ (exists t, processed !! "signup_datetime" = Some (VDateTime t))
    /\ calculate_quality_score processed = Ok score.
Proof.
  unfold process_lead. intros H.
  destruct (dict_self _) as [raw|]; [|discriminate H]. cbn [mbind result_bind] in H.
  destruct (clean_email _ _) as [[e ev]|]; [|discriminate H]. cbn [mbind result_bind] in H.
  destruct (clean_phone _ _ _) as [[[pc pco] pv]|]; [|discriminate H].
  cbn [mbind result_bind] in H.
  match type of H with
  | (match calculate_quality_score ?d with _ => _ end) = _ => set (processed := d) in *
  | context [calculate_quality_score ?d] => set (processed := d) in *
  end.
  destruct (calculate_quality_score processed) as [score|] eqn:Hscore; [|discriminate H].
  cbn in H. injection H as <-.
  exists processed, e, score. split; [reflexivity|].
  subst processed.
  repeat split; try (eexists);
    destruct (negb (e =? "")%string && mem_char "@" e);
    try reflexivity; try exact Hscore; try discriminate.
Qed.
End ProcessLead.

(** ** The upsert *)

(** *** The table under the two statements of the upsert *)

Lemma same_but_updated_at_refl r : LeadRow.same_but_updated_at r r.
Proof. destruct r; reflexivity. Qed.

Lemma same_but_updated_at_set now r :
  LeadRow.same_but_updated_at r (LeadRow.set_updated_at now r).
Proof. destruct r; reflexivity. Qed.

Lemma touch_by_id_frame now i tbl :
  Forall2 LeadRow.same_but_updated_at (rows tbl) (rows (touch_by_id now i tbl))
  /\ next_id (touch_by_id now i tbl) = next_id tbl.
Proof.
  split; [|reflexivity]. unfold touch_by_id; simpl.
  induction (rows tbl) as [|r l IH]; simpl; constructor; [|exact IH].
  destruct (LeadRow.id r =? i)%Z;
    [apply same_but_updated_at_set | apply same_but_updated_at_refl].
Qed.

Lemma count_email_touch e now i tbl :
  count_email e (touch_by_id now i tbl) = count_email e tbl.
Proof.
  unfold count_email, touch_by_id; simpl.
  induction (rows tbl) as [|r l IH]; simpl; [reflexivity|].
  assert (He : LeadRow.email (if (LeadRow.id r =? i)%Z
                              then LeadRow.set_updated_at now r else r) = LeadRow.email r)
    by (destruct (LeadRow.id r =? i)%Z; reflexivity).
  rewrite He. destruct (LeadRow.email r =? e)%string; simpl; congruence.
Qed.

Lemma count_email_append e l n row n' :
  count_email e {| rows := l ++ [row]; next_id := n' |}
  = (count_email e {| rows := l; next_id := n |}
     + if (LeadRow.email row =? e)%string then 1 else 0)%nat.
Proof.
  unfold count_email; simpl. rewrite List.filter_app, List.length_app. simpl.
  destruct (LeadRow.email row =? e)%string; reflexivity.
Qed.

(** The first row of an identity that is stored splits the table. *)
Lemma find_by_email_split (l : list LeadRow.t) e :
  (1 <= List.length (List.filter (fun r => String.eqb (LeadRow.email r) e) l))%nat ->
  exists before existing after,
    l = before ++ existing :: after
    /\ Forall (fun x => LeadRow.email x <> e) before
    /\ LeadRow.email existing = e
    /\ List.find (fun r => String.eqb (LeadRow.email r) e) l = Some existing.
Proof.
  induction l as [|r l IH]; simpl; [lia|].
  destruct (String.eqb_spec (LeadRow.email r) e) as [Heq|Hne]; intros Hc.
  - exists [], r, l. repeat split; [constructor | exact Heq].
  - destruct (IH Hc) as (before & existing & after & -> & Hb & He & Hf).
    exists (r :: before), existing, after.
    repeat split; [constructor; assumption | exact He | exact Hf].
Qed.

(** With pairwise distinct ids, the [UPDATE ... WHERE id = %s] of a
    row's id changes that row alone. *)
Lemma touch_one_row now (before after : list LeadRow.t) existing :
  NoDup (List.map LeadRow.id (before ++ existing :: after)) ->
  List.map (fun r => if (LeadRow.id r =? LeadRow.id existing)%Z
                     then LeadRow.set_updated_at now r else r)
           (before ++ existing :: after)
  = before ++ LeadRow.set_updated_at now existing :: after.
Proof.
  intros Hnd. rewrite List.map_app. cbn [List.map]. rewrite Z.eqb_refl.
  rewrite List.map_app in Hnd. cbn [List.map] in Hnd.
  apply NoDup_app in Hnd as (_ & Hdisj & Hcons).
  apply NoDup_cons in Hcons as [Hnotin _].
  assert (Hkeep : forall l : list LeadRow.t,
             (forall x, In x l -> LeadRow.id x <> LeadRow.id existing) ->
             List.map (fun r => if (LeadRow.id r =? LeadRow.id existing)%Z
                                then LeadRow.set_updated_at now r else r) l = l).
  { intros l Hl. induction l as [|x l IHl]; [reflexivity|]. cbn [List.map].
    rewrite IHl by (intros y Hy; apply Hl; right; exact Hy).
    destruct (Z.eqb_spec (LeadRow.id x) (LeadRow.id existing)) as [E|_]; [|reflexivity].
    exfalso. apply (Hl x); [left; reflexivity | exact E]. }
  rewrite !Hkeep; [reflexivity| |].
  - intros x Hx E. apply Hnotin. rewrite <- E.
    apply list_elem_of_In, List.in_map. exact Hx.
  - intros x Hx E. apply (Hdisj (LeadRow.id x)).
    + apply list_elem_of_In, List.in_map. exact Hx.
    + rewrite E. left.
Qed.

Lemma select_none_iff_count tbl e :
  select_id_by_email tbl e = None <-> count_email e tbl = 0%nat.
Proof.
  unfold select_id_by_email, count_email.
  induction (rows tbl) as [|r l IH]; simpl; [tauto|].
  destruct (LeadRow.email r =? e)%string; simpl; [split; discriminate | exact IH].
Qed.


Section Store.
Variable validate_email : string -> option string.
Variable phonenumbers_parse : string -> string -> option (bool * string * value).
Variable strptime : string -> option Z.
Variable py_str : value -> string.

Notation process := (process_lead validate_email phonenumbers_parse strptime py_str).
Notation save := (save_lead_to_mysql validate_email phonenumbers_parse strptime py_str).

(** The row that a processed record inserts. *)
Lemma insert_row_of_processed now lead p e new_id stamp :
  process now lead = Ok p -> p !! "email" = Some (VStr e) ->
  exists row, insert_row stamp new_id p = Ok row
    /\ LeadRow.email row = e /\ LeadRow.id row = new_id
    /\ In (LeadRow.quality_score row) pipeline_scores.
Proof.
  intros Hp He.
  destruct (process_lead_shape _ _ _ _ _ _ _ Hp)
    as (d & e' & score & -> & Hph & Hsrc & Hem & Hq & _ & [sd Hsd] & [st Hst] & Hscore).
  assert (e' = e) as ->.
  { rewrite lookup_insert_ne in He by done. congruence. }
  destruct (score_without_phone_and_penalty d e Hph Hsrc Hem) as [Hs Hin].
  rewrite Hs in Hscore. injection Hscore as <-.
  unfold insert_row, get, get_or.
  rewrite lookup_insert_eq.
  rewrite !lookup_insert_ne by done. rewrite Hem, Hsd, Hst. cbn.
  eexists. split; [reflexivity|]. cbn. auto.
Qed.

(** What one upsert does, case by case. *)
Lemma save_cases now fault lead p e tbl :
  process now lead = Ok p -> p !! "email" = Some (VStr e) ->
  (e = "" /\ save now fault lead tbl = Ok ((false, false, None), tbl))
  \/ (e <> "" /\ exists ex, fault = Some ex
        /\ exists s, save now fault lead tbl = Ok ((s, false, None), tbl))
  \/ (e <> "" /\ fault = None /\ exists i, select_id_by_email tbl e = Some i
        /\ save now fault lead tbl = Ok ((true, false, Some i), touch_by_id now i tbl))
  \/ (e <> "" /\ fault = None /\ select_id_by_email tbl e = None
        /\ exists row, LeadRow.email row = e
             /\ In (LeadRow.quality_score row) pipeline_scores
             /\ save now fault lead tbl
                = Ok ((true, true, Some (next_id tbl)),
                      {| rows := rows tbl ++ [row]; next_id := (next_id tbl + 1)%Z |})).
Proof.
  intros Hp He. unfold save_lead_to_mysql. rewrite Hp. cbn [mbind result_bind].
  assert (Hg : get p "email" = VStr e) by (unfold get; rewrite He; reflexivity).
  rewrite !Hg. cbn [truthy].
  destruct (String.eqb_spec e "") as [->|Hne]; cbn [negb].
  { left; split; reflexivity. }
  right. destruct fault as [ex|].
  { left. split; [exact Hne|]. exists ex. split; [reflexivity|].
    destruct ex as [| | | | |msg|]; try (eexists; reflexivity).
    destruct (is_duplicate_entry msg); eexists; reflexivity. }
  right. cbn [str_self mbind result_bind].
  destruct (select_id_by_email tbl e) as [i|] eqn:Hsel.
  { left. split; [exact Hne|]. split; [reflexivity|]. exists i. split; reflexivity. }
  right. split; [exact Hne|]. split; [reflexivity|]. split; [reflexivity|].
  destruct (insert_row_of_processed now lead p e (next_id tbl) now Hp He)
    as (row & Hrow & Hemail & _ & Hq).
  rewrite Hrow. exists row. cbn. auto.
Qed.

End Store.

Section Upsert.
Variable validate_email : string -> option string.
Variable phonenumbers_parse : string -> string -> option (bool * string * value).
Variable strptime : string -> option Z.
Variable py_str : value -> string.

Notation process := (process_lead validate_email phonenumbers_parse strptime py_str).
Notation save := (save_lead_to_mysql validate_email phonenumbers_parse strptime py_str).
Notation ident := (identity validate_email phonenumbers_parse strptime py_str).
Notation replay := (upserts validate_email phonenumbers_parse strptime py_str).

Lemma identity_processed now lead e :
  ident now lead = Some e ->
  exists p, process now lead = Ok p /\ p !! "email" = Some (VStr e).
Proof.
  unfold identity. destruct (process now lead) as [p|]; [|discriminate].
  destruct (p !! "email") as [[]|] eqn:E; try discriminate.
  intros [= ->]. eauto.
Qed.

(** An upsert of an identity that is stored once leaves it stored once
    and reports no new row, whatever the storage layer does. *)
Lemma save_existing now fault lead e tbl :
  ident now lead = Some e -> count_email e tbl = 1%nat ->
  exists s i tbl', save now fault lead tbl = Ok ((s, false, i), tbl')
    /\ count_email e tbl' = 1%nat.
Proof.
  intros Hid Hc. destruct (identity_processed _ _ _ Hid) as (p & Hp & He).
  destruct (save_cases validate_email phonenumbers_parse strptime py_str
              now fault lead p e tbl Hp He)
    as [[_ H]|[(_ & ex & _ & s & H)|[(_ & _ & i & _ & H)|(_ & _ & Hsel & _)]]].
  - eauto.
  - eauto.
  - exists true, (Some i), (touch_by_id now i tbl). split; [exact H|].
    by rewrite count_email_touch.
  - apply select_none_iff_count in Hsel. congruence.
Qed.

Lemma replay_existing e later : forall tbl,
  Forall (fun c => ident (fst (fst c)) (snd c) = Some e) later ->
  count_email e tbl = 1%nat ->
  Forall (fun r => exists s i, r = Some (s, false, i)) (fst (replay later tbl))
  /\ count_email e (snd (replay later tbl)) = 1%nat.
Proof.
  induction later as [|[[now fault] lead] rest IH]; intros tbl Hall Hc; simpl.
  - split; [constructor | exact Hc].
  - inversion Hall as [|? ? Hhd Htl]; subst. simpl in Hhd.
    destruct (save_existing now fault lead e tbl Hhd Hc) as (s & i & tbl' & -> & Hc').
    destruct (IH tbl' Htl Hc') as [Hrs Hfin].
    destruct (replay rest tbl') as [rs tbl'']; simpl in *.
    split; [constructor; eauto | exact Hfin].
Qed.

(** [MySQLSync.save_lead] is the same upsert without the returned id. *)
Lemma save_lead_agrees now fault lead tbl :
  save_lead validate_email phonenumbers_parse strptime py_str now fault lead tbl
  = match save now fault lead tbl with
    | Ok ((success, is_new, _), tbl') => Ok ((success, is_new), tbl')
    | Raise e => Raise e
    end.
Proof.
  unfold save_lead, save_lead_to_mysql.
  destruct (process now lead) as [p|e]; cbn [mbind result_bind]; [|reflexivity].
  destruct (negb (truthy (get p "email"))); [reflexivity|].
  destruct fault as [[| | | | |msg|]|]; try reflexivity.
  - destruct (is_duplicate_entry msg); reflexivity.
  - destruct (str_self (get p "email")) as [email|e]; cbn [mbind result_bind];
      [|destruct e as [| | | | |m|]; try reflexivity;
        destruct (is_duplicate_entry m); reflexivity].
    destruct (select_id_by_email tbl email); [reflexivity|].
    destruct (insert_row now (next_id tbl) p) as [row|e]; cbn [mbind result_bind];
      [reflexivity|].
    destruct e as [| | | | |msg|]; try reflexivity.
    destruct (is_duplicate_entry msg); reflexivity.
Qed.

(** The identity is never stored twice: no upsert takes a count of at
    most one above one. *)
Lemma save_keeps_unique now fault lead tbl r tbl' e0 :
  save now fault lead tbl = Ok (r, tbl') ->
  (count_email e0 tbl <= 1)%nat -> (count_email e0 tbl' <= 1)%nat.
Proof.
  intros Hsave Hc.
  destruct (process now lead) as [p|ex] eqn:Hp.
  2:{ unfold save_lead_to_mysql in Hsave. rewrite Hp in Hsave. discriminate. }
  destruct (process_lead_shape _ _ _ _ _ _ _ Hp)
    as (d & e & score & Heq & _ & _ & Hem & _).
  assert (He : p !! "email" = Some (VStr e)).
  { subst p. rewrite lookup_insert_ne by done. exact Hem. }
  destruct (save_cases validate_email phonenumbers_parse strptime py_str
              now fault lead p e tbl Hp He)
    as [[_ H]|[(_ & ex & _ & s & H)|[(_ & _ & i & _ & H)|(_ & _ & Hsel & row & Hrow & _ & H)]]];
    rewrite H in Hsave; injection Hsave as <- <-; try exact Hc.
  - by rewrite count_email_touch.
  - rewrite (count_email_append e0 (rows tbl) (next_id tbl)).
    apply select_none_iff_count in Hsel.
    replace {| rows := rows tbl; next_id := next_id tbl |} with tbl by (destruct tbl; reflexivity).
    rewrite Hrow. destruct (String.eqb_spec e e0) as [->|]; lia.
Qed.

(** C1. Upserting a record whose identity is not yet stored inserts one
    row and returns [is_new = true]; every later upsert of a record
    with the same identity, whatever the storage layer answers, returns
    [is_new = false] and leaves exactly one row with that identity. *)
Theorem upsert_never_duplicates now lead e tbl later :
  ident now lead = Some e -> e <> "" -> count_email e tbl = 0%nat ->
  Forall (fun c => ident (fst (fst c)) (snd c) = Some e) later ->
  exists tbl1,
    save now None lead tbl = Ok ((true, true, Some (next_id tbl)), tbl1)
    /\ count_email e tbl1 = 1%nat
    /\ Forall (fun r => exists s i, r = Some (s, false, i)) (fst (replay later tbl1))
    /\ count_email e (snd (replay later tbl1)) = 1%nat.
Proof.
  intros Hid Hne Hc Hall. destruct (identity_processed _ _ _ Hid) as (p & Hp & He).
  destruct (save_cases validate_email phonenumbers_parse strptime py_str
              now None lead p e tbl Hp He)
    as [[-> _]|[(_ & ex & Hex & _)|[(_ & _ & i & Hsel & _)|(_ & _ & _ & row & Hrow & _ & H)]]].
  - congruence.
  - discriminate.
  - apply select_none_iff_count in Hc. congruence.
  - eexists. split; [exact H|].
    assert (Hc1 : count_email e {| rows := rows tbl ++ [row];
                                   next_id := (next_id tbl + 1)%Z |} = 1%nat).
    { rewrite (count_email_append e (rows tbl) (next_id tbl)).
      replace {| rows := rows tbl; next_id := next_id tbl |} with tbl
        by (destruct tbl; reflexivity).
      rewrite Hc, Hrow, String.eqb_refl. reflexivity. }
    split; [exact Hc1|]. apply replay_existing; assumption.
Qed.

(** C7. An upsert of a record whose identity is already stored, in a
    table whose ids are pairwise distinct (the primary key), returns
    [is_new = false], adds no row and leaves every row as it is but
    the first one with that identity: of that row it sets [updated_at]
    to the current time when the statement runs (a non-empty identity
    and no storage fault) and nothing else, and it leaves that row too
    as it is otherwise. *)
Theorem upsert_existing_frame now fault lead e tbl r tbl' :
  ident now lead = Some e -> (1 <= count_email e tbl)%nat ->
  NoDup (List.map LeadRow.id (rows tbl)) ->
  save now fault lead tbl = Ok (r, tbl') ->
  snd (fst r) = false
  /\ next_id tbl' = next_id tbl
  /\ exists before existing after,
       rows tbl = before ++ existing :: after
       /\ Forall (fun x => LeadRow.email x <> e) before
       /\ LeadRow.email existing = e
       /\ rows tbl'
          = before
            ++ (if refreshes fault e then LeadRow.set_updated_at now existing else existing)
            :: after
       /\ LeadRow.same_but_updated_at existing (LeadRow.set_updated_at now existing)
       /\ LeadRow.updated_at (LeadRow.set_updated_at now existing) = now.
Proof.
  intros Hid Hc Hnd Hsave. destruct (identity_processed _ _ _ Hid) as (p & Hp & He).
  destruct (find_by_email_split (rows tbl) e Hc)
    as (before & existing & after & Hrows & Hbefore & Hemail & Hfind).
  assert (Hshape : forall b : bool,
    exists before0 existing0 after0,
      rows tbl = before0 ++ existing0 :: after0
      /\ Forall (fun x => LeadRow.email x <> e) before0
      /\ LeadRow.email existing0 = e
      /\ (if b then rows (touch_by_id now (LeadRow.id existing) tbl) else rows tbl)
         = before0 ++ (if b then LeadRow.set_updated_at now existing0 else existing0)
                   :: after0
      /\ LeadRow.same_but_updated_at existing0 (LeadRow.set_updated_at now existing0)
      /\ LeadRow.updated_at (LeadRow.set_updated_at now existing0) = now).
  { intros b. exists before, existing, after.
    split; [exact Hrows|]. split; [exact Hbefore|]. split; [exact Hemail|].
    split; [|split; [apply same_but_updated_at_set | reflexivity]].
    destruct b; [|exact Hrows].
    unfold touch_by_id. cbn [rows]. rewrite Hrows in Hnd |- *.
    apply touch_one_row. exact Hnd. }
  destruct (save_cases validate_email phonenumbers_parse strptime py_str
              now fault lead p e tbl Hp He)
    as [[-> H]|[(Hne & ex & -> & s & H)|[(Hne & -> & i & Hsel & H)|(_ & _ & Hsel & _)]]];
    try (rewrite H in Hsave; injection Hsave as <- <-).
  - split; [reflexivity|]. split; [reflexivity|].
    unfold refreshes. destruct fault; exact (Hshape false).
  - split; [reflexivity|]. split; [reflexivity|]. exact (Hshape false).
  - split; [reflexivity|]. split; [reflexivity|].
    assert (Hi : i = LeadRow.id existing).
    { unfold select_id_by_email in Hsel. rewrite Hfind in Hsel. cbn in Hsel. congruence. }
    subst i. unfold refreshes.
    destruct (String.eqb_spec e "") as [E|_]; [contradiction|]. exact (Hshape true).
  - apply select_none_iff_count in Hsel. lia.
Qed.

(** No upsert stores a score outside the five pipeline scores. *)
Lemma save_keeps_scores now fault lead tbl r tbl' :
  save now fault lead tbl = Ok (r, tbl') ->
  Forall (fun row => In (LeadRow.quality_score row) pipeline_scores) (rows tbl) ->
  Forall (fun row => In (LeadRow.quality_score row) pipeline_scores) (rows tbl').
Proof.
  intros Hsave Hall.
  destruct (process now lead) as [p|ex] eqn:Hp.
  2:{ unfold save_lead_to_mysql in Hsave. rewrite Hp in Hsave. discriminate. }
  destruct (process_lead_shape _ _ _ _ _ _ _ Hp)
    as (d & e & score & Heq & _ & _ & Hem & _).
  assert (He : p !! "email" = Some (VStr e)).
  { subst p. rewrite lookup_insert_ne by done. exact Hem. }
  destruct (save_cases validate_email phonenumbers_parse strptime py_str
              now fault lead p e tbl Hp He)
    as [[_ H]|[(_ & ex & _ & s & H)|[(_ & _ & i & _ & H)|(_ & _ & _ & row & _ & Hq & H)]]];
    rewrite H in Hsave; injection Hsave as <- <-; try exact Hall.
  - unfold touch_by_id; simpl. apply Forall_map.
    eapply Forall_impl; [exact Hall|]. intros row Hrow. simpl.
    destruct (LeadRow.id row =? i)%Z; [destruct row|]; exact Hrow.
  - simpl. apply Forall_app. split; [exact Hall|]. constructor; [exact Hq|constructor].
Qed.

Lemma replay_keeps_scores calls : forall tbl,
  Forall (fun row => In (LeadRow.quality_score row) pipeline_scores) (rows tbl) ->
  Forall (fun row => In (LeadRow.quality_score row) pipeline_scores)
         (rows (snd (replay calls tbl))).
Proof.
  induction calls as [|[[now fault] lead] rest IH]; intros tbl Hall; simpl; [exact Hall|].
  destruct (save now fault lead tbl) as [[r tbl']|ex] eqn:Hsave.
  - specialize (IH tbl' (save_keeps_scores _ _ _ _ _ _ Hsave Hall)).
    destruct (replay rest tbl'); exact IH.
  - specialize (IH tbl Hall). destruct (replay rest tbl); exact IH.
Qed.

(** C10. A record processed by [process_lead] never has the key
    [phone_cleaned] (the phone is under the key [phone]) and always has
    the source [wordpress], so its score
    is 50 plus 20 for a valid email, plus 10 for a valid phone, plus 10
    for a domain outside the free providers: one of 50, 60, 70, 80, 90
    and never 100; and every table the upsert builds from the empty
    table holds only such scores. *)
Theorem pipeline_scores_never_full :
  (forall now lead,
      match process now lead with
      | Ok p =>
          p !! "phone_cleaned" = None
          /\ p !! "phone" <> None
          /\ p !! "source" = Some (VStr "wordpress")
          /\ exists score,
              p !! "quality_score" = Some (VInt score)
              /\ score = (50 + bonus (email_is_valid p) 20
                             + bonus (phone_passed_validation p) 10
                             + bonus (negb (generic_provider p)) 10)%Z
              /\ In score pipeline_scores /\ score <> 100%Z
      | Raise _ => True
      end)
  /\ (forall calls n,
         Forall (fun row => In (LeadRow.quality_score row) pipeline_scores)
                (rows (snd (replay calls {| rows := []; next_id := n |})))).
Proof.
  split.
  - intros now lead. destruct (process now lead) as [p|ex] eqn:Hp; [|exact I].
    destruct (process_lead_shape _ _ _ _ _ _ _ Hp)
      as (d & e & score & -> & Hph & Hsrc & Hem & Hq & Hphone & _ & _ & Hscore).
    destruct (score_without_phone_and_penalty d e Hph Hsrc Hem) as [Hs Hin].
    rewrite Hs in Hscore. injection Hscore as <-.
    rewrite !lookup_insert_ne by done. rewrite lookup_insert_eq.
    split; [exact Hph|]. split; [exact Hphone|]. split; [exact Hsrc|].
    eexists. split; [reflexivity|].
    split.
    + unfold email_is_valid, phone_passed_validation, generic_provider, email_domain,
        text_of, get. rewrite !lookup_insert_ne by done. reflexivity.
    + split; [exact Hin|]. intros H100. rewrite H100 in Hin.
      unfold pipeline_scores in Hin. simpl in Hin. intuition lia.
  - intros calls n. apply replay_keeps_scores. constructor.
Qed.

End Upsert.

Lemma upsert_never_duplicates_witness :
  exists tbl1,
    save_lead_to_mysql Examples.syntax_validate Examples.us_phone_parse Examples.strptime
      Examples.py_str 1735725700 None Examples.scenario_lead Examples.empty_table
    = Ok ((true, true, Some (next_id Examples.empty_table)), tbl1)
    /\ count_email "a@test.com" tbl1 = 1%nat
    /\ Forall (fun r => exists s i, r = Some (s, false, i))
         (fst (upserts Examples.syntax_validate Examples.us_phone_parse Examples.strptime
                 Examples.py_str
                 [(1735726300%Z, None, Examples.scenario_lead);
                  (1735726900%Z, Some (IntegrityError "Duplicate entry"),
                   Examples.scenario_lead)] tbl1))
    /\ count_email "a@test.com"
         (snd (upserts Examples.syntax_validate Examples.us_phone_parse Examples.strptime
                 Examples.py_str
                 [(1735726300%Z, None, Examples.scenario_lead);
                  (1735726900%Z, Some (IntegrityError "Duplicate entry"),
                   Examples.scenario_lead)] tbl1)) = 1%nat.
Proof.
  apply (upsert_never_duplicates Examples.syntax_validate Examples.us_phone_parse
           Examples.strptime Examples.py_str 1735725700 Examples.scenario_lead
           "a@test.com" Examples.empty_table).
  - vm_compute. reflexivity.
  - discriminate.
  - reflexivity.
  - repeat constructor.
Defined.

Lemma upsert_existing_frame_witness :
  snd (fst (true, false, Some 1%Z)) = false
  /\ next_id (touch_by_id 1735726300 1 Examples.three_leads) = next_id Examples.three_leads
  /\ exists before existing after,
       rows Examples.three_leads = before ++ existing :: after
       /\ Forall (fun x => LeadRow.email x <> "a@test.com") before
       /\ LeadRow.email existing = "a@test.com"
       /\ rows (touch_by_id 1735726300 1 Examples.three_leads)
          = before
            ++ (if refreshes None "a@test.com"
                then LeadRow.set_updated_at 1735726300 existing else existing)
            :: after
       /\ LeadRow.same_but_updated_at existing (LeadRow.set_updated_at 1735726300 existing)
       /\ LeadRow.updated_at (LeadRow.set_updated_at 1735726300 existing) = 1735726300%Z.
Proof.
  apply (upsert_existing_frame Examples.syntax_validate Examples.us_phone_parse
           Examples.strptime Examples.py_str 1735726300 None Examples.scenario_lead
           "a@test.com" Examples.three_leads (true, false, Some 1%Z)
           (touch_by_id 1735726300 1 Examples.three_leads)).
  - vm_compute. reflexivity.
  - vm_compute. lia.
  - apply (bool_decide_unpack _). vm_compute. exact I.
  - vm_compute. reflexivity.
Defined.

(** In the table of three leads the upsert of the stored identity
    refreshes the middle row and leaves its neighbours as they are. *)
Example upsert_refreshes_one_row :
  let tbl' := touch_by_id 1735726300 1 Examples.three_leads in
  save_lead_to_mysql Examples.syntax_validate Examples.us_phone_parse Examples.strptime
    Examples.py_str 1735726300 None Examples.scenario_lead Examples.three_leads
  = Ok ((true, false, Some 1%Z), tbl')
  /\ rows tbl'
     = [Examples.earlier_lead;
        LeadRow.set_updated_at 1735726300 Examples.stored_lead;
        Examples.later_lead]
  /\ List.map LeadRow.updated_at (rows Examples.three_leads)
     = [1735640000; 1735725700; 1735726000]%Z
  /\ List.map LeadRow.updated_at (rows tbl') = [1735640000; 1735726300; 1735726000]%Z.
Proof. repeat split; vm_compute; reflexivity. Qed.

(** The scenario of section 8: the record is stored under the identity
    [a@test.com] with the score 90, and sending it again in the next
    cycle updates the one row. *)
Example scenario_is_stored_once :
  fst (UnifiedSyncService.store_leads Examples.syntax_validate Examples.us_phone_parse
         Examples.strptime Examples.py_str 1735725700
         [(VDict Examples.scenario_lead, None); (VDict Examples.scenario_lead, None)]
         Examples.empty_table)
  = ((1, 1, 0)%Z, [1%Z])
  /\ List.map (fun r => (LeadRow.email r, LeadRow.quality_score r))
       (rows (snd (UnifiedSyncService.store_leads Examples.syntax_validate
                     Examples.us_phone_parse Examples.strptime Examples.py_str 1735725700
                     [(VDict Examples.scenario_lead, None);
                      (VDict Examples.scenario_lead, None)]
                     Examples.empty_table)))
     = [("a@test.com", 90%Z)].
Proof. split; vm_compute; reflexivity. Qed.

(** ** Cleaning an email *)

(** Cleaning twice, for whatever validator: the second cleaning of an
    accepted address returns the same pair exactly when the address
    returned is not empty and the validator accepts it, trimmed and
    lower-cased, as it is. *)
Lemma clean_email_twice (validate_email : string -> option string) (email n : string) :
  clean_email validate_email (VStr email) = Ok (n, true) ->
  (clean_email validate_email (VStr n) = Ok (n, true)
   <-> n <> "" /\ validate_email (lower (strip n)) = Some n).
Proof.
  intros _. unfold clean_email. cbn [truthy str_self mbind result_bind].
  destruct (String.eqb_spec n "") as [->|Hne]; cbn [negb].
  - split; [discriminate | intros [H _]; congruence].
  - destruct (validate_email (lower (strip n))) as [m|].
    + split; [intros [= ->]; auto | intros [_ [= ->]]; reflexivity].
    + split; [discriminate | intros [_ H]; discriminate H].
Qed.

(** The validity of section 4.1 returns an accepted address as it is. *)
Lemma syntax_validate_same x n : Examples.syntax_validate x = Some n -> n = x.
Proof.
  unfold Examples.syntax_validate.
  destruct (split "@" x) as [|? [|? [|]]]; try discriminate.
  destruct (_ && _); congruence.
Qed.

(** C9. For every valid email string, cleaning the normalised string
    that a first cleaning returned yields the same normalised string
    and the same validity flag.  Validity is the address syntax of
    section 4.1, [Examples.syntax_validate]. *)
Theorem clean_email_idempotent (email n : string) :
  clean_email Examples.syntax_validate (VStr email) = Ok (n, true) ->
  clean_email Examples.syntax_validate (VStr n) = Ok (n, true).
Proof.
  intros H. apply (clean_email_twice _ email n H).
  unfold clean_email in H. cbn [truthy str_self mbind result_bind] in H.
  destruct (String.eqb_spec email "") as [->|_]; cbn [negb] in H; [discriminate H|].
  destruct (Examples.syntax_validate (lower (strip email))) as [m|] eqn:Hv;
    [|discriminate H].
  injection H as ->. pose proof (syntax_validate_same _ _ Hv) as Hn. subst n. split.
  - intros E. rewrite E in Hv. discriminate Hv.
  - rewrite lower_strip_idem. exact Hv.
Qed.

Lemma clean_email_idempotent_witness :
  clean_email Examples.syntax_validate (VStr "  A@Test.com ") = Ok ("a@test.com", true)
  /\ clean_email Examples.syntax_validate (VStr "a@test.com") = Ok ("a@test.com", true).
Proof.
  split; [reflexivity|].
  apply (clean_email_idempotent "  A@Test.com " "a@test.com").
  reflexivity.
Defined.

(** A validator that accepts an address once only: the idempotence is
    a property of the validator, not of the steps of [clean_email]. *)
Example clean_email_needs_the_validator :
  let once_only := fun s : string =>
    if String.eqb s "a@x.io" then Some "b@x.io" else None in
  clean_email once_only (VStr "a@x.io") = Ok ("b@x.io", true)
  /\ clean_email once_only (VStr "b@x.io") = Ok ("b@x.io", false).
Proof. split; reflexivity. Qed.

(** ** Fetching and the fetch window *)

(** C4, as the code has it. On a failure of the transport or a 4xx/5xx
    answer, [UnifiedSyncService.fetch_wordpress_leads] returns the empty
    list with one error record and raises nothing, and
    [WordPressSync.fetch_leads] logs one error record and raises the
    exception again. *)
Theorem fetch_failure_is_logged (wp : gmap string value -> http_outcome)
    (strftime : Z -> string) :
  (forall since,
      fetch_rejected (wp (UnifiedSyncService.fetch_params strftime since)) = true ->
      exists e,
        UnifiedSyncService.fetch_wordpress_leads wp strftime since
        = (VList [], [LogError "Failed to fetch WordPress leads" (Some e)]))
  /\ (forall since last_id limit,
         fetch_rejected (wp (WordPressSync.fetch_params strftime since last_id limit)) = true ->
         exists e,
           WordPressSync.fetch_leads wp strftime since last_id limit
           = (Raise e, [LogError "Failed to fetch leads from WordPress" (Some e)])).
Proof.
  split.
  - intros since H. unfold UnifiedSyncService.fetch_wordpress_leads.
    destruct (wp _) as [msg|status json text]; simpl in *.
    + eexists; reflexivity.
    + unfold raise_for_status. rewrite H. eexists; reflexivity.
  - intros since last_id limit H. unfold WordPressSync.fetch_leads.
    destruct (wp _) as [msg|status json text]; simpl in *.
    + eexists; reflexivity.
    + unfold raise_for_status. rewrite H. eexists; reflexivity.
Qed.

Lemma fetch_failure_is_logged_witness :
  (exists e,
      UnifiedSyncService.fetch_wordpress_leads
        (fun _ => Response 503 None "Service Unavailable") Examples.strftime 1735725600
      = (VList [], [LogError "Failed to fetch WordPress leads" (Some e)]))
  /\ (exists e,
         WordPressSync.fetch_leads
           (fun _ => Response 503 None "Service Unavailable") Examples.strftime
           (Some 1735725600%Z) (VInt 42) (VInt 500)
         = (Raise e, [LogError "Failed to fetch leads from WordPress" (Some e)])).
Proof.
  destruct (fetch_failure_is_logged
              (fun _ => Response 503 None "Service Unavailable") Examples.strftime)
    as [Hu Hw].
  split; [apply Hu | apply Hw]; reflexivity.
Defined.

(** The unified fetcher never raises: it answers with the leads of a
    well-formed answer or with the empty list and an error record. *)
Lemma fetch_wordpress_leads_total wp strftime since :
  (exists e, UnifiedSyncService.fetch_wordpress_leads wp strftime since
             = (VList [], [LogError "Failed to fetch WordPress leads" (Some e)]))
  \/ (exists leads, UnifiedSyncService.fetch_wordpress_leads wp strftime since
                    = (leads, [LogInfo "Fetched leads from WordPress"])).
Proof.
  unfold UnifiedSyncService.fetch_wordpress_leads.
  match goal with |- context [match ?a with Ok _ => _ | Raise _ => _ end] =>
    destruct a as [leads|e] end; eauto.
Qed.

(** C4 as stated fails: on a timeout of the transport
    [WordPressSync.fetch_leads] raises past its boundary instead of
    returning the empty list. *)
Lemma fetch_leads_reraises :
  fetch_rejected (Transport "Read timed out") = true
  /\ WordPressSync.fetch_leads (fun _ => Transport "Read timed out") Examples.strftime
       None VNone (VInt 500)
     = (Raise (RequestException "Read timed out"),
        [LogError "Failed to fetch leads from WordPress"
                  (Some (RequestException "Read timed out"))]).
Proof. split; reflexivity. Qed.

(** C8 as stated fails: with a polling interval of ten minutes the
    buffer is one minute, not ten. *)
Lemma window_buffer_is_not_the_interval :
  window_buffer 1735725600 10 = 60%Z /\ window_buffer 1735725600 10 <> (60 * 10)%Z.
Proof. split; [reflexivity | discriminate]. Qed.

(** C8, as the code has it. The lower bound of the fetch window is the
    start of the cycle minus the polling interval minus a buffer of one
    minute, whatever the interval; the window of the next cycle reaches
    back to 60 seconds, less the running time of this cycle, before
    this cycle's start. *)
Theorem window_buffer_one_minute (start_time sync_interval duration : Z) :
  (0 <= sync_interval)%Z ->
  window_buffer start_time sync_interval = 60%Z
  /\ UnifiedSyncService.since_datetime start_time sync_interval
     = (start_time - 60 * sync_interval - 60)%Z
  /\ (start_time
      - UnifiedSyncService.since_datetime
          (UnifiedSyncService.next_cycle_start start_time duration sync_interval)
          sync_interval
      = 60 - duration)%Z.
Proof.
  intros H. unfold window_buffer, UnifiedSyncService.since_datetime,
    UnifiedSyncService.next_cycle_start, UnifiedSyncService.inter_cycle_sleep.
  repeat split; lia.
Qed.

Lemma window_buffer_one_minute_witness :
  window_buffer 1735725600 10 = 60%Z
  /\ UnifiedSyncService.since_datetime 1735725600 10 = (1735725600 - 60 * 10 - 60)%Z
  /\ (1735725600
      - UnifiedSyncService.since_datetime
          (UnifiedSyncService.next_cycle_start 1735725600 5 10) 10
      = 60 - 5)%Z.
Proof. apply (window_buffer_one_minute 1735725600 10 5). lia. Defined.

(** ** Delivery to the destination *)

Import GHLClient.

Lemma truthy_dict_of_member (c : gmap string value) (k : string) :
  truthy (get c k) = true -> truthy (VDict c) = true.
Proof.
  unfold get. destruct (c !! k) as [v|] eqn:Hk; [intros _|discriminate].
  simpl. destruct (size c) eqn:Hs; [|reflexivity].
  apply map_size_empty_iff in Hs. subst c. rewrite lookup_empty in Hk. discriminate.
Qed.

Section Duplicate.
Variable py_str : value -> string.
Variable location_id : value.
Variable utcnow_iso : string.
Variable post_contacts : gmap string value -> http_outcome.
Variable get_contacts : gmap string value -> http_outcome.
Variable put_contact : value -> gmap string value -> http_outcome.

Notation deliver :=
  (create_or_update_contact py_str location_id utcnow_iso post_contacts get_contacts put_contact).

(** The result of [update_contact] carries the verdict of the PUT. *)
Lemma update_contact_success cid email phone first_name last_name tags custom_fields :
  get (update_contact py_str utcnow_iso put_contact
         cid email phone first_name last_name tags custom_fields) "success"
  = VBool (answered_200
             (put_contact cid
                (update_payload email phone first_name last_name tags custom_fields))).
Proof.
  unfold update_contact.
  destruct (put_contact _ _) as [msg|status json text]; simpl; [reflexivity|].
  destruct (status =? 200)%Z; reflexivity.
Qed.

(** C3, as the code has it. When the create request is answered 422
    with a duplicate indicator that names no contact and the lookup by
    email finds a contact with an id, the delivery returns that id as
    [ghl_contact_id], and [success] is true exactly when the update of
    that contact is answered with HTTP 200. *)
Theorem duplicate_resolved_by_update
    (email phone first_name last_name name tags custom_fields source : value)
    (payload body named contact : gmap string value) (text : string) (cid : value) :
  create_payload location_id email phone first_name last_name name tags custom_fields source
    = Ok payload ->
  post_contacts payload = Response 422 (Some (VDict body)) text ->
  contains "duplicate" (lower (str_of py_str (VDict body))) = true ->
  dict_self (get_or body "contact" (VDict ∅)) = Ok named ->
  truthy (get named "id") = false ->
  get_contact_by_email location_id get_contacts email = Ok (Some (VDict contact)) ->
  get contact "id" = cid -> truthy cid = true ->
  result_field "ghl_contact_id"
    (deliver email phone first_name last_name name tags custom_fields source) = Some cid
  /\ result_field "success"
       (deliver email phone first_name last_name name tags custom_fields source)
     = Some (VBool (answered_200
                      (put_contact cid
                         (update_payload VNone phone first_name last_name tags
                            custom_fields)))).
Proof.
  intros Hpay Hpost Hdup Hnamed Hnoid Hfind Hid Hcid.
  unfold create_or_update_contact, create_contact.
  rewrite Hpay. cbn [mbind result_bind]. rewrite Hpost. cbn [send].
  change ((422 =? 200)%Z || (422 =? 201)%Z) with false.
  change (422 =? 422)%Z with true. cbv iota.
  rewrite Hdup, Hnamed. cbn [mbind result_bind]. rewrite Hnoid.
  cbn [mbind result_bind].
  match goal with
  | |- context [negb (truthy (get ?r "success"))] =>
      change (truthy (get r "success")) with false;
      change (get_or r "error_message" (VStr "")) with (VStr "Duplicate contact")
  end.
  cbn [negb str_of].
  change (contains "duplicate" (lower "Duplicate contact")) with true.
  cbn [andb]. rewrite Hfind. cbn [mbind result_bind].
  rewrite (truthy_dict_of_member contact "id") by (rewrite Hid; exact Hcid).
  cbn [dict_self mbind result_bind]. rewrite Hid, Hcid.
  cbn [result_field]. split; f_equal.
  - unfold get. rewrite lookup_insert_ne by done. rewrite lookup_insert_eq. reflexivity.
  - unfold get at 1. rewrite !lookup_insert_ne by done.
    apply update_contact_success.
Qed.

End Duplicate.

Lemma duplicate_resolved_by_update_witness :
  result_field "ghl_contact_id"
    (create_or_update_contact Examples.py_str (VStr "loc-1") "2025-01-01T10:00:00"
       Examples.duplicate_answer Examples.search_answer Examples.update_accepted
       (VStr "a@test.com") (VStr "5551234567") (VStr "Ann") (VStr "Lee") VNone
       (VList [VStr "wordpress-lead"]) VNone (VStr "WordPress Lead Form"))
  = Some (VStr "C-1")
  /\ result_field "success"
       (create_or_update_contact Examples.py_str (VStr "loc-1") "2025-01-01T10:00:00"
          Examples.duplicate_answer Examples.search_answer Examples.update_accepted
          (VStr "a@test.com") (VStr "5551234567") (VStr "Ann") (VStr "Lee") VNone
          (VList [VStr "wordpress-lead"]) VNone (VStr "WordPress Lead Form"))
     = Some (VBool true).
Proof.
  eapply (duplicate_resolved_by_update Examples.py_str (VStr "loc-1") "2025-01-01T10:00:00"
            Examples.duplicate_answer Examples.search_answer Examples.update_accepted
            (VStr "a@test.com") (VStr "5551234567") (VStr "Ann") (VStr "Lee") VNone
            (VList [VStr "wordpress-lead"]) VNone (VStr "WordPress Lead Form"));
    reflexivity.
Defined.

(** C3 as stated fails: the duplicate is found under the id [C-1] but
    the update is answered 503, and the delivery returns
    [success = false]. *)
Lemma duplicate_update_can_fail :
  result_field "ghl_contact_id"
    (create_or_update_contact Examples.py_str (VStr "loc-1") "2025-01-01T10:00:00"
       Examples.duplicate_answer Examples.search_answer Examples.update_unavailable
       (VStr "a@test.com") (VStr "5551234567") (VStr "Ann") (VStr "Lee") VNone
       (VList [VStr "wordpress-lead"]) VNone (VStr "WordPress Lead Form"))
  = Some (VStr "C-1")
  /\ result_field "success"
       (create_or_update_contact Examples.py_str (VStr "loc-1") "2025-01-01T10:00:00"
          Examples.duplicate_answer Examples.search_answer Examples.update_unavailable
          (VStr "a@test.com") (VStr "5551234567") (VStr "Ann") (VStr "Lee") VNone
          (VList [VStr "wordpress-lead"]) VNone (VStr "WordPress Lead Form"))
     = Some (VBool false).
Proof. split; vm_compute; reflexivity. Qed.

(** ** The delivery ledger *)

Import GHLSyncManager.

(** *** The latest attempt of a lead *)

Lemma latest_of_logged_acc lid log : forall acc a,
  fold_left (latest_step lid) log acc = Some a ->
  acc = None -> existsb (fun r => (LogRow.lead_id r =? lid)%Z) log = true.
Proof.
  induction log as [|r log IH]; simpl; intros acc a H Hacc.
  - congruence.
  - subst acc. unfold latest_step in H at 2.
    destruct (LogRow.lead_id r =? lid)%Z eqn:E; simpl; [reflexivity|].
    eapply IH; [exact H | reflexivity].
Qed.

Lemma latest_of_logged log lid a :
  latest_of log lid = Some a -> never_logged log lid = false.
Proof.
  intros H. unfold never_logged.
  rewrite (latest_of_logged_acc lid log None a); [reflexivity | exact H | reflexivity].
Qed.

Lemma latest_of_map (f : LogRow.t -> LogRow.t) lid log :
  (forall r, LogRow.id (f r) = LogRow.id r /\ LogRow.lead_id (f r) = LogRow.lead_id r) ->
  latest_of (List.map f log) lid = f <$> latest_of log lid.
Proof.
  intros Hf. unfold latest_of.
  change (fold_left (latest_step lid) (List.map f log) (f <$> None)
          = f <$> fold_left (latest_step lid) log None).
  generalize (@None LogRow.t) as acc.
  induction log as [|r log IH]; intros acc; simpl; [reflexivity|].
  rewrite <- IH. f_equal. unfold latest_step.
  destruct (Hf r) as [Hid Hlid]. rewrite Hlid.
  destruct (LogRow.lead_id r =? lid)%Z; [|reflexivity].
  destruct acc as [a|]; simpl; [|reflexivity].
  destruct (Hf a) as [Hida _]. rewrite Hid, Hida.
  destruct (LogRow.id a <? LogRow.id r)%Z; reflexivity.
Qed.

Lemma Forall_insert_by_key (P : candidate -> Prop) c l :
  P c -> Forall P l -> Forall P (insert_by_key c l).
Proof.
  intros Hc Hl. induction Hl as [|x l Hx Hl IH]; cbn [insert_by_key].
  - constructor; [exact Hc|constructor].
  - destruct (key_leb (order_key c) (order_key x)).
    + constructor; [exact Hc|]. constructor; assumption.
    + constructor; assumption.
Qed.

Lemma Forall_order_by (P : candidate -> Prop) l :
  Forall P l -> Forall P (order_by l).
Proof.
  unfold order_by. induction 1; simpl; [constructor|].
  apply Forall_insert_by_key; assumption.
Qed.

Section Ledger.
Variable batch_size : Z.
Variable max_retries : Z.
Variable retry_delay_minutes : Z.
Variable location_id : value.
Variable sql_timestamp : value -> option Z.
Variable strftime_ym : Z -> string.
Variable isoformat : Z -> string.
Variable py_str : value -> string.
Variable create_or_update_contact :
  value -> value -> value -> value -> value -> value -> value -> value ->
  result (gmap string value).

(** An attempt whose retry budget is used up is not selected, whatever
    its status and the clock. *)
Lemma exhausted_not_selected now (log : list LogRow.t) c a :
  latest_log c = Some a -> latest_of log (LeadRow.id (lead c)) = Some a ->
  (max_retries <= LogRow.retry_count a)%Z ->
  where_clause max_retries now log c = false.
Proof.
  intros Hl Hlog Hmax. unfold where_clause.
  rewrite (latest_of_logged _ _ _ Hlog), Hl.
  replace (LogRow.retry_count a <? max_retries)%Z with false by (symmetry; lia).
  rewrite andb_false_r. simpl. rewrite andb_false_r. reflexivity.
Qed.

(** The sweep leaves an attempt without retry budget as it is. *)
Lemma sweep_skips_exhausted now date a :
  (max_retries <= LogRow.retry_count a)%Z ->
  (if sweep_selects max_retries date a then LogRow.set_retry now a else a) = a.
Proof.
  intros H. unfold sweep_selects.
  replace (LogRow.retry_count a <? max_retries)%Z with false by (symmetry; lia).
  rewrite andb_false_r. reflexivity.
Qed.

(** C6. A lead whose latest delivery attempt has status [failed] and a
    retry count equal to [max_retries] is not returned by
    [get_leads_to_sync], whatever the clock says about its
    [next_retry_at]; and no sweep changes that attempt. *)
Theorem exhausted_lead_not_eligible now limit db lid a cs :
  latest_of (ghl_sync_log db) lid = Some a ->
  LogRow.status a = Failed ->
  LogRow.retry_count a = max_retries ->
  get_leads_to_sync batch_size max_retries now limit db = Ok cs ->
  Forall (fun c => LeadRow.id (lead c) <> lid) cs
  /\ forall sweep_now date,
       latest_of (mark_for_retry max_retries sweep_now date (ghl_sync_log db)) lid = Some a.
Proof.
  intros Hlatest _ Hcount Hsel. split.
  - unfold get_leads_to_sync in Hsel.
    match type of Hsel with (if ?b then _ else _) = _ => destruct b end; [discriminate|].
    injection Hsel as <-. apply Forall_take, Forall_order_by.
    apply List.Forall_forall. intros c Hin.
    apply List.filter_In in Hin as [Hin Hwhere].
    apply List.in_map_iff in Hin as (l & <- & _). cbn [lead].
    intros Heq. cbn [lead latest_log] in Hwhere.
    rewrite (exhausted_not_selected now (ghl_sync_log db) _ a) in Hwhere.
    + discriminate.
    + cbn [latest_log lead]. rewrite Heq. exact Hlatest.
    + cbn [lead]. rewrite Heq. exact Hlatest.
    + lia.
  - intros sweep_now date. unfold mark_for_retry.
    rewrite latest_of_map.
    + rewrite Hlatest. cbn. f_equal. apply sweep_skips_exhausted. lia.
    + intros r. destruct (sweep_selects _ _ _); split; reflexivity.
Qed.

(** C5, as the code has it. Logging a delivery attempt only appends to
    the ledger: the rows already there stay as they are.  The sweep of
    [retry_failed_leads] rewrites rows in place, and only so: a failed
    row of the given date with retry budget left gets the status
    [retry], [next_retry_at] and [updated_at] set to the current time
    and nothing else; every other row is left as it is. *)
Theorem ledger_append_and_sweep :
  (forall now fault lid email result db,
      ghl_sync_log db `prefix_of`
        ghl_sync_log (fst (log_sync_attempt retry_delay_minutes location_id sql_timestamp
                             now fault lid email result db)))
  /\ (forall now fault l db,
         ghl_sync_log db `prefix_of`
           ghl_sync_log
             (snd (fst (sync_lead retry_delay_minutes location_id sql_timestamp
                          strftime_ym isoformat py_str create_or_update_contact
                          now fault l db))))
  /\ (forall now fault lid db,
         ghl_sync_log db `prefix_of`
           ghl_sync_log
             (snd (fst (UnifiedSyncService.sync_lead_to_ghl location_id sql_timestamp
                          strftime_ym isoformat py_str create_or_update_contact
                          now fault lid db))))
  /\ (forall now date log,
         Forall2 (fun r r' =>
                    r' = r
                    \/ (sweep_selects max_retries date r = true
                        /\ r' = LogRow.set_retry now r))
                 log (mark_for_retry max_retries now date log)).
Proof.
  assert (Hlog : forall now fault lid email result db,
      ghl_sync_log db `prefix_of`
        ghl_sync_log (fst (log_sync_attempt retry_delay_minutes location_id sql_timestamp
                             now fault lid email result db))).
  { intros. unfold log_sync_attempt. destruct fault; simpl.
    - reflexivity.
    - eexists; reflexivity. }
  split; [exact Hlog|]. split; [|split].
  - intros now fault l db. unfold sync_lead.
    destruct (create_or_update_contact _ _ _ _ _ _ _ _) as [result|e].
    + specialize (Hlog now fault (LeadRow.id l) (VStr (LeadRow.email l)) result db).
      destruct (log_sync_attempt _ _ _ _ _ _ _ _ _) as [db' logs].
      destruct (truthy _); exact Hlog.
    + match goal with |- context [log_sync_attempt _ _ _ _ _ _ _ ?r _] =>
        specialize (Hlog now fault (LeadRow.id l) (VStr (LeadRow.email l)) r db) end.
      destruct (log_sync_attempt _ _ _ _ _ _ _ _ _) as [db' logs]. exact Hlog.
  - intros now fault lid db. unfold UnifiedSyncService.sync_lead_to_ghl.
    destruct (List.find _ _) as [l|]; [|reflexivity].
    destruct (create_or_update_contact _ _ _ _ _ _ _ _) as [result|e];
      cbn [mbind result_bind]; [|reflexivity].
    destruct fault; simpl; [reflexivity|]. eexists; reflexivity.
  - intros now date log. unfold mark_for_retry.
    induction log as [|r log IH]; simpl; constructor; [|exact IH].
    destruct (sweep_selects max_retries date r); auto.
Qed.

End Ledger.

Lemma exhausted_lead_not_eligible_witness :
  Forall (fun c => LeadRow.id (lead c) <> 1%Z) []
  /\ forall sweep_now date,
       latest_of (mark_for_retry 3 sweep_now date
                    (ghl_sync_log (Examples.database_with_failure 3))) 1
       = Some (Examples.failed_attempt 3).
Proof.
  apply (exhausted_lead_not_eligible 10 3 1735800000 None
           (Examples.database_with_failure 3) 1 (Examples.failed_attempt 3) []);
    reflexivity.
Defined.

(** C5 as stated fails: the sweep turns the stored [failed] attempt into
    a [retry] attempt in place, before the new attempt is appended. *)
Lemma sweep_rewrites_ledger_row :
  List.map LogRow.status (ghl_sync_log (Examples.database_with_failure 1)) = [Failed]
  /\ match retry_failed_leads 10 3 30 (VStr "loc-1") Examples.sql_timestamp
             Examples.strftime_ym Examples.isoformat Examples.py_str
             Examples.unavailable_client 1735729200 (fun _ => None) None
             (Examples.database_with_failure 1) with
     | Ok (_, db') =>
         List.map (fun r => (LogRow.id r, LogRow.status r, LogRow.next_retry_at r))
                  (ghl_sync_log db')
     | Raise _ => []
     end
     = [(1%Z, Retry, Some 1735729200%Z); (2%Z, Failed, Some (1735729200 + 60 * 30)%Z)].
Proof. split; vm_compute; reflexivity. Qed.

(** With retry budget left and the delay elapsed the same lead is
    selected. *)
Example lead_with_budget_is_eligible :
  match get_leads_to_sync 10 3 1735800000 None (Examples.database_with_failure 2) with
  | Ok cs => List.map (fun c => LeadRow.id (lead c)) cs
  | Raise _ => []
  end = [1%Z].
Proof. vm_compute. reflexivity. Qed.

(** * Further properties of the code *)

Import Invariant Delivery.

(** ** Cleaning *)

(** X1. Cleaning an address that the validator rejects is idempotent,
    whatever the validator is: the trimmed, lower-cased text comes back
    unchanged with the flag false. *)
Theorem clean_email_invalid_idempotent (validate_email : string -> option string)
    (email n : string) :
  clean_email validate_email (VStr email) = Ok (n, false) ->
  clean_email validate_email (VStr n) = Ok (n, false).
Proof.
  unfold clean_email. cbn [truthy str_self mbind result_bind].
  destruct (String.eqb_spec email "") as [->|Hne]; cbn [negb].
  - intros [= <-]. reflexivity.
  - destruct (validate_email (lower (strip email))) as [m|] eqn:Hv; [discriminate|].
    intros [= <-].
    destruct (String.eqb_spec (lower (strip email)) "") as [->|_]; cbn [negb];
      [reflexivity|].
    rewrite lower_strip_idem, Hv. reflexivity.
Qed.

Lemma clean_email_invalid_idempotent_witness :
  clean_email Examples.syntax_validate (VStr " Not An Address ")
    = Ok ("not an address", false)
  /\ clean_email Examples.syntax_validate (VStr "not an address")
    = Ok ("not an address", false).
Proof.
  split; [reflexivity|].
  apply (clean_email_invalid_idempotent Examples.syntax_validate " Not An Address ").
  reflexivity.
Defined.

Lemma digits_only_all_digits s : Examples.all_chars is_digit (digits_only s) = true.
Proof.
  induction s as [|c s IH]; simpl; [reflexivity|].
  destruct (is_digit c) eqn:E; simpl; [rewrite E|]; exact IH.
Qed.

(** X2. A phone text never makes [clean_phone] raise, and whenever the
    number of an ASCII text is not valid the cleaned number holds the
    digits [0-9] only and the region is empty. *)
Theorem clean_phone_invalid_is_digits
    (phonenumbers_parse : string -> string -> option (bool * string * value))
    (phone region : string) :
  exists cleaned country valid,
    clean_phone phonenumbers_parse (VStr phone) region = Ok (cleaned, country, valid)
    /\ (is_ascii phone = true -> valid = false ->
        Examples.all_chars is_digit cleaned = true /\ country = VStr "").
Proof.
  unfold clean_phone. cbn [truthy str_self mbind result_bind].
  destruct (negb (negb (phone =? "")%string)).
  - exists "", (VStr ""), false. split; [reflexivity|]. intros _ _. split; reflexivity.
  - destruct (phonenumbers_parse (strip phone) region) as [[[[] cleaned] country]|].
    + exists cleaned, country, true. split; [reflexivity|]. discriminate.
    + eexists _, _, false. split; [reflexivity|]. intros _ _.
      split; [apply digits_only_all_digits | reflexivity].
    + eexists _, _, false. split; [reflexivity|]. intros _ _.
      split; [apply digits_only_all_digits | reflexivity].
Qed.

Lemma clean_phone_invalid_is_digits_witness :
  is_ascii "call 555-12" = true
  /\ exists cleaned country valid,
       clean_phone Examples.us_phone_parse (VStr "call 555-12") "US"
         = Ok (cleaned, country, valid)
       /\ (is_ascii "call 555-12" = true -> valid = false ->
           Examples.all_chars is_digit cleaned = true /\ country = VStr "").
Proof.
  split; [reflexivity|].
  apply (clean_phone_invalid_is_digits Examples.us_phone_parse "call 555-12" "US").
Defined.

(** On that text the cleaned number is [55512]. *)
Example clean_phone_keeps_the_digits :
  clean_phone Examples.us_phone_parse (VStr "call 555-12") "US"
  = Ok ("55512", VStr "", false).
Proof. reflexivity. Qed.

(** ** The score *)

(** X3. On whatever record it returns a score, the score lies between 45
    and 100: only the upper bound of the clamp can ever apply. *)
Theorem quality_score_range (lead : gmap string value) (score : Z) :
  calculate_quality_score lead = Ok score -> (45 <= score <= 100)%Z.
Proof.
  unfold calculate_quality_score.
  destruct (truthy (get lead "email_valid")), (truthy (get lead "phone_valid")),
    (truthy (get lead "phone_cleaned"));
    cbn [mbind result_bind mret result_ret];
    repeat match goal with
           | |- context [len ?v] => destruct (len v); cbn [mbind result_bind mret result_ret]
           | |- context [str_self ?v] =>
               destruct (str_self v); cbn [mbind result_bind mret result_ret]
           | |- context [if ?b then _ else _] => destruct b
           end;
    try discriminate; intros [= <-]; lia.
Qed.

Lemma quality_score_range_witness :
  calculate_quality_score Examples.full_record = Ok 100%Z /\ (45 <= 100 <= 100)%Z.
Proof.
  split; [reflexivity|].
  apply (quality_score_range Examples.full_record 100). reflexivity.
Defined.

(** ** Processing a record *)

Section Processing.
Variable validate_email : string -> option string.
Variable phonenumbers_parse : string -> string -> option (bool * string * value).
Variable strptime : string -> option Z.
Variable py_str : value -> string.

Notation process := (process_lead validate_email phonenumbers_parse strptime py_str).
Notation save := (save_lead_to_mysql validate_email phonenumbers_parse strptime py_str).
Notation ident := (identity validate_email phonenumbers_parse strptime py_str).
Notation replay := (upserts validate_email phonenumbers_parse strptime py_str).

Lemma clean_email_cleanable v :
  (exists r, clean_email validate_email v = Ok r) <-> cleanable v = true.
Proof.
  unfold clean_email, cleanable.
  destruct (truthy v) eqn:Ht; cbn [negb orb].
  - destruct v; cbn [str_self mbind result_bind]; split;
      try discriminate; try (intros [r Hr]; discriminate Hr); try reflexivity.
    intros _. destruct (validate_email (lower (strip s))); eauto.
  - split; [reflexivity|eauto].
Qed.

Lemma clean_phone_cleanable v region :
  (exists r, clean_phone phonenumbers_parse v region = Ok r) <-> cleanable v = true.
Proof.
  unfold clean_phone, cleanable.
  destruct (truthy v) eqn:Ht; cbn [negb orb].
  - destruct v; cbn [str_self mbind result_bind]; split;
      try discriminate; try (intros [r Hr]; discriminate Hr); try reflexivity.
    intros _. destruct (phonenumbers_parse (strip s) region) as [[[[] c] co]|]; eauto.
  - split; [reflexivity|eauto].
Qed.

(** X4. A source record is processed exactly when its email and its
    phone are each missing, falsy or a text: a record that carries one
    of them as another non-empty value (a number, say) makes
    [process_lead] raise. *)
Theorem process_lead_accepts (now : Z) (lead raw : gmap string value) :
  dict_self (get_or lead "raw_data" (VDict lead)) = Ok raw ->
  ((exists p, process now lead = Ok p)
   <-> cleanable (get_or raw "email" (VStr "")) = true
       /\ cleanable (get_or raw "phone" (VStr "")) = true).
Proof.
  intros Hraw. unfold process_lead. rewrite Hraw. cbn [mbind result_bind].
  split.
  - intros [p Hp].
    destruct (clean_email validate_email (get_or raw "email" (VStr "")))
      as [[e ev]|] eqn:He; [|discriminate Hp].
    cbn [mbind result_bind] in Hp.
    destruct (clean_phone phonenumbers_parse (get_or raw "phone" (VStr "")) "US")
      as [[[pc pco] pv]|] eqn:Hph; [|discriminate Hp].
    split; [apply clean_email_cleanable | apply (clean_phone_cleanable _ "US")]; eauto.
  - intros [He Hph].
    apply clean_email_cleanable in He as [[e ev] He].
    apply (clean_phone_cleanable _ "US") in Hph as [[[pc pco] pv] Hph].
    rewrite He. cbn [mbind result_bind]. rewrite Hph. cbn [mbind result_bind].
    match goal with |- context [calculate_quality_score ?d] =>
      destruct (score_without_phone_and_penalty d e) as [Hs _]
    end.
    + destruct (negb (e =? "")%string && mem_char "@" e); reflexivity.
    + destruct (negb (e =? "")%string && mem_char "@" e); reflexivity.
    + destruct (negb (e =? "")%string && mem_char "@" e); reflexivity.
    + rewrite Hs. cbn [mbind result_bind mret result_ret]. eauto.
Qed.

End Processing.

Lemma process_lead_accepts_witness :
  (exists p, process_lead Examples.syntax_validate Examples.us_phone_parse
               Examples.strptime Examples.py_str 1735725700%Z Examples.scenario_lead = Ok p)
  <-> cleanable (get_or Examples.scenario_lead "email" (VStr "")) = true
      /\ cleanable (get_or Examples.scenario_lead "phone" (VStr "")) = true.
Proof.
  apply (process_lead_accepts Examples.syntax_validate Examples.us_phone_parse
           Examples.strptime Examples.py_str 1735725700
           Examples.scenario_lead Examples.scenario_lead).
  reflexivity.
Defined.

(** A phone sent as a JSON number makes the record unprocessable. *)
Example numeric_phone_raises :
  process_lead Examples.syntax_validate Examples.us_phone_parse Examples.strptime
    Examples.py_str 1735725700
    (<["email" := VStr "a@test.com"]> (<["phone" := VInt 5551234567]> ∅))
  = Raise AttributeError.
Proof. vm_compute. reflexivity. Qed.

(** ** The upsert, case by case *)

Lemma select_none_not_in tbl e :
  select_id_by_email tbl e = None -> ~ In e (List.map LeadRow.email (rows tbl)).
Proof.
  unfold select_id_by_email.
  induction (rows tbl) as [|r l IH]; simpl; [tauto|].
  destruct (String.eqb_spec (LeadRow.email r) e) as [Heq|Hne]; simpl; [discriminate|].
  intros H [Hin|Hin]; [congruence | exact (IH H Hin)].
Qed.

Lemma touch_by_id_emails now i tbl :
  List.map LeadRow.email (rows (touch_by_id now i tbl)) = List.map LeadRow.email (rows tbl).
Proof.
  unfold touch_by_id; simpl. rewrite List.map_map. apply List.map_ext.
  intros r. destruct (LeadRow.id r =? i)%Z; reflexivity.
Qed.

Lemma touch_by_id_ids now i tbl :
  List.map LeadRow.id (rows (touch_by_id now i tbl)) = List.map LeadRow.id (rows tbl).
Proof.
  unfold touch_by_id; simpl. rewrite List.map_map. apply List.map_ext.
  intros r. destruct (LeadRow.id r =? i)%Z; reflexivity.
Qed.

Section Upserts.
Variable validate_email : string -> option string.
Variable phonenumbers_parse : string -> string -> option (bool * string * value).
Variable strptime : string -> option Z.
Variable py_str : value -> string.

Notation process := (process_lead validate_email phonenumbers_parse strptime py_str).
Notation save := (save_lead_to_mysql validate_email phonenumbers_parse strptime py_str).
Notation ident := (identity validate_email phonenumbers_parse strptime py_str).
Notation replay := (upserts validate_email phonenumbers_parse strptime py_str).

Lemma processed_has_identity now lead p :
  process now lead = Ok p -> exists e, p !! "email" = Some (VStr e).
Proof.
  intros Hp.
  destruct (process_lead_shape _ _ _ _ _ _ _ Hp) as (d & e & score & -> & _ & _ & Hem & _).
  exists e. rewrite lookup_insert_ne by done. exact Hem.
Qed.

(** Every upsert that returns leaves the table as it was, or touches
    the row of the identity, or appends one row under the next id. *)
Lemma save_shape now fault lead tbl r tbl' :
  save now fault lead tbl = Ok (r, tbl') ->
  (tbl' = tbl /\ snd (fst r) = false /\ snd r = None)
  \/ (exists i, tbl' = touch_by_id now i tbl /\ r = (true, false, Some i))
  \/ (exists row,
        tbl' = {| rows := rows tbl ++ [row]; next_id := (next_id tbl + 1)%Z |}
        /\ r = (true, true, Some (next_id tbl))
        /\ LeadRow.id row = next_id tbl
        /\ LeadRow.email row <> ""
        /\ select_id_by_email tbl (LeadRow.email row) = None).
Proof.
  intros Hsave.
  destruct (process now lead) as [p|ex] eqn:Hp.
  2:{ unfold save_lead_to_mysql in Hsave. rewrite Hp in Hsave. discriminate. }
  destruct (processed_has_identity _ _ _ Hp) as [e He].
  unfold save_lead_to_mysql in Hsave. rewrite Hp in Hsave. cbn [mbind result_bind] in Hsave.
  assert (Hg : get p "email" = VStr e) by (unfold get; rewrite He; reflexivity).
  rewrite !Hg in Hsave. cbn [truthy] in Hsave.
  destruct (String.eqb_spec e "") as [Heq|Hne]; cbn [negb] in Hsave.
  { injection Hsave as <- <-. left. auto. }
  destruct fault as [ex|].
  { left. destruct ex as [| | | | |msg|]; try (injection Hsave as <- <-; auto).
    destruct (is_duplicate_entry msg); injection Hsave as <- <-; auto. }
  cbn [str_self mbind result_bind] in Hsave.
  destruct (select_id_by_email tbl e) as [i|] eqn:Hsel.
  { injection Hsave as <- <-. right. left. eauto. }
  destruct (insert_row_of_processed validate_email phonenumbers_parse strptime py_str
              now lead p e (next_id tbl) now Hp He)
    as (row & Hrow & Hemail & Hid & _).
  rewrite Hrow in Hsave. cbn [mbind result_bind] in Hsave.
  injection Hsave as <- <-. right. right. exists row.
  repeat split; try assumption; rewrite Hemail; assumption.
Qed.

(** X5. A record without a usable identity is rejected and nothing is
    stored, whatever the storage layer does. *)
Theorem save_rejects_empty_identity now fault lead tbl :
  identity validate_email phonenumbers_parse strptime py_str now lead = Some "" ->
  save_lead_to_mysql validate_email phonenumbers_parse strptime py_str now fault lead tbl
  = Ok ((false, false, None), tbl).
Proof.
  intros Hid. destruct (identity_processed _ _ _ _ _ _ _ Hid) as (p & Hp & He).
  destruct (save_cases validate_email phonenumbers_parse strptime py_str
              now fault lead p "" tbl Hp He)
    as [[_ H]|[(Hne & _)|[(Hne & _)|(Hne & _)]]]; [exact H| | |]; congruence.
Qed.

(** With a connection that is made, the upsert is the one above. *)
Lemma connection_save_agrees now fault lead tbl :
  (forall ex, fault <> Some (Connection.AtConnect ex)) ->
  Connection.save_lead_to_mysql validate_email phonenumbers_parse strptime py_str
    now fault lead tbl
  = save now (Connection.in_try fault) lead tbl.
Proof.
  intros Hf. unfold Connection.save_lead_to_mysql, save_lead_to_mysql.
  destruct (process now lead) as [p|ex]; cbn [mbind result_bind]; [|reflexivity].
  destruct (negb (truthy (get p "email"))); [reflexivity|].
  destruct fault as [[ex|ex]|]; try reflexivity. exfalso. exact (Hf ex eq_refl).
Qed.

(** X6. When the storage layer raises during the upsert of a record with
    an identity, nothing is stored.  An exception of a statement or of
    the commit is answered: a duplicate-key error as a success that is
    not new, any other one as a failure.  An exception of
    [get_db_connection()], which is called before the [try] block,
    leaves [save_lead_to_mysql]. *)
Theorem save_under_fault now ex cx lead e tbl :
  identity validate_email phonenumbers_parse strptime py_str now lead = Some e ->
  e <> "" ->
  Connection.save_lead_to_mysql validate_email phonenumbers_parse strptime py_str
    now (Some (Connection.InTransaction ex)) lead tbl
  = Ok ((is_duplicate_fault ex, false, None), tbl)
  /\ Connection.save_lead_to_mysql validate_email phonenumbers_parse strptime py_str
       now (Some (Connection.AtConnect cx)) lead tbl
     = Raise cx.
Proof.
  intros Hid Hne. destruct (identity_processed _ _ _ _ _ _ _ Hid) as (p & Hp & He).
  assert (Hg : get p "email" = VStr e) by (unfold get; rewrite He; reflexivity).
  assert (Ht : negb (truthy (get p "email")) = false).
  { rewrite Hg. cbn [truthy]. destruct (String.eqb_spec e "") as [E|_]; [congruence|].
    reflexivity. }
  unfold Connection.save_lead_to_mysql. rewrite Hp. cbn [mbind result_bind]. rewrite Ht.
  split; [|reflexivity]. cbn [Connection.in_try].
  unfold save_lead_to_mysql. rewrite Hp. cbn [mbind result_bind]. rewrite Ht.
  destruct ex as [| | | | |msg|]; try reflexivity.
  cbn [is_duplicate_fault]. destruct (is_duplicate_entry msg); reflexivity.
Qed.

(** The well-formedness of the table is kept by every upsert. *)
Lemma save_keeps_wf now fault lead tbl r tbl' :
  save now fault lead tbl = Ok (r, tbl') -> leads_wf tbl -> leads_wf tbl'.
Proof.
  intros Hsave (Hem & Hne & Hids & Hlt).
  destruct (save_shape _ _ _ _ _ _ Hsave)
    as [(-> & _)|[(i & -> & _)|(row & -> & _ & Hid & Hrne & Hsel)]].
  - repeat split; assumption.
  - unfold leads_wf. rewrite touch_by_id_emails, touch_by_id_ids.
    repeat split; try assumption.
    + unfold touch_by_id; simpl. apply Forall_map.
      eapply Forall_impl; [exact Hne|]. intros r0 Hr0. simpl.
      destruct (LeadRow.id r0 =? i)%Z; [destruct r0|]; exact Hr0.
    + unfold touch_by_id; simpl. apply Forall_map.
      eapply Forall_impl; [exact Hlt|]. intros r0 Hr0. simpl.
      destruct (LeadRow.id r0 =? i)%Z; [destruct r0|]; exact Hr0.
  - unfold leads_wf; simpl. rewrite !List.map_app; simpl.
    repeat split.
    + apply NoDup_app. split; [exact Hem|]. split; [|apply NoDup_singleton].
      intros x Hx Hx'. apply list_elem_of_In in Hx. apply list_elem_of_In in Hx'.
      destruct Hx' as [<-|[]]. exact (select_none_not_in _ _ Hsel Hx).
    + apply Forall_app. split; [exact Hne|]. constructor; [exact Hrne|constructor].
    + apply NoDup_app. split; [exact Hids|]. split; [|apply NoDup_singleton].
      intros x Hx Hx'. apply list_elem_of_In in Hx. apply list_elem_of_In in Hx'.
      destruct Hx' as [<-|[]].
      apply List.in_map_iff in Hx as (r0 & Hr0 & Hin).
      rewrite List.Forall_forall in Hlt. specialize (Hlt r0 Hin). lia.
    + apply Forall_app. split.
      * eapply Forall_impl; [exact Hlt|]. intros r0 Hr0. simpl in *. lia.
      * constructor; [lia|constructor].
Qed.

Lemma replay_keeps_wf calls : forall tbl,
  leads_wf tbl -> leads_wf (snd (replay calls tbl)).
Proof.
  induction calls as [|[[now fault] lead] rest IH]; intros tbl Hwf; simpl; [exact Hwf|].
  destruct (save now fault lead tbl) as [[r tbl']|ex] eqn:Hsave.
  - specialize (IH tbl' (save_keeps_wf _ _ _ _ _ _ Hsave Hwf)).
    destruct (replay rest tbl'); exact IH.
  - specialize (IH tbl Hwf). destruct (replay rest tbl); exact IH.
Qed.

(** X7. Whatever records are upserted into an empty table, in whatever
    order and under whatever storage faults, the stored identities are
    pairwise distinct and never empty, and the row ids are pairwise
    distinct and below the counter. *)
Theorem upserts_keep_table_well_formed calls n :
  leads_wf (snd (upserts validate_email phonenumbers_parse strptime py_str calls
                   {| rows := []; next_id := n |})).
Proof.
  apply replay_keeps_wf. unfold leads_wf; simpl.
  repeat split; constructor.
Qed.

End Upserts.

Lemma save_rejects_empty_identity_witness :
  save_lead_to_mysql Examples.syntax_validate Examples.us_phone_parse Examples.strptime
    Examples.py_str 1735725700 None (<["phone" := VStr "5551234567"]> ∅)
    Examples.empty_table
  = Ok ((false, false, None), Examples.empty_table).
Proof.
  apply (save_rejects_empty_identity Examples.syntax_validate Examples.us_phone_parse
           Examples.strptime Examples.py_str).
  vm_compute. reflexivity.
Defined.

Lemma save_under_fault_witness :
  Connection.save_lead_to_mysql Examples.syntax_validate Examples.us_phone_parse
    Examples.strptime Examples.py_str 1735725700
    (Some (Connection.InTransaction (DatabaseError "(1205, Lock wait timeout exceeded)")))
    Examples.scenario_lead Examples.empty_table
  = Ok ((is_duplicate_fault (DatabaseError "(1205, Lock wait timeout exceeded)"),
         false, None),
        Examples.empty_table)
  /\ Connection.save_lead_to_mysql Examples.syntax_validate Examples.us_phone_parse
       Examples.strptime Examples.py_str 1735725700
       (Some (Connection.AtConnect (DatabaseError "(2003, Can't connect to MySQL server)")))
       Examples.scenario_lead Examples.empty_table
     = Raise (DatabaseError "(2003, Can't connect to MySQL server)").
Proof.
  apply (save_under_fault Examples.syntax_validate Examples.us_phone_parse
           Examples.strptime Examples.py_str 1735725700
           (DatabaseError "(1205, Lock wait timeout exceeded)")
           (DatabaseError "(2003, Can't connect to MySQL server)")
           Examples.scenario_lead "a@test.com").
  - vm_compute. reflexivity.
  - discriminate.
Defined.

Section Storing.
Variable validate_email : string -> option string.
Variable phonenumbers_parse : string -> string -> option (bool * string * value).
Variable strptime : string -> option Z.
Variable py_str : value -> string.

Notation store :=
  (UnifiedSyncService.store_leads validate_email phonenumbers_parse strptime py_str).

Lemma touch_by_id_length now i tbl :
  List.length (rows (touch_by_id now i tbl)) = List.length (rows tbl).
Proof. unfold touch_by_id; simpl. apply List.length_map. Qed.

(** X8. The saving loop of a cycle accounts for every fetched record at
    most once: the counts of new, updated and failed records are not
    negative and sum to no more than the batch; the table grows by
    exactly the number of new records; and no more ids are handed to the
    delivery than records were new. *)
Theorem store_leads_accounting now batch : forall tbl n u e ids tbl',
  UnifiedSyncService.store_leads validate_email phonenumbers_parse strptime py_str
    now batch tbl = ((n, u, e), ids, tbl') ->
  (0 <= n /\ 0 <= u /\ 0 <= e)%Z
  /\ (n + u + e <= Z.of_nat (List.length batch))%Z
  /\ Z.of_nat (List.length (rows tbl')) = (Z.of_nat (List.length (rows tbl)) + n)%Z
  /\ (Z.of_nat (List.length ids) <= n)%Z.
Proof.
  induction batch as [|[lead fault] rest IH]; intros tbl n u e ids tbl' H.
  - simpl in H. injection H as <- <- <- <- <-. simpl. lia.
  - cbn [UnifiedSyncService.store_leads] in H.
    destruct (dict_self lead ≫= _) as [[[[success is_new] lead_id] tbl1]|ex] eqn:Hsave.
    + destruct (store now rest tbl1) as [[[[n1 u1] e1] ids1] tbl2] eqn:Hrest.
      specialize (IH _ _ _ _ _ _ Hrest).
      assert (Hs : exists d, save_lead_to_mysql validate_email phonenumbers_parse strptime
                               py_str now fault d tbl
                             = Ok ((success, is_new, lead_id), tbl1)).
      { destruct (dict_self lead) as [d|]; [|discriminate Hsave]. eauto. }
      destruct Hs as [d Hs].
      destruct (save_shape _ _ _ _ _ _ _ _ _ _ Hs)
        as [(-> & Hnew & _)|[(i & -> & Hr)|(row & -> & Hr & _)]].
      * simpl in Hnew. subst is_new.
        destruct success; injection H as <- <- <- <- <-;
          cbn [List.length]; lia.
      * injection Hr as -> -> ->. injection H as <- <- <- <- <-.
        rewrite touch_by_id_length in IH. cbn [List.length]. lia.
      * injection Hr as -> -> ->.
        simpl in IH. rewrite List.length_app in IH. simpl in IH.
        destruct (next_id tbl =? 0)%Z; injection H as <- <- <- <- <-;
          cbn [List.length]; lia.
    + destruct (store now rest tbl) as [[[[n1 u1] e1] ids1] tbl2] eqn:Hrest.
      specialize (IH _ _ _ _ _ _ Hrest).
      injection H as <- <- <- <- <-. cbn [List.length]. lia.
Qed.

End Storing.

Lemma store_leads_accounting_witness :
  (0 <= 1 /\ 0 <= 1 /\ 0 <= 1)%Z
  /\ (1 + 1 + 1 <= Z.of_nat (List.length
        [(VDict Examples.scenario_lead, @None exc);
         (VStr "not a record", None);
         (VDict Examples.scenario_lead, None)]))%Z
  /\ Z.of_nat (List.length
       (rows (snd (UnifiedSyncService.store_leads Examples.syntax_validate
                     Examples.us_phone_parse Examples.strptime Examples.py_str 1735725700
                     [(VDict Examples.scenario_lead, None);
                      (VStr "not a record", None);
                      (VDict Examples.scenario_lead, None)]
                     Examples.empty_table))))
     = (Z.of_nat (List.length (rows Examples.empty_table)) + 1)%Z
  /\ (Z.of_nat (List.length [1%Z]) <= 1)%Z.
Proof.
  apply (store_leads_accounting Examples.syntax_validate Examples.us_phone_parse
           Examples.strptime Examples.py_str 1735725700
           [(VDict Examples.scenario_lead, None);
            (VStr "not a record", None);
            (VDict Examples.scenario_lead, None)]
           Examples.empty_table 1 1 1 [1%Z]).
  vm_compute. reflexivity.
Defined.

(** ** The client of the destination *)

Lemma set_if_truthy k0 v0 (d : gmap string value) :
  (forall k v, d !! k = Some v -> truthy v = true) ->
  forall k v, set_if k0 v0 d !! k = Some v -> truthy v = true.
Proof.
  intros Hd k v. unfold set_if. destruct (truthy v0) eqn:Hv0; [|apply Hd].
  destruct (decide (k0 = k)) as [->|Hne].
  - rewrite lookup_insert_eq. intros [= <-]. exact Hv0.
  - rewrite lookup_insert_ne by done. apply Hd.
Qed.

Lemma lookup_set_if_ne k0 v0 (d : gmap string value) k :
  k0 <> k -> set_if k0 v0 d !! k = d !! k.
Proof.
  intros Hne. unfold set_if. destruct (truthy v0); [|reflexivity].
  by rewrite lookup_insert_ne.
Qed.

Lemma lookup_set_if_truthy k v (d : gmap string value) :
  truthy v = true -> set_if k v d !! k = Some v.
Proof. intros H. unfold set_if. rewrite H. apply lookup_insert_eq. Qed.

Lemma lookup_set_if_falsy k v (d : gmap string value) :
  truthy v = false -> set_if k v d !! k = d !! k.
Proof. intros H. unfold set_if. rewrite H. reflexivity. Qed.

Ltac payload_lookup :=
  repeat first [ rewrite lookup_insert_eq
               | rewrite lookup_insert_ne by done
               | rewrite lookup_set_if_ne by done
               | rewrite lookup_empty ].

(** X9. An update never sends an empty field: every value of the
    payload of [update_contact] is truthy, so no field of the existing
    contact is blanked. *)
Theorem update_payload_has_no_empty_field
    (email phone first_name last_name tags custom_fields : value) (k : string) (v : value) :
  update_payload email phone first_name last_name tags custom_fields !! k = Some v ->
  truthy v = true.
Proof.
  unfold update_payload. revert k v.
  repeat apply set_if_truthy. intros k v. rewrite lookup_empty. discriminate.
Qed.

Lemma update_payload_has_no_empty_field_witness :
  update_payload VNone (VStr "5551234567") (VStr "") (VStr "Lee") VNone VNone !! "phone"
    = Some (VStr "5551234567")
  /\ truthy (VStr "5551234567") = true.
Proof.
  split; [reflexivity|].
  apply (update_payload_has_no_empty_field VNone (VStr "5551234567") (VStr "") (VStr "Lee")
           VNone VNone "phone").
  reflexivity.
Defined.

Section Client.
Variable py_str : value -> string.
Variable location_id : value.
Variable utcnow_iso : string.
Variable post_contacts : gmap string value -> http_outcome.
Variable get_contacts : gmap string value -> http_outcome.
Variable put_contact : value -> gmap string value -> http_outcome.

Notation create := (create_contact py_str location_id utcnow_iso post_contacts).
Notation deliver :=
  (create_or_update_contact py_str location_id utcnow_iso post_contacts get_contacts put_contact).
Notation lookup := (get_contact_by_email location_id get_contacts).

(** X10. The payload of a create request always names the location, the
    email and a non-empty source; an explicit first or last name is sent
    as it is, also when a full name is given; a falsy phone is left out. *)
Theorem create_payload_fields
    (email phone first_name last_name name tags custom_fields source : value)
    (payload : gmap string value) :
  create_payload location_id email phone first_name last_name name tags custom_fields source
    = Ok payload ->
  payload !! "locationId" = Some location_id
  /\ payload !! "email" = Some email
  /\ (exists s, payload !! "source" = Some s /\ truthy s = true)
  /\ (truthy first_name = true -> payload !! "firstName" = Some first_name)
  /\ (truthy last_name = true -> payload !! "lastName" = Some last_name)
  /\ (truthy phone = false -> payload !! "phone" = None).
Proof.
  unfold create_payload. intros H.
  assert (Hnames : exists named : gmap string value,
             payload
             = (if truthy source
                then <["source" := source]>
                else <["source" := VStr "WordPress Lead Form"]>)
                 (set_if "customField" custom_fields
                    (set_if "tags" tags (set_if "lastName" last_name named)))
             /\ named !! "locationId" = Some location_id
             /\ named !! "email" = Some email
             /\ (truthy first_name = true -> named !! "firstName" = Some first_name)
             /\ (truthy phone = false -> named !! "phone" = None)).
  { destruct (truthy first_name) eqn:Hfirst; cbn [mbind result_bind] in H;
      [|destruct (truthy name); cbn [mbind result_bind] in H;
        [destruct (str_self name) as [n|]; cbn [mbind result_bind] in H;
         [destruct (split_once " " (strip n)) as [h [t|]]|discriminate H]|]];
      (eexists; split; [destruct (truthy source); injection H as <-; reflexivity|]);
      (split; [payload_lookup; reflexivity|]);
      (split; [payload_lookup; reflexivity|]);
      (split; [try discriminate; intros _; payload_lookup; reflexivity|]);
      intros Hp; payload_lookup; rewrite lookup_set_if_falsy by exact Hp;
      payload_lookup; reflexivity. }
  destruct Hnames as (named & -> & Hloc & Hemail & Hfirst & Hphone).
  assert (Hframe : forall k, k <> "source" -> k <> "customField" -> k <> "tags" ->
            k <> "lastName" ->
            (if truthy source
             then <["source" := source]>
             else <["source" := VStr "WordPress Lead Form"]>)
              (set_if "customField" custom_fields
                 (set_if "tags" tags (set_if "lastName" last_name named))) !! k
            = named !! k).
  { intros k H1 H2 H3 H4.
    destruct (truthy source); rewrite lookup_insert_ne by done;
      rewrite !lookup_set_if_ne by done; reflexivity. }
  repeat split.
  - rewrite Hframe by done. exact Hloc.
  - rewrite Hframe by done. exact Hemail.
  - destruct (truthy source) eqn:Hs; rewrite lookup_insert_eq; eauto.
  - intros Hf. rewrite Hframe by done. exact (Hfirst Hf).
  - intros Hl. destruct (truthy source); rewrite lookup_insert_ne by done;
      rewrite !lookup_set_if_ne by done; apply lookup_set_if_truthy; exact Hl.
  - intros Hp. rewrite Hframe by done. exact (Hphone Hp).
Qed.

(** X11. A create request that the transport fails, or that is answered
    with a status other than 200, 201 and 422, is reported as a failure
    that names no contact, with the error of the transport or the
    message of the status; it does not raise. *)
Theorem create_contact_rejections
    (email phone first_name last_name name tags custom_fields source : value)
    (payload : gmap string value) :
  create_payload location_id email phone first_name last_name name tags custom_fields source
    = Ok payload ->
  (forall msg,
      post_contacts payload = Transport msg ->
      exists r,
        create email phone first_name last_name name tags custom_fields source = Ok r
        /\ get r "success" = VBool false /\ get r "ghl_contact_id" = VNone
        /\ get r "error_message" = VStr msg)
  /\ (forall status json text,
         post_contacts payload = Response status json text ->
         status <> 200%Z -> status <> 201%Z -> status <> 422%Z ->
         exists r,
           create email phone first_name last_name name tags custom_fields source = Ok r
           /\ get r "success" = VBool false /\ get r "ghl_contact_id" = VNone
           /\ get r "error_message" = VStr (rejection_message py_str status)
           /\ get r "response_status_code" = VInt status
           /\ get r "response_body" = body_of json text).
Proof.
  intros Hpay. unfold create_contact. rewrite Hpay. cbn [mbind result_bind]. split.
  - intros msg ->. cbn [send]. eexists. split; [reflexivity|].
    repeat split; reflexivity.
  - intros status json text -> H200 H201 H422. cbn [send].
    replace (status =? 200)%Z with false by (symmetry; lia).
    replace (status =? 201)%Z with false by (symmetry; lia).
    replace (status =? 422)%Z with false by (symmetry; lia).
    cbn [orb]. unfold rejection_message.
    destruct (status =? 401)%Z; [|destruct (status =? 400)%Z];
      (eexists; split; [reflexivity|]; repeat split; reflexivity).
Qed.

Lemma first_with_email_sound email contacts : forall c,
  first_with_email email contacts = Ok (Some c) ->
  exists d e q,
    c = VDict d /\ get_or d "email" (VStr "") = VStr e /\ email = VStr q
    /\ lower e = lower q.
Proof.
  induction contacts as [|c0 rest IH]; intros c H; simpl in H; [discriminate|].
  destruct c0 as [| | | | | | |d]; try discriminate H. cbn [dict_self mbind result_bind] in H.
  destruct (get_or d "email" (VStr "")) as [| | |e| | | |] eqn:He; try discriminate H.
  cbn [str_self mbind result_bind] in H.
  destruct email as [| | |q| | | |]; try discriminate H.
  cbn [str_self mbind result_bind] in H.
  destruct (String.eqb_spec (lower e) (lower q)) as [Heq|Hne].
  - injection H as <-. eauto 10.
  - exact (IH c H).
Qed.

(** X12. The lookup by email only ever returns a contact whose email is
    the queried one up to letter case; and when the search is not
    answered with 200 it finds nothing and does not raise. *)
Theorem get_contact_by_email_sound (email : value) :
  (forall c, lookup email = Ok (Some c) ->
     exists d e q,
       c = VDict d /\ get_or d "email" (VStr "") = VStr e /\ email = VStr q
       /\ lower e = lower q)
  /\ ((forall params, answered_200 (get_contacts params) = false) ->
      lookup email = Ok None).
Proof.
  split.
  - intros c. unfold get_contact_by_email.
    destruct (get_contacts _) as [msg|status json text]; cbn [send mbind result_bind];
      [discriminate|].
    destruct (status =? 200)%Z; [|discriminate].
    destruct json as [data|]; cbn [json_of mbind result_bind is_request_exception];
      [|discriminate].
    destruct (dict_self data) as [d|ex]; cbn [mbind result_bind];
      [|destruct ex; discriminate].
    destruct (truthy (get_or d "contacts" (VList []))); [|discriminate].
    destruct (get_or d "contacts" (VList [])) as [| | | | | |l|];
      cbn [is_request_exception]; try discriminate.
    destruct (first_with_email email l) as [[c'|]|ex] eqn:Hf;
      [|discriminate|destruct (is_request_exception ex); discriminate].
    intros [= <-]. exact (first_with_email_sound _ _ _ Hf).
  - intros Hno. unfold get_contact_by_email.
    match goal with |- context [get_contacts ?p] => specialize (Hno p);
      destruct (get_contacts p) as [msg|status json text] end;
      cbn [send mbind result_bind is_request_exception]; [reflexivity|].
    simpl in Hno. rewrite Hno. reflexivity.
Qed.

(** X13. When the create request is answered 200, 201, 400 or 401, the
    delivery is the create request alone: its result is returned as it
    is, whatever the search and update endpoints would answer. *)
Theorem no_lookup_without_conflict
    (email phone first_name last_name name tags custom_fields source : value)
    (payload : gmap string value) (status : Z) (json : option value) (text : string) :
  create_payload location_id email phone first_name last_name name tags custom_fields source
    = Ok payload ->
  post_contacts payload = Response status json text ->
  In status [200; 201; 400; 401]%Z ->
  deliver email phone first_name last_name name tags custom_fields source
  = create email phone first_name last_name name tags custom_fields source.
Proof.
  intros Hpay Hpost Hst. unfold create_or_update_contact, create_contact.
  rewrite Hpay. cbn [mbind result_bind]. rewrite Hpost. cbn [send].
  simpl in Hst. destruct Hst as [<-|[<-|[<-|[<-|[]]]]]; cbn [Z.eqb Pos.eqb orb].
  - destruct json as [[| | | | | | |b]|]; try reflexivity.
    destruct (dict_self (get_or b "contact" (VDict ∅))); reflexivity.
  - destruct json as [[| | | | | | |b]|]; try reflexivity.
    destruct (dict_self (get_or b "contact" (VDict ∅))); reflexivity.
  - reflexivity.
  - reflexivity.
Qed.

End Client.

Lemma create_payload_fields_witness :
  let payload : gmap string value :=
    <["source" := VStr "WordPress Lead Form"]>
    (<["lastName" := VStr "Lee"]>
    (<["firstName" := VStr "Ann"]>
    (<["email" := VStr "a@test.com"]>
    (<["locationId" := VStr "loc-1"]> ∅)))) in
  payload !! "locationId" = Some (VStr "loc-1")
  /\ payload !! "email" = Some (VStr "a@test.com")
  /\ (exists s, payload !! "source" = Some s /\ truthy s = true)
  /\ (truthy (VStr "Ann") = true -> payload !! "firstName" = Some (VStr "Ann"))
  /\ (truthy (VStr "Lee") = true -> payload !! "lastName" = Some (VStr "Lee"))
  /\ (truthy (VStr "") = false -> payload !! "phone" = None).
Proof.
  intros payload.
  apply (create_payload_fields (VStr "loc-1") (VStr "a@test.com") (VStr "") (VStr "Ann")
           (VStr "Lee") (VStr "Bob Ray") VNone VNone VNone payload).
  reflexivity.
Defined.

Lemma create_contact_rejections_witness :
  exists r,
    create_contact Examples.py_str (VStr "loc-1") "2025-01-01T11:00:00"
      (fun _ => Response 401 None "Unauthorized")
      (VStr "a@test.com") VNone VNone VNone VNone VNone VNone VNone = Ok r
    /\ get r "success" = VBool false /\ get r "ghl_contact_id" = VNone
    /\ get r "error_message" = VStr (rejection_message Examples.py_str 401)
    /\ get r "response_status_code" = VInt 401
    /\ get r "response_body" = body_of None "Unauthorized".
Proof.
  destruct (create_contact_rejections Examples.py_str (VStr "loc-1") "2025-01-01T11:00:00"
              (fun _ => Response 401 None "Unauthorized")
              (VStr "a@test.com") VNone VNone VNone VNone VNone VNone VNone
              (<["source" := VStr "WordPress Lead Form"]>
               (<["email" := VStr "a@test.com"]> (<["locationId" := VStr "loc-1"]> ∅))))
    as [_ H]; [reflexivity|].
  apply (H 401%Z None "Unauthorized"); [reflexivity|lia|lia|lia].
Defined.

Lemma get_contact_by_email_sound_witness :
  get_contact_by_email (VStr "loc-1") (fun _ => Response 503 None "Service Unavailable")
    (VStr "a@test.com") = Ok None.
Proof.
  apply (proj2 (get_contact_by_email_sound (VStr "loc-1")
                  (fun _ => Response 503 None "Service Unavailable") (VStr "a@test.com"))).
  intros params. reflexivity.
Defined.

Lemma no_lookup_without_conflict_witness :
  create_or_update_contact Examples.py_str (VStr "loc-1") "2025-01-01T11:00:00"
    (fun _ => Response 401 None "Unauthorized") Examples.search_answer
    Examples.update_accepted
    (VStr "a@test.com") VNone VNone VNone VNone VNone VNone VNone
  = create_contact Examples.py_str (VStr "loc-1") "2025-01-01T11:00:00"
      (fun _ => Response 401 None "Unauthorized")
      (VStr "a@test.com") VNone VNone VNone VNone VNone VNone VNone.
Proof.
  apply (no_lookup_without_conflict Examples.py_str (VStr "loc-1") "2025-01-01T11:00:00"
           (fun _ => Response 401 None "Unauthorized") Examples.search_answer
           Examples.update_accepted
           (VStr "a@test.com") VNone VNone VNone VNone VNone VNone VNone
           (<["source" := VStr "WordPress Lead Form"]>
            (<["email" := VStr "a@test.com"]> (<["locationId" := VStr "loc-1"]> ∅)))
           401%Z None "Unauthorized").
  - reflexivity.
  - reflexivity.
  - simpl. auto.
Defined.

Section Conflict.
Variable py_str : value -> string.
Variable location_id : value.
Variable utcnow_iso : string.
Variable post_contacts : gmap string value -> http_outcome.
Variable get_contacts : gmap string value -> http_outcome.
Variable put_contact : value -> gmap string value -> http_outcome.

Notation deliver :=
  (create_or_update_contact py_str location_id utcnow_iso post_contacts get_contacts put_contact).

(** X14. A 422 answer without a duplicate indicator (any other
    validation error) is handled like a duplicate: the contact is
    looked up by email and, when found with an id, updated; the result
    carries that id and the verdict of the update. *)
Theorem validation_error_is_looked_up
    (email phone first_name last_name name tags custom_fields source : value)
    (payload contact : gmap string value) (json : option value) (text : string)
    (cid : value) :
  create_payload location_id email phone first_name last_name name tags custom_fields source
    = Ok payload ->
  post_contacts payload = Response 422 json text ->
  duplicate_body py_str (body_of json text) = false ->
  get_contact_by_email location_id get_contacts email = Ok (Some (VDict contact)) ->
  get contact "id" = cid -> truthy cid = true ->
  result_field "ghl_contact_id"
    (deliver email phone first_name last_name name tags custom_fields source) = Some cid
  /\ result_field "success"
       (deliver email phone first_name last_name name tags custom_fields source)
     = Some (VBool (answered_200
                      (put_contact cid
                         (update_payload VNone phone first_name last_name tags
                            custom_fields)))).
Proof.
  intros Hpay Hpost Hdup Hfind Hid Hcid.
  unfold create_or_update_contact, create_contact.
  rewrite Hpay. cbn [mbind result_bind]. rewrite Hpost. cbn [send].
  change ((422 =? 200)%Z || (422 =? 201)%Z) with false.
  change (422 =? 422)%Z with true. cbv iota.
  fold (body_of json text).
  assert (Hcreate :
    forall result : gmap string value,
      match body_of json text with
      | VDict b =>
          if contains "duplicate" (lower (str_of py_str (body_of json text)))
          then
            let result := <["error_message" := VStr "Duplicate contact"]> result in
            contact ← dict_self (get_or b "contact" (VDict ∅));
            let existing_id := get contact "id" in
            if truthy existing_id
            then Ok (<["success" := VBool true]>
                     (<["ghl_contact_id" := existing_id]> result))
            else Ok result
          else Ok result
      | _ => Ok result
      end = Ok result).
  { intros result. unfold duplicate_body in Hdup.
    destruct (body_of json text); try reflexivity. rewrite Hdup. reflexivity. }
  rewrite Hcreate. cbn [mbind result_bind].
  match goal with
  | |- context [negb (truthy (get ?r "success"))] =>
      change (truthy (get r "success")) with false;
      change (get_or r "error_message" (VStr ""))
        with (VStr "Validation error or duplicate contact")
  end.
  cbn [negb str_of].
  change (contains "duplicate" (lower "Validation error or duplicate contact")) with true.
  cbn [andb]. rewrite Hfind. cbn [mbind result_bind].
  rewrite (truthy_dict_of_member contact "id") by (rewrite Hid; exact Hcid).
  cbn [dict_self mbind result_bind]. rewrite Hid, Hcid.
  cbn [result_field]. split; f_equal.
  - unfold get. rewrite lookup_insert_ne by done. rewrite lookup_insert_eq. reflexivity.
  - unfold get at 1. rewrite !lookup_insert_ne by done.
    apply update_contact_success.
Qed.

End Conflict.

Lemma validation_error_is_looked_up_witness :
  result_field "ghl_contact_id"
    (create_or_update_contact Examples.py_str (VStr "loc-1") "2025-01-01T10:00:00"
       (fun _ => Response 422 None "phone is invalid")
       Examples.search_answer Examples.update_accepted
       (VStr "a@test.com") (VStr "555") (VStr "Ann") (VStr "Lee") VNone
       (VList [VStr "wordpress-lead"]) VNone (VStr "WordPress Lead Form"))
  = Some (VStr "C-1")
  /\ result_field "success"
       (create_or_update_contact Examples.py_str (VStr "loc-1") "2025-01-01T10:00:00"
          (fun _ => Response 422 None "phone is invalid")
          Examples.search_answer Examples.update_accepted
          (VStr "a@test.com") (VStr "555") (VStr "Ann") (VStr "Lee") VNone
          (VList [VStr "wordpress-lead"]) VNone (VStr "WordPress Lead Form"))
     = Some (VBool true).
Proof.
  eapply (validation_error_is_looked_up Examples.py_str (VStr "loc-1") "2025-01-01T10:00:00"
            (fun _ => Response 422 None "phone is invalid")
            Examples.search_answer Examples.update_accepted
            (VStr "a@test.com") (VStr "555") (VStr "Ann") (VStr "Lee") VNone
            (VList [VStr "wordpress-lead"]) VNone (VStr "WordPress Lead Form"));
    reflexivity.
Defined.

(** ** Selecting the leads to deliver *)

Lemma latest_of_in_acc lid log : forall acc a,
  fold_left (latest_step lid) log acc = Some a ->
  acc = Some a \/ (In a log /\ LogRow.lead_id a = lid).
Proof.
  induction log as [|r log IH]; simpl; intros acc a H; [auto|].
  destruct (IH _ _ H) as [Hacc|[Hin Hl]]; [|auto].
  unfold latest_step in Hacc.
  destruct (LogRow.lead_id r =? lid)%Z eqn:E; [|auto].
  apply Z.eqb_eq in E.
  destruct acc as [a0|].
  - destruct (LogRow.id a0 <? LogRow.id r)%Z; [|auto].
    injection Hacc as <-. auto.
  - injection Hacc as <-. auto.
Qed.

Lemma latest_of_in log lid a :
  latest_of log lid = Some a -> In a log /\ LogRow.lead_id a = lid.
Proof.
  intros H. destruct (latest_of_in_acc lid log None a H) as [Hn|Hin]; [discriminate|auto].
Qed.

(** The row appended under a fresh id is the latest attempt of its
    lead, and of no other lead. *)
Lemma latest_of_appended log row lid n :
  Forall (fun r => (LogRow.id r < n)%Z) log -> LogRow.id row = n ->
  latest_of (log ++ [row]) lid
  = if (LogRow.lead_id row =? lid)%Z then Some row else latest_of log lid.
Proof.
  intros Hfresh Hid. unfold latest_of. rewrite fold_left_app. simpl.
  fold (latest_of log lid). unfold latest_step.
  destruct (LogRow.lead_id row =? lid)%Z; [|reflexivity].
  destruct (latest_of log lid) as [a|] eqn:Ha; [|reflexivity].
  destruct (latest_of_in _ _ _ Ha) as [Hin _].
  rewrite List.Forall_forall in Hfresh. specialize (Hfresh a Hin).
  replace (LogRow.id a <? LogRow.id row)%Z with true by (symmetry; lia). reflexivity.
Qed.

Lemma never_logged_appended log row lid :
  LogRow.lead_id row = lid -> never_logged (log ++ [row]) lid = false.
Proof.
  intros H. unfold never_logged. rewrite existsb_app. simpl.
  rewrite H, Z.eqb_refl, orb_true_r. reflexivity.
Qed.

Lemma key_leb_total a b : key_leb a b = false -> key_leb b a = true.
Proof. destruct a as [[a1 a2] a3], b as [[b1 b2] b3]. unfold key_leb. lia. Qed.

Lemma key_leb_trans a b c : key_leb a b = true -> key_leb b c = true -> key_leb a c = true.
Proof.
  destruct a as [[a1 a2] a3], b as [[b1 b2] b3], c as [[c1 c2] c3]. unfold key_leb. lia.
Qed.

Lemma insert_by_key_sorted c l :
  StronglySorted before l -> StronglySorted before (insert_by_key c l).
Proof.
  induction 1 as [|x l Hl IH Hx]; cbn [insert_by_key].
  - constructor; constructor.
  - destruct (key_leb (order_key c) (order_key x)) eqn:E.
    + constructor; [constructor; assumption|].
      constructor; [exact E|].
      eapply Forall_impl; [exact Hx|]. intros y Hy. unfold before in *.
      eapply key_leb_trans; eassumption.
    + constructor; [exact IH|].
      apply Forall_insert_by_key; [|exact Hx].
      apply key_leb_total. exact E.
Qed.

Lemma order_by_sorted l : StronglySorted before (order_by l).
Proof.
  unfold order_by. induction l as [|c l IH]; simpl; [constructor|].
  apply insert_by_key_sorted. exact IH.
Qed.

Lemma insert_by_key_length c l :
  List.length (insert_by_key c l) = S (List.length l).
Proof.
  induction l as [|x l IH]; cbn [insert_by_key]; [reflexivity|].
  destruct (key_leb (order_key c) (order_key x)); simpl; [reflexivity|]. by rewrite IH.
Qed.

Lemma order_by_length l : List.length (order_by l) = List.length l.
Proof.
  unfold order_by. induction l as [|c l IH]; simpl; [reflexivity|].
  by rewrite insert_by_key_length, IH.
Qed.

Lemma firstn_sorted n (l : list candidate) :
  StronglySorted before l -> StronglySorted before (firstn n l).
Proof.
  intros H. revert n. induction H as [|x l Hl IH Hx]; intros [|n]; simpl;
    try constructor.
  - apply IH.
  - apply Forall_take. exact Hx.
Qed.

Lemma In_insert_by_key c l y : In y (c :: l) -> In y (insert_by_key c l).
Proof.
  induction l as [|z l IH]; cbn [insert_by_key]; [auto|].
  destruct (key_leb (order_key c) (order_key z)); [auto|].
  intros [Hc|[Hz|Hy]].
  - right. apply IH. left. exact Hc.
  - left. exact Hz.
  - right. apply IH. right. exact Hy.
Qed.

Lemma In_order_by c l : In c l -> In c (order_by l).
Proof.
  unfold order_by. induction l as [|x l IH]; simpl; [auto|].
  intros [->|H]; apply In_insert_by_key; [left; reflexivity|right; auto].
Qed.

Section Selection.
Variable batch_size : Z.
Variable max_retries : Z.

(** The rows selected: bounded by the limit, taken from the table with
    their latest attempt, eligible, and in the order of the query. *)
Lemma selected_leads now limit db cs :
  get_leads_to_sync batch_size max_retries now limit db = Ok cs ->
  (List.length cs <= Z.to_nat (effective_limit batch_size limit))%nat
  /\ Forall (fun c =>
               In (lead c) (rows (leads db))
               /\ latest_log c = latest_of (ghl_sync_log db) (LeadRow.id (lead c))
               /\ where_clause max_retries now (ghl_sync_log db) c = true) cs
  /\ StronglySorted before cs.
Proof.
  unfold get_leads_to_sync. fold (effective_limit batch_size limit).
  destruct (effective_limit batch_size limit <? 0)%Z; [discriminate|].
  intros [= <-]. split; [|split].
  - rewrite List.length_firstn. lia.
  - apply Forall_take, Forall_order_by, List.Forall_forall.
    intros c Hin. apply List.filter_In in Hin as [Hin Hwhere].
    apply List.in_map_iff in Hin as (l & <- & Hl). auto.
  - apply firstn_sorted, order_by_sorted.
Qed.

(** X15. What [get_leads_to_sync] returns holds at most as many rows as
    the limit (the batch size when no limit or zero is given); every
    row is a lead of the table that meets the eligibility condition,
    joined with its latest attempt; the rows are ordered with retries
    first, then by falling score, then by rising signup date; and the
    query fails exactly when the limit is negative. *)
Theorem get_leads_to_sync_sound now limit db :
  (forall cs,
      get_leads_to_sync batch_size max_retries now limit db = Ok cs ->
      (List.length cs <= Z.to_nat (effective_limit batch_size limit))%nat
      /\ Forall (fun c =>
                   In (lead c) (rows (leads db))
                   /\ latest_log c = latest_of (ghl_sync_log db) (LeadRow.id (lead c))
                   /\ where_clause max_retries now (ghl_sync_log db) c = true) cs
      /\ StronglySorted before cs)
  /\ ((exists e, get_leads_to_sync batch_size max_retries now limit db = Raise e)
      <-> (effective_limit batch_size limit < 0)%Z).
Proof.
  split; [intros cs; apply selected_leads|].
  unfold get_leads_to_sync. fold (effective_limit batch_size limit).
  destruct (effective_limit batch_size limit <? 0)%Z eqn:E.
  - split; [lia | eauto].
  - split; [intros [e He]; discriminate He | lia].
Qed.

(** X16. With a limit as large as the table, every eligible lead is
    returned: none is lost by the ordering. *)
Theorem get_leads_to_sync_complete now limit db l :
  (Z.of_nat (List.length (rows (leads db))) <= effective_limit batch_size limit)%Z ->
  In l (rows (leads db)) ->
  where_clause max_retries now (ghl_sync_log db)
    {| lead := l; latest_log := latest_of (ghl_sync_log db) (LeadRow.id l) |} = true ->
  exists cs,
    get_leads_to_sync batch_size max_retries now limit db = Ok cs
    /\ In {| lead := l; latest_log := latest_of (ghl_sync_log db) (LeadRow.id l) |} cs.
Proof.
  intros Hlim Hin Hwhere. unfold get_leads_to_sync.
  fold (effective_limit batch_size limit).
  replace (effective_limit batch_size limit <? 0)%Z with false by (symmetry; lia).
  eexists. split; [reflexivity|].
  match goal with |- In ?c (firstn ?n (order_by ?sel)) =>
    assert (Hsel : In c sel);
    [|assert (Hlen : (List.length (order_by sel) <= n)%nat)] end.
  - apply List.filter_In. split; [|exact Hwhere].
    apply List.in_map_iff. eauto.
  - rewrite order_by_length.
    etransitivity; [apply List.filter_length_le|]. rewrite List.length_map. lia.
  - rewrite List.firstn_all2 by exact Hlen.
    apply In_order_by. exact Hsel.
Qed.

End Selection.

Lemma get_leads_to_sync_sound_witness :
  (List.length
     [{| lead := Examples.stored_lead; latest_log := Some (Examples.failed_attempt 2) |}]
   <= Z.to_nat (effective_limit 10 None))%nat
  /\ Forall (fun c =>
               In (lead c) (rows (leads (Examples.database_with_failure 2)))
               /\ latest_log c
                  = latest_of (ghl_sync_log (Examples.database_with_failure 2))
                              (LeadRow.id (lead c))
               /\ where_clause 3 1735800000
                    (ghl_sync_log (Examples.database_with_failure 2)) c = true)
            [{| lead := Examples.stored_lead;
                latest_log := Some (Examples.failed_attempt 2) |}]
  /\ StronglySorted before
       [{| lead := Examples.stored_lead; latest_log := Some (Examples.failed_attempt 2) |}].
Proof.
  apply (proj1 (get_leads_to_sync_sound 10 3 1735800000 None
                  (Examples.database_with_failure 2))).
  reflexivity.
Defined.

Lemma get_leads_to_sync_complete_witness :
  exists cs,
    get_leads_to_sync 10 3 1735800000 None (Examples.database_with_failure 2) = Ok cs
    /\ In {| lead := Examples.stored_lead;
             latest_log := latest_of (ghl_sync_log (Examples.database_with_failure 2))
                                     (LeadRow.id Examples.stored_lead) |} cs.
Proof.
  apply (get_leads_to_sync_complete 10 3 1735800000 None
           (Examples.database_with_failure 2) Examples.stored_lead).
  - vm_compute. discriminate.
  - left. reflexivity.
  - reflexivity.
Defined.

(** ** Logging a delivery attempt *)



Section Attempts.
Variable batch_size : Z.
Variable max_retries : Z.
Variable retry_delay_minutes : Z.
Variable location_id : value.
Variable sql_timestamp : value -> option Z.
Variable strftime_ym : Z -> string.
Variable isoformat : Z -> string.
Variable py_str : value -> string.
Variable create_or_update_contact :
  value -> value -> value -> value -> value -> value -> value -> value ->
  result (gmap string value).

Notation log_attempt := (log_sync_attempt retry_delay_minutes location_id sql_timestamp).
Notation select := (get_leads_to_sync batch_size max_retries).
Notation deliver :=
  (sync_lead retry_delay_minutes location_id sql_timestamp strftime_ym isoformat py_str
     create_or_update_contact).
Notation deliver_each :=
  (sync_each retry_delay_minutes location_id sql_timestamp strftime_ym isoformat py_str
     create_or_update_contact).
Notation batch :=
  (sync_batch batch_size max_retries retry_delay_minutes location_id sql_timestamp
     strftime_ym isoformat py_str create_or_update_contact).


(** X18. After a successful attempt is logged the lead is never selected
    again, whatever the clock and the limit; and when the answer carried
    no contact id, the lead is still not flagged as synced. *)
Theorem success_is_terminal now lid email result db :
  log_ids_fresh db ->
  truthy (get result "success") = true ->
  (forall now' limit cs,
      select now' limit (fst (log_attempt now None lid email result db)) = Ok cs ->
      Forall (fun c => LeadRow.id (lead c) <> lid) cs)
  /\ (truthy (get result "ghl_contact_id") = false ->
      List.map LeadRow.ghl_synced
        (rows (leads (fst (log_attempt now None lid email result db))))
      = List.map LeadRow.ghl_synced (rows (leads db))).
Proof.
  intros Hfresh Hok. split.
  - intros now' limit cs Hsel.
    destruct (selected_leads _ _ _ _ _ _ Hsel) as (_ & Hall & _).
    eapply Forall_impl; [exact Hall|]. clear Hall Hsel.
    intros c (_ & Hlatest & Hwhere) Heq.
    unfold log_sync_attempt in Hlatest, Hwhere. cbn [fst ghl_sync_log] in Hlatest, Hwhere.
    rewrite Hok in Hlatest, Hwhere.
    rewrite (latest_of_appended _ _ _ (next_log_id db)) in Hlatest
      by (exact Hfresh || reflexivity).
    cbn [LogRow.lead_id] in Hlatest. rewrite Heq, Z.eqb_refl in Hlatest.
    unfold where_clause in Hwhere.
    rewrite Heq, never_logged_appended in Hwhere by reflexivity.
    rewrite Hlatest in Hwhere. cbn in Hwhere. rewrite andb_false_r in Hwhere.
    discriminate Hwhere.
  - intros Hno. unfold log_sync_attempt. cbn [fst leads]. rewrite Hno, andb_false_r.
    unfold update_lead. cbn [rows]. rewrite List.map_map.
    apply List.map_ext. intros r. destruct (LeadRow.id r =? lid)%Z; reflexivity.
Qed.

(** X19. After a failed attempt is logged the lead is eligible again
    exactly when its retry budget is not used up and the retry delay
    has passed. *)
Theorem failed_attempt_backoff now lid email result db l now' :
  log_ids_fresh db ->
  truthy (get result "success") = false ->
  LeadRow.id l = lid ->
  where_clause max_retries now'
    (ghl_sync_log (fst (log_attempt now None lid email result db)))
    {| lead := l;
       latest_log :=
         latest_of (ghl_sync_log (fst (log_attempt now None lid email result db))) lid |}
  = ((current_retry (ghl_sync_log db) lid + 1 <? max_retries)%Z
     && (now + 60 * retry_delay_minutes <=? now')%Z).
Proof.
  intros Hfresh Hfail Hid.
  unfold log_sync_attempt. cbn [fst ghl_sync_log]. rewrite Hfail.
  rewrite (latest_of_appended _ _ _ (next_log_id db)) by (exact Hfresh || reflexivity).
  cbn [LogRow.lead_id]. rewrite Z.eqb_refl.
  unfold where_clause. cbn [lead latest_log]. rewrite Hid.
  rewrite never_logged_appended by reflexivity.
  rewrite andb_false_r. reflexivity.
Qed.

(** ** A batch of deliveries *)

Lemma update_lead_length f lid tbl :
  List.length (rows (update_lead f lid tbl)) = List.length (rows tbl).
Proof. unfold update_lead. cbn [rows]. apply List.length_map. Qed.

Lemma update_lead_ids f lid tbl :
  (forall r, LeadRow.id (f r) = LeadRow.id r) ->
  List.map LeadRow.id (rows (update_lead f lid tbl)) = List.map LeadRow.id (rows tbl).
Proof.
  intros Hf. unfold update_lead. cbn [rows]. rewrite List.map_map.
  apply List.map_ext. intros r. destruct (LeadRow.id r =? lid)%Z; [apply Hf|reflexivity].
Qed.

(** What one logged attempt does to the database. *)
Lemma log_sync_attempt_shape now fault lid email result db :
  let db' := fst (log_attempt now fault lid email result db) in
  List.map LeadRow.id (rows (leads db')) = List.map LeadRow.id (rows (leads db))
  /\ (exists suffix, ghl_sync_log db' = ghl_sync_log db ++ suffix
                     /\ (List.length suffix <= 1)%nat
                     /\ (fault = None -> List.length suffix = 1%nat))
  /\ (fault <> None -> db' = db).
Proof.
  unfold log_sync_attempt. destruct fault as [e|]; cbn [fst].
  - split; [reflexivity|]. split; [|reflexivity].
    exists []. rewrite List.app_nil_r. split; [reflexivity|].
    split; [simpl; lia | discriminate].
  - cbn [leads ghl_sync_log]. split; [|split; [|congruence]].
    + destruct (_ && _); apply update_lead_ids; reflexivity.
    + eexists. split; [reflexivity|]. simpl. split; [lia|reflexivity].
Qed.

Lemma sync_lead_shape now fault l db :
  let db' := snd (fst (deliver now fault l db)) in
  List.map LeadRow.id (rows (leads db')) = List.map LeadRow.id (rows (leads db))
  /\ (exists suffix, ghl_sync_log db' = ghl_sync_log db ++ suffix
                     /\ (List.length suffix <= 1)%nat
                     /\ (fault = None -> List.length suffix = 1%nat))
  /\ (fault <> None -> db' = db).
Proof.
  unfold sync_lead.
  destruct (create_or_update_contact _ _ _ _ _ _ _ _) as [result|e].
  - pose proof (log_sync_attempt_shape now fault (LeadRow.id l) (VStr (LeadRow.email l))
                  result db) as H.
    destruct (log_sync_attempt _ _ _ _ _ _ _ _ _) as [db' logs].
    destruct (truthy _); exact H.
  - match goal with |- context [log_sync_attempt _ _ _ _ _ _ _ ?r _] =>
      pose proof (log_sync_attempt_shape now fault (LeadRow.id l) (VStr (LeadRow.email l))
                    r db) as H end.
    destruct (log_sync_attempt _ _ _ _ _ _ _ _ _) as [db' logs]. exact H.
Qed.

Lemma sync_each_shape now fault cs : forall db s f db',
  deliver_each now fault cs db = (s, f, db') ->
  (0 <= s /\ 0 <= f /\ s + f = Z.of_nat (List.length cs))%Z
  /\ List.map LeadRow.id (rows (leads db')) = List.map LeadRow.id (rows (leads db))
  /\ (exists suffix, ghl_sync_log db' = ghl_sync_log db ++ suffix
                     /\ (List.length suffix <= List.length cs)%nat
                     /\ ((forall c, In c cs -> fault (LeadRow.id (lead c)) = None) ->
                         List.length suffix = List.length cs))
  /\ ((forall c, In c cs -> fault (LeadRow.id (lead c)) <> None) -> db' = db).
Proof.
  induction cs as [|c rest IH]; intros db s f db' H.
  - simpl in H. injection H as <- <- <-. split; [simpl; lia|].
    split; [reflexivity|]. split; [|reflexivity].
    exists []. rewrite List.app_nil_r. auto.
  - cbn [sync_each] in H.
    pose proof (sync_lead_shape now (fault (LeadRow.id (lead c))) (lead c) db) as H1.
    destruct (sync_lead _ _ _ _ _ _ _ _ _ _ _) as [[ok db1] logs].
    cbn [fst snd] in H1. destruct H1 as (Hids1 & (sfx1 & Hlog1 & Hlen1 & Hone1) & Hsame1).
    destruct (deliver_each now fault rest db1) as [[s1 f1] db2] eqn:Hrest.
    destruct (IH _ _ _ _ Hrest) as (Hcount & Hids2 & (sfx2 & Hlog2 & Hlen2 & Hall2) & Hsame2).
    assert (Hdb : db' = db2) by (destruct ok; congruence).
    assert (Hsf : (s + f = s1 + f1 + 1 /\ s1 <= s /\ f1 <= f)%Z).
    { destruct ok; injection H as <- <- _; lia. }
    subst db'. split; [cbn [List.length]; lia|].
    split; [congruence|]. split.
    + exists (sfx1 ++ sfx2). rewrite Hlog2, Hlog1, <- List.app_assoc.
      split; [reflexivity|]. rewrite List.length_app. cbn [List.length].
      split; [lia|]. intros Hnone.
      rewrite Hone1 by (apply Hnone; left; reflexivity).
      rewrite Hall2 by (intros c' Hc'; apply Hnone; right; exact Hc'). reflexivity.
    + intros Hfault. rewrite Hsame2 by (intros c' Hc'; apply Hfault; right; exact Hc').
      apply Hsame1, Hfault. left. reflexivity.
Qed.

(** The counts of a batch: every selected lead is counted once, and no
    more leads are selected than the limit allows. *)
Lemma sync_batch_counts now fault size db total s f db' :
  batch now fault size db = Ok (total, s, f, db') ->
  (0 <= s /\ 0 <= f /\ s + f = total)%Z
  /\ (total <= Z.max 0 (effective_limit batch_size size))%Z.
Proof.
  unfold sync_batch. intros H.
  destruct (select now size db) as [cs|e] eqn:Hsel; [|discriminate H].
  cbn [mbind result_bind] in H.
  destruct (deliver_each now fault cs db) as [[s1 f1] db1] eqn:Heach.
  injection H as <- <- <- <-.
  destruct (sync_each_shape _ _ _ _ _ _ _ Heach) as (Hcount & _).
  destruct (selected_leads _ _ _ _ _ _ Hsel) as (Hbound & _ & _).
  split; lia.
Qed.

(** X20. A batch reports every selected lead once, as a success or as a
    failure; it neither adds nor removes a lead; it only appends to the
    ledger, one row per selected lead when the storage takes them all
    and at most that otherwise. *)
Theorem sync_batch_accounting now fault size db total s f db' :
  sync_batch batch_size max_retries retry_delay_minutes location_id sql_timestamp
    strftime_ym isoformat py_str create_or_update_contact now fault size db
  = Ok (total, s, f, db') ->
  (0 <= s /\ 0 <= f /\ s + f = total)%Z
  /\ (total <= Z.max 0 (effective_limit batch_size size))%Z
  /\ List.map LeadRow.id (rows (leads db')) = List.map LeadRow.id (rows (leads db))
  /\ exists suffix,
       ghl_sync_log db' = ghl_sync_log db ++ suffix
       /\ (Z.of_nat (List.length suffix) <= total)%Z
       /\ ((forall lid, fault lid = None) -> Z.of_nat (List.length suffix) = total).
Proof.
  intros H. destruct (sync_batch_counts _ _ _ _ _ _ _ _ H) as [Hcount Hbound].
  split; [exact Hcount|]. split; [exact Hbound|].
  unfold sync_batch in H.
  destruct (select now size db) as [cs|e] eqn:Hsel; [|discriminate H].
  cbn [mbind result_bind] in H.
  destruct (deliver_each now fault cs db) as [[s1 f1] db1] eqn:Heach.
  injection H as <- <- <- <-.
  destruct (sync_each_shape _ _ _ _ _ _ _ Heach) as (_ & Hids & (sfx & Hlog & Hlen & Hall) & _).
  split; [exact Hids|].
  exists sfx. split; [exact Hlog|]. split; [lia|].
  intros Hnone. rewrite Hall; [reflexivity|]. intros c _. apply Hnone.
Qed.

(** With a connection that is made for every entry, [sync_lead] is the
    one above. *)
Lemma connection_sync_lead_agrees now (fault : option exc) l db :
  Connection.sync_lead retry_delay_minutes location_id sql_timestamp strftime_ym isoformat
    py_str create_or_update_contact now
    (Connection.InTransaction <$> fault) (Connection.InTransaction <$> fault) l db
  = Ok (deliver now fault l db).
Proof.
  unfold Connection.sync_lead, sync_lead, Connection.log_sync_attempt,
    Connection.error_result.
  destruct (create_or_update_contact _ _ _ _ _ _ _ _) as [res|e];
    cbn [mbind result_bind]; destruct fault as [ex|]; cbn [fmap option_fmap option_map
      Connection.in_try mbind result_bind].
  - destruct (log_sync_attempt _ _ _ _ _ _ _ _ _) as [db' logs].
    destruct (truthy _); reflexivity.
  - destruct (log_sync_attempt _ _ _ _ _ _ _ _ _) as [db' logs].
    destruct (truthy _); reflexivity.
  - destruct (log_sync_attempt _ _ _ _ _ _ _ _ _) as [db' logs]. reflexivity.
  - destruct (log_sync_attempt _ _ _ _ _ _ _ _ _) as [db' logs]. reflexivity.
Qed.





(** ** The sweep of [retry_failed_leads] *)

Lemma sweep_selects_set_retry now date r :
  sweep_selects max_retries date (LogRow.set_retry now r) = false.
Proof.
  unfold sweep_selects. cbn [LogRow.set_retry LogRow.status LogRow.request_timestamp
    LogRow.retry_count]. cbn [sync_status_eqb]. rewrite andb_false_r. reflexivity.
Qed.

(** X22. A second sweep for the same date changes nothing and marks no
    row: the rows the first one marked keep the time it gave them. *)
Theorem sweep_is_idempotent now now' date log :
  mark_for_retry max_retries now' date (mark_for_retry max_retries now date log)
  = mark_for_retry max_retries now date log
  /\ marked_count max_retries date (mark_for_retry max_retries now date log) = 0%Z.
Proof.
  unfold mark_for_retry, marked_count. split.
  - rewrite List.map_map. apply List.map_ext. intros r.
    destruct (sweep_selects max_retries date r) eqn:E.
    + rewrite sweep_selects_set_retry. reflexivity.
    + rewrite E. reflexivity.
  - induction log as [|r log IH]; [reflexivity|]. cbn [List.map List.filter].
    destruct (sweep_selects max_retries date r) eqn:E.
    + rewrite sweep_selects_set_retry. exact IH.
    + rewrite E. exact IH.
Qed.

(** X23. A lead whose latest attempt the sweep marks is eligible from
    the time of the sweep on, and is ordered before every lead that is
    not a retry. *)
Theorem swept_attempt_is_eligible now date log l a now' :
  latest_of log (LeadRow.id l) = Some a ->
  sweep_selects max_retries date a = true ->
  (now <= now')%Z ->
  let log' := mark_for_retry max_retries now date log in
  let c := {| lead := l; latest_log := latest_of log' (LeadRow.id l) |} in
  where_clause max_retries now' log' c = true
  /\ forall c', (forall ll, latest_log c' = Some ll -> LogRow.status ll <> Retry) ->
                before c c'.
Proof.
  intros Hlatest Hsel Hnow log' c.
  assert (Hl : latest_of log' (LeadRow.id l) = Some (LogRow.set_retry now a)).
  { unfold log', mark_for_retry. rewrite latest_of_map.
    - rewrite Hlatest. cbn. rewrite Hsel. reflexivity.
    - intros r. destruct (sweep_selects max_retries date r); split; reflexivity. }
  unfold sweep_selects in Hsel.
  apply andb_prop in Hsel as [Hsel Hcount]. split.
  - unfold where_clause, c. cbn [lead latest_log]. rewrite Hl.
    cbn [LogRow.set_retry LogRow.status LogRow.retry_count LogRow.next_retry_at
         sync_status_eqb].
    rewrite Hcount. replace (now <=? now')%Z with true by (symmetry; lia).
    rewrite orb_true_r. reflexivity.
  - intros c' Hc'. unfold before, c, order_key. cbn [lead latest_log]. rewrite Hl.
    cbn [LogRow.set_retry LogRow.status sync_status_eqb]. unfold key_leb.
    destruct (latest_log c') as [ll|]; [|reflexivity].
    specialize (Hc' ll eq_refl).
    destruct (LogRow.status ll); try reflexivity. congruence.
Qed.

End Attempts.

Lemma success_is_terminal_witness :
  (forall now' limit cs,
      get_leads_to_sync 10 3 now' limit
        (fst (log_sync_attempt 30 (VStr "loc-1") Examples.sql_timestamp 1735729200 None 1
                (VStr "a@test.com") (<["success" := VBool true]> ∅)
                (Examples.database_with_failure 1))) = Ok cs ->
      Forall (fun c => LeadRow.id (lead c) <> 1%Z) cs)
  /\ (truthy (get (<["success" := VBool true]> ∅ : gmap string value) "ghl_contact_id") = false ->
      List.map LeadRow.ghl_synced
        (rows (leads (fst (log_sync_attempt 30 (VStr "loc-1") Examples.sql_timestamp
                             1735729200 None 1 (VStr "a@test.com")
                             (<["success" := VBool true]> ∅)
                             (Examples.database_with_failure 1)))))
      = List.map LeadRow.ghl_synced (rows (leads (Examples.database_with_failure 1)))).
Proof.
  apply (success_is_terminal 10 3 30 (VStr "loc-1") Examples.sql_timestamp 1735729200 1
           (VStr "a@test.com") (<["success" := VBool true]> ∅)
           (Examples.database_with_failure 1)).
  - repeat constructor.
  - reflexivity.
Defined.

Lemma failed_attempt_backoff_witness :
  where_clause 3 1735731000
    (ghl_sync_log (fst (log_sync_attempt 30 (VStr "loc-1") Examples.sql_timestamp
                          1735729200 None 1 (VStr "a@test.com") ∅
                          (Examples.database_with_failure 1))))
    {| lead := Examples.stored_lead;
       latest_log :=
         latest_of (ghl_sync_log (fst (log_sync_attempt 30 (VStr "loc-1")
                                         Examples.sql_timestamp 1735729200 None 1
                                         (VStr "a@test.com") ∅
                                         (Examples.database_with_failure 1)))) 1 |}
  = ((current_retry (ghl_sync_log (Examples.database_with_failure 1)) 1 + 1 <? 3)%Z
     && (1735729200 + 60 * 30 <=? 1735731000)%Z).
Proof.
  apply (failed_attempt_backoff 3 30 (VStr "loc-1") Examples.sql_timestamp 1735729200 1
           (VStr "a@test.com") ∅ (Examples.database_with_failure 1) Examples.stored_lead
           1735731000).
  - repeat constructor.
  - reflexivity.
  - reflexivity.
Defined.

Lemma sync_batch_accounting_witness :
  let db := Examples.database_with_failure 1 in
  let db' :=
    match sync_batch 10 3 30 (VStr "loc-1") Examples.sql_timestamp Examples.strftime_ym
            Examples.isoformat Examples.py_str Examples.unavailable_client
            1735800000 (fun _ => None) None db with
    | Ok (_, db') => db'
    | Raise _ => db
    end in
  (0 <= 0 /\ 0 <= 1 /\ 0 + 1 = 1)%Z
  /\ (1 <= Z.max 0 (effective_limit 10 None))%Z
  /\ List.map LeadRow.id (rows (leads db')) = List.map LeadRow.id (rows (leads db))
  /\ exists suffix,
       ghl_sync_log db' = ghl_sync_log db ++ suffix
       /\ (Z.of_nat (List.length suffix) <= 1)%Z
       /\ ((forall lid : Z, (fun _ : Z => @None exc) lid = None) ->
           Z.of_nat (List.length suffix) = 1%Z).
Proof.
  intros db db'.
  apply (sync_batch_accounting 10 3 30 (VStr "loc-1") Examples.sql_timestamp
           Examples.strftime_ym Examples.isoformat Examples.py_str
           Examples.unavailable_client 1735800000 (fun _ => None) None db 1 0 1 db').
  vm_compute. reflexivity.
Defined.


(** With the database out of reach when the attempt is logged, the
    batch of the example raises. *)
Example sync_batch_raises_at_connect :
  Connection.sync_batch 10 3 30 (VStr "loc-1") Examples.sql_timestamp
    Examples.strftime_ym Examples.isoformat Examples.py_str Examples.unavailable_client
    1735800000
    (fun _ => (Some (Connection.AtConnect (DatabaseError "(2003, Can't connect)")),
               Some (Connection.AtConnect (DatabaseError "(2003, Can't connect)"))))
    None (Examples.database_with_failure 1)
  = (Raise (DatabaseError "(2003, Can't connect)"), Examples.database_with_failure 1).
Proof. vm_compute. reflexivity. Qed.

Lemma swept_attempt_is_eligible_witness :
  let log' := mark_for_retry 3 1735729200 20089
                (ghl_sync_log (Examples.database_with_failure 1)) in
  let c := {| lead := Examples.stored_lead;
              latest_log := latest_of log' (LeadRow.id Examples.stored_lead) |} in
  where_clause 3 1735729200 log' c = true
  /\ forall c', (forall ll, latest_log c' = Some ll -> LogRow.status ll <> Retry) ->
                before c c'.
Proof.
  apply (swept_attempt_is_eligible 3 1735729200 20089
           (ghl_sync_log (Examples.database_with_failure 1)) Examples.stored_lead
           (Examples.failed_attempt 1) 1735729200).
  - reflexivity.
  - vm_compute. reflexivity.
  - lia.
Defined.


(** ** Delivery inside a cycle: [UnifiedSyncService.sync_lead_to_ghl] *)

Section UnifiedDelivery.
Variable location_id : value.
Variable sql_timestamp : value -> option Z.
Variable strftime_ym : Z -> string.
Variable isoformat : Z -> string.
Variable py_str : value -> string.
Variable create_or_update_contact :
  value -> value -> value -> value -> value -> value -> value -> value ->
  result (gmap string value).

Notation deliver :=
  (UnifiedSyncService.sync_lead_to_ghl location_id sql_timestamp strftime_ym isoformat
     py_str create_or_update_contact).

Lemma find_unsynced_none lid (f : LeadRow.t -> LeadRow.t) (l : list LeadRow.t) :
  (forall r, LeadRow.id (f r) = LeadRow.id r /\ LeadRow.ghl_synced (f r) = true) ->
  List.find (fun r => (LeadRow.id r =? lid)%Z && negb (LeadRow.ghl_synced r))
            (List.map (fun r => if (LeadRow.id r =? lid)%Z then f r else r) l) = None.
Proof.
  intros Hf. induction l as [|r l IH]; [reflexivity|]. cbn [List.map List.find].
  destruct (LeadRow.id r =? lid)%Z eqn:E.
  - destruct (Hf r) as [Hid Hs]. rewrite Hid, E, Hs. exact IH.
  - rewrite E. exact IH.
Qed.

(** X24. A lead is delivered at most once by the cycle: when
    [sync_lead_to_ghl] answers [True], every row with that id is flagged
    as synced, the other rows are as before, and any later call for the
    same id answers [False], whatever the destination would answer, and
    writes neither the ledger nor the log. *)
Theorem sync_lead_to_ghl_once now fault lid db :
  fst (fst (UnifiedSyncService.sync_lead_to_ghl location_id sql_timestamp strftime_ym
              isoformat py_str create_or_update_contact now fault lid db)) = true ->
  let db' := snd (fst (UnifiedSyncService.sync_lead_to_ghl location_id sql_timestamp
                         strftime_ym isoformat py_str create_or_update_contact
                         now fault lid db)) in
  (forall client' now' fault',
      UnifiedSyncService.sync_lead_to_ghl location_id sql_timestamp strftime_ym isoformat
        py_str client' now' fault' lid db' = (false, db', []))
  /\ Forall (fun r => LeadRow.id r = lid -> LeadRow.ghl_synced r = true) (rows (leads db'))
  /\ Forall2 (fun r r' => LeadRow.id r' = LeadRow.id r /\ (LeadRow.id r <> lid -> r' = r))
             (rows (leads db)) (rows (leads db')).
Proof.
  unfold UnifiedSyncService.sync_lead_to_ghl at 1 2.
  destruct (List.find _ _) as [l|]; [|discriminate].
  destruct (create_or_update_contact _ _ _ _ _ _ _ _) as [result|e];
    cbn [mbind result_bind]; [|discriminate].
  destruct fault as [e|]; [discriminate|]. cbn [fst snd].
  intros Hdel. rewrite Hdel. cbn [leads rows]. split; [|split].
  - intros client' now' fault'. unfold UnifiedSyncService.sync_lead_to_ghl. cbn [leads rows].
    rewrite find_unsynced_none; [reflexivity|]. intros r. split; reflexivity.
  - apply List.Forall_forall. intros r Hin Hid.
    apply List.in_map_iff in Hin as (r0 & Hr & _).
    destruct (LeadRow.id r0 =? lid)%Z eqn:E; subst r; [reflexivity|].
    apply Z.eqb_neq in E. contradiction.
  - induction (rows (leads db)) as [|r rs IH]; cbn [List.map]; constructor; [|exact IH].
    destruct (LeadRow.id r =? lid)%Z eqn:E; split; try reflexivity.
    apply Z.eqb_eq in E. intros Hne. contradiction.
Qed.

(** X25. When [sync_lead_to_ghl] answers [False] the table of leads is
    as before; and when no unsynced lead has the id, nothing at all
    happens: the database is as before and nothing is logged. *)
Theorem sync_lead_to_ghl_refused now fault lid db :
  (fst (fst (UnifiedSyncService.sync_lead_to_ghl location_id sql_timestamp strftime_ym
               isoformat py_str create_or_update_contact now fault lid db)) = false ->
   leads (snd (fst (UnifiedSyncService.sync_lead_to_ghl location_id sql_timestamp
                      strftime_ym isoformat py_str create_or_update_contact
                      now fault lid db))) = leads db)
  /\ (Forall (fun r => LeadRow.id r = lid -> LeadRow.ghl_synced r = true) (rows (leads db)) ->
      UnifiedSyncService.sync_lead_to_ghl location_id sql_timestamp strftime_ym isoformat
        py_str create_or_update_contact now fault lid db = (false, db, [])).
Proof.
  split.
  - unfold UnifiedSyncService.sync_lead_to_ghl.
    destruct (List.find _ _) as [l|]; [|reflexivity].
    destruct (create_or_update_contact _ _ _ _ _ _ _ _) as [result|e];
      cbn [mbind result_bind]; [|reflexivity].
    destruct fault as [e|]; [reflexivity|]. cbn [fst snd leads].
    intros ->. reflexivity.
  - intros Hall. unfold UnifiedSyncService.sync_lead_to_ghl.
    destruct (List.find _ _) as [l|] eqn:Hfind; [|reflexivity].
    apply List.find_some in Hfind as [Hin Hl].
    apply andb_prop in Hl as [Hid Hs]. apply Z.eqb_eq in Hid.
    rewrite List.Forall_forall in Hall. rewrite (Hall l Hin Hid) in Hs. discriminate Hs.
Qed.

(** X26. A delivery that the cycle logs as failed carries no retry count
    and no retry time: the batch selection of [GHLSyncManager] takes the
    lead at once, without the retry delay, as long as any retry is
    allowed. *)
Theorem unified_failure_has_no_backoff max_retries now lid db row l now' :
  log_ids_fresh db ->
  ghl_sync_log (snd (fst (deliver now None lid db))) = ghl_sync_log db ++ [row] ->
  LogRow.status row = Failed ->
  LeadRow.id l = lid ->
  let log' := ghl_sync_log (snd (fst (deliver now None lid db))) in
  where_clause max_retries now' log' {| lead := l; latest_log := latest_of log' lid |}
  = (0 <? max_retries)%Z.
Proof.
  intros Hfresh Hlog Hstatus Hid log'. unfold log'. rewrite Hlog. clear log'.
  assert (Hrow : LogRow.id row = next_log_id db /\ LogRow.lead_id row = lid
                 /\ LogRow.retry_count row = 0%Z /\ LogRow.next_retry_at row = None).
  { unfold UnifiedSyncService.sync_lead_to_ghl in Hlog.
    destruct (List.find _ _) as [l0|].
    - destruct (create_or_update_contact _ _ _ _ _ _ _ _) as [result|e];
        cbn [mbind result_bind fst snd ghl_sync_log] in Hlog.
      + apply List.app_inv_head in Hlog. injection Hlog as <-. repeat split.
      + apply (f_equal (@List.length _)) in Hlog. rewrite List.length_app in Hlog.
        simpl in Hlog. lia.
    - cbn [fst snd] in Hlog.
      apply (f_equal (@List.length _)) in Hlog. rewrite List.length_app in Hlog.
      simpl in Hlog. lia. }
  destruct Hrow as (Hrid & Hrl & Hrc & Hrn).
  rewrite (latest_of_appended _ _ _ (next_log_id db)) by assumption.
  rewrite Hrl, Z.eqb_refl. unfold where_clause. cbn [lead latest_log].
  rewrite Hid, never_logged_appended by exact Hrl.
  rewrite Hstatus, Hrc, Hrn. cbn [sync_status_eqb]. rewrite andb_false_r.
  cbn [orb andb]. rewrite andb_true_r. reflexivity.
Qed.

End UnifiedDelivery.

Lemma sync_lead_to_ghl_once_witness :
  let deliver :=
    UnifiedSyncService.sync_lead_to_ghl (VStr "loc-1") Examples.sql_timestamp
      Examples.strftime_ym Examples.isoformat Examples.py_str
      (fun _ _ _ _ _ _ _ _ =>
         Ok (<["ghl_contact_id" := VStr "c-1"]> (<["success" := VBool true]> ∅))) in
  let db := Examples.database_with_failure 1 in
  let db' := snd (fst (deliver 1735729200%Z None 1%Z db)) in
  (forall client' now' fault',
      UnifiedSyncService.sync_lead_to_ghl (VStr "loc-1") Examples.sql_timestamp
        Examples.strftime_ym Examples.isoformat Examples.py_str client' now' fault' 1%Z db'
      = (false, db', []))
  /\ Forall (fun r => LeadRow.id r = 1%Z -> LeadRow.ghl_synced r = true) (rows (leads db'))
  /\ Forall2 (fun r r' => LeadRow.id r' = LeadRow.id r /\ (LeadRow.id r <> 1%Z -> r' = r))
             (rows (leads db)) (rows (leads db')).
Proof.
  apply (sync_lead_to_ghl_once (VStr "loc-1") Examples.sql_timestamp
           Examples.strftime_ym Examples.isoformat Examples.py_str
           (fun _ _ _ _ _ _ _ _ =>
              Ok (<["ghl_contact_id" := VStr "c-1"]> (<["success" := VBool true]> ∅)))
           1735729200%Z None 1%Z (Examples.database_with_failure 1)).
  vm_compute. reflexivity.
Defined.

Lemma sync_lead_to_ghl_refused_witness :
  UnifiedSyncService.sync_lead_to_ghl (VStr "loc-1") Examples.sql_timestamp
    Examples.strftime_ym Examples.isoformat Examples.py_str Examples.unavailable_client
    1735729200%Z None 7%Z (Examples.database_with_failure 1)
  = (false, Examples.database_with_failure 1, []).
Proof.
  apply (proj2 (sync_lead_to_ghl_refused (VStr "loc-1") Examples.sql_timestamp
                  Examples.strftime_ym Examples.isoformat Examples.py_str
                  Examples.unavailable_client 1735729200 None 7
                  (Examples.database_with_failure 1))).
  repeat constructor. vm_compute. discriminate.
Defined.

Lemma unified_failure_has_no_backoff_witness :
  let log' :=
    ghl_sync_log
      (snd (fst (UnifiedSyncService.sync_lead_to_ghl (VStr "loc-1") Examples.sql_timestamp
                   Examples.strftime_ym Examples.isoformat Examples.py_str
                   Examples.unavailable_client 1735729200 None 1
                   (Examples.database_with_failure 1)))) in
  where_clause 3%Z 1735729200%Z log'
    {| lead := Examples.stored_lead; latest_log := latest_of log' 1%Z |}
  = (0 <? 3)%Z.
Proof.
  apply (unified_failure_has_no_backoff (VStr "loc-1") Examples.sql_timestamp
           Examples.strftime_ym Examples.isoformat Examples.py_str
           Examples.unavailable_client 3%Z 1735729200%Z 1%Z (Examples.database_with_failure 1)
           (LogRow.mk 2 1 (VStr "a@test.com") (Some 1735729200%Z) VNone (VInt 503) VNone
              VNone Failed (VStr "API error: 503") 0 None VNone (VStr "loc-1")
              1735729200 1735729200)
           Examples.stored_lead 1735729200%Z).
  - repeat constructor.
  - vm_compute. reflexivity.
  - reflexivity.
  - reflexivity.
Defined.

(** ** An accepted create request *)

Section Accepted.
Variable py_str : value -> string.
Variable location_id : value.
Variable utcnow_iso : string.
Variable post_contacts : gmap string value -> http_outcome.

Notation create := (create_contact py_str location_id utcnow_iso post_contacts).

(** X27. A create request answered 200 or 201 with a JSON object is a
    success whose contact id is the one under [contact], or else the
    one at the top of the answer; but when [contact] is there and is
    not an object, [create_contact] raises although the destination
    accepted the contact. *)
Theorem create_contact_accepted
    (email phone first_name last_name name tags custom_fields source : value)
    (payload b : gmap string value) (status : Z) (text : string) :
  create_payload location_id email phone first_name last_name name tags custom_fields source
    = Ok payload ->
  post_contacts payload = Response status (Some (VDict b)) text ->
  status = 200%Z \/ status = 201%Z ->
  (forall contact,
      get_or b "contact" (VDict ∅) = VDict contact ->
      exists r,
        create email phone first_name last_name name tags custom_fields source = Ok r
        /\ get r "success" = VBool true
        /\ get r "ghl_contact_id"
           = (if truthy (get contact "id") then get contact "id" else get b "id")
        /\ get r "error_message" = VNone
        /\ get r "response_body" = VDict b)
  /\ ((forall contact, get_or b "contact" (VDict ∅) <> VDict contact) ->
      create email phone first_name last_name name tags custom_fields source
      = Raise AttributeError).
Proof.
  intros Hpay Hpost Hst. unfold create_contact. rewrite Hpay. cbn [mbind result_bind].
  rewrite Hpost. cbn [send].
  replace ((status =? 200) || (status =? 201))%Z with true
    by (symmetry; destruct Hst as [-> | ->]; reflexivity).
  split.
  - intros contact ->. cbn [dict_self mbind result_bind].
    eexists. split; [reflexivity|]. repeat split.
  - intros Hno.
    destruct (get_or b "contact" (VDict ∅)) as [| | | | | | |contact];
      cbn [dict_self mbind result_bind]; try reflexivity.
    exfalso. exact (Hno contact eq_refl).
Qed.

End Accepted.

Lemma create_contact_accepted_witness :
  create_contact Examples.py_str (VStr "loc-1") "2025-01-01T11:00:00"
    (fun _ => Response 200 (Some (VDict (<["contact" := VNone]> ∅))) "")
    (VStr "a@test.com") VNone VNone VNone VNone VNone VNone VNone
  = Raise AttributeError.
Proof.
  refine (proj2 (create_contact_accepted Examples.py_str (VStr "loc-1") "2025-01-01T11:00:00"
           (fun _ => Response 200 (Some (VDict (<["contact" := VNone]> ∅))) "")
           (VStr "a@test.com") VNone VNone VNone VNone VNone VNone VNone
           (<["source" := VStr "WordPress Lead Form"]>
            (<["email" := VStr "a@test.com"]> (<["locationId" := VStr "loc-1"]> ∅)))
           (<["contact" := VNone]> ∅) 200%Z "" _ _ _) _).
  - reflexivity.
  - reflexivity.
  - left. reflexivity.
  - intros contact. discriminate.
Defined.

(** ** What the deliveries keep of the stored leads *)

Lemma lead_kept_refl r : lead_kept r r.
Proof. unfold lead_kept. repeat split; auto. lia. Qed.

Lemma lead_kept_trans r1 r2 r3 : lead_kept r1 r2 -> lead_kept r2 r3 -> lead_kept r1 r3.
Proof.
  unfold lead_kept. intros (H1 & H2 & H3 & H4 & H5) (K1 & K2 & K3 & K4 & K5).
  repeat split; try congruence; [auto | lia].
Qed.

Lemma Forall2_lead_kept_refl l : Forall2 lead_kept l l.
Proof. induction l; constructor; [apply lead_kept_refl | assumption]. Qed.

Lemma Forall2_lead_kept_trans l1 : forall l2 l3,
  Forall2 lead_kept l1 l2 -> Forall2 lead_kept l2 l3 -> Forall2 lead_kept l1 l3.
Proof.
  induction l1 as [|r l1 IH]; intros l2 l3 H12 H23.
  - inversion H12; subst. inversion H23; subst. constructor.
  - inversion H12; subst. inversion H23; subst. constructor.
    + eapply lead_kept_trans; eassumption.
    + eapply IH; eassumption.
Qed.

Lemma update_lead_kept f lid tbl :
  (forall r, lead_kept r (f r)) ->
  Forall2 lead_kept (rows tbl) (rows (update_lead f lid tbl)).
Proof.
  intros Hf. unfold update_lead. cbn [rows].
  induction (rows tbl) as [|r l IH]; cbn [List.map]; constructor; [|exact IH].
  destruct (LeadRow.id r =? lid)%Z; [apply Hf | apply lead_kept_refl].
Qed.

Lemma mark_synced_kept now cid r : lead_kept r (mark_synced now cid r).
Proof. unfold lead_kept, mark_synced. cbn. repeat split; auto. lia. Qed.

Lemma count_attempt_kept now r : lead_kept r (count_attempt now r).
Proof. unfold lead_kept, count_attempt. cbn. repeat split; auto. lia. Qed.

Section Kept.
Variable batch_size : Z.
Variable max_retries : Z.
Variable retry_delay_minutes : Z.
Variable location_id : value.
Variable sql_timestamp : value -> option Z.
Variable strftime_ym : Z -> string.
Variable isoformat : Z -> string.
Variable py_str : value -> string.
Variable create_or_update_contact :
  value -> value -> value -> value -> value -> value -> value -> value ->
  result (gmap string value).

Notation log_attempt := (log_sync_attempt retry_delay_minutes location_id sql_timestamp).
Notation deliver :=
  (sync_lead retry_delay_minutes location_id sql_timestamp strftime_ym isoformat py_str
     create_or_update_contact).
Notation deliver_each :=
  (sync_each retry_delay_minutes location_id sql_timestamp strftime_ym isoformat py_str
     create_or_update_contact).
Notation batch :=
  (sync_batch batch_size max_retries retry_delay_minutes location_id sql_timestamp
     strftime_ym isoformat py_str create_or_update_contact).
Notation retry :=
  (retry_failed_leads batch_size max_retries retry_delay_minutes location_id sql_timestamp
     strftime_ym isoformat py_str create_or_update_contact).
Notation deliver_new :=
  (UnifiedSyncService.sync_lead_to_ghl location_id sql_timestamp strftime_ym isoformat
     py_str create_or_update_contact).

Lemma log_sync_attempt_kept now fault lid email result db :
  Forall2 lead_kept (rows (leads db))
          (rows (leads (fst (log_attempt now fault lid email result db)))).
Proof.
  unfold log_sync_attempt. destruct fault as [e|]; cbn [fst leads].
  - apply Forall2_lead_kept_refl.
  - destruct (_ && _); apply update_lead_kept; intros r;
      [apply mark_synced_kept | apply count_attempt_kept].
Qed.

Lemma sync_lead_kept now fault l db :
  Forall2 lead_kept (rows (leads db)) (rows (leads (snd (fst (deliver now fault l db))))).
Proof.
  unfold sync_lead.
  destruct (create_or_update_contact _ _ _ _ _ _ _ _) as [result|e].
  - pose proof (log_sync_attempt_kept now fault (LeadRow.id l) (VStr (LeadRow.email l))
                  result db) as H.
    destruct (log_sync_attempt _ _ _ _ _ _ _ _ _) as [db' logs].
    destruct (truthy _); exact H.
  - match goal with |- context [log_sync_attempt _ _ _ _ _ _ _ ?r _] =>
      pose proof (log_sync_attempt_kept now fault (LeadRow.id l) (VStr (LeadRow.email l))
                    r db) as H end.
    destruct (log_sync_attempt _ _ _ _ _ _ _ _ _) as [db' logs]. exact H.
Qed.

Lemma sync_each_kept now fault cs : forall db s f db',
  deliver_each now fault cs db = (s, f, db') ->
  Forall2 lead_kept (rows (leads db)) (rows (leads db')).
Proof.
  induction cs as [|c rest IH]; intros db s f db' H.
  - simpl in H. injection H as <- <- <-. apply Forall2_lead_kept_refl.
  - cbn [sync_each] in H.
    pose proof (sync_lead_kept now (fault (LeadRow.id (lead c))) (lead c) db) as H1.
    destruct (sync_lead _ _ _ _ _ _ _ _ _ _ _) as [[ok db1] logs]. cbn [fst snd] in H1.
    destruct (deliver_each now fault rest db1) as [[s1 f1] db2] eqn:Hrest.
    assert (Hdb : db' = db2) by (destruct ok; congruence). subst db'.
    eapply Forall2_lead_kept_trans; [exact H1|]. eapply IH. exact Hrest.
Qed.

Lemma sync_batch_kept now fault size db total s f db' :
  batch now fault size db = Ok (total, s, f, db') ->
  Forall2 lead_kept (rows (leads db)) (rows (leads db')).
Proof.
  unfold sync_batch. intros H.
  destruct (get_leads_to_sync batch_size max_retries now size db) as [cs|e];
    [|discriminate H].
  cbn [mbind result_bind] in H.
  destruct (deliver_each now fault cs db) as [[s1 f1] db1] eqn:Heach.
  injection H as <- <- <- <-. eapply sync_each_kept. exact Heach.
Qed.

(** X28. No delivery takes anything back from a stored lead: across a
    batch, a retry run and a delivery of the cycle every lead keeps its
    place, its id, its identity and its score; a lead that is synced
    stays synced; and the count of attempts never falls. *)
Theorem deliveries_keep_leads now fault db :
  (forall size total s f db',
      batch now fault size db = Ok (total, s, f, db') ->
      Forall2 lead_kept (rows (leads db)) (rows (leads db')))
  /\ (forall date total s f db',
         retry now fault date db = Ok (total, s, f, db') ->
         Forall2 lead_kept (rows (leads db)) (rows (leads db')))
  /\ (forall storage_fault lid,
         Forall2 lead_kept (rows (leads db))
           (rows (leads (snd (fst (deliver_new now storage_fault lid db)))))).
Proof.
  split; [|split].
  - intros size total s f db'. apply sync_batch_kept.
  - intros date total s f db'. unfold retry_failed_leads.
    destruct (0 <? _)%Z.
    + intros H. apply sync_batch_kept in H. exact H.
    + intros [= _ _ _ <-]. apply Forall2_lead_kept_refl.
  - intros storage_fault lid. unfold UnifiedSyncService.sync_lead_to_ghl.
    destruct (List.find _ _) as [l|]; [|apply Forall2_lead_kept_refl].
    destruct (create_or_update_contact _ _ _ _ _ _ _ _) as [result|e];
      cbn [mbind result_bind]; [|apply Forall2_lead_kept_refl].
    destruct storage_fault as [e|]; [apply Forall2_lead_kept_refl|].
    cbn [fst snd leads].
    destruct (_ && _); [|apply Forall2_lead_kept_refl]. cbn [rows].
    induction (rows (leads db)) as [|r rs IH]; cbn [List.map]; constructor; [|exact IH].
    destruct (LeadRow.id r =? lid)%Z; [|apply lead_kept_refl].
    unfold lead_kept, UnifiedSyncService.mark_synced. cbn. repeat split; auto. lia.
Qed.

Lemma mark_for_retry_none now day log :
  marked_count max_retries day log = 0%Z -> mark_for_retry max_retries now day log = log.
Proof.
  unfold marked_count, mark_for_retry.
  induction log as [|r log IH]; [reflexivity|]. cbn [List.map List.filter].
  destruct (sweep_selects max_retries day r) eqn:E.
  - cbn [List.length]. lia.
  - intros Hz. f_equal. exact (IH Hz).
Qed.

(** X29. A retry run delivers no more leads than the sweep marked; and
    when no failed attempt of the date has retry budget left it does
    nothing at all. *)
Theorem retry_failed_leads_bound now fault date db total s f db' :
  retry now fault date db = Ok (total, s, f, db') ->
  let day := default (Sync.date_of now) date in
  (0 <= total <= marked_count max_retries day (ghl_sync_log db))%Z
  /\ (s + f = total)%Z
  /\ (marked_count max_retries day (ghl_sync_log db) = 0%Z -> db' = db).
Proof.
  intros H day. unfold retry_failed_leads in H. fold day in H.
  destruct (0 <? marked_count max_retries day (ghl_sync_log db))%Z eqn:Hm.
  - apply Z.ltb_lt in Hm.
    destruct (sync_batch_counts _ _ _ _ _ _ _ _ _ _ _ _ _ _ _ _ _ H)
      as (Hcount & Hbound).
    unfold effective_limit in Hbound.
    replace (marked_count max_retries day (ghl_sync_log db) =? 0)%Z with false in Hbound
      by (symmetry; lia).
    split; [lia|]. split; [lia|]. intros H0. lia.
  - apply Z.ltb_ge in Hm. injection H as <- <- <- <-.
    assert (Hz : marked_count max_retries day (ghl_sync_log db) = 0%Z).
    { unfold marked_count in *. lia. }
    split; [lia|]. split; [reflexivity|]. intros _.
    rewrite (mark_for_retry_none _ _ _ Hz). destruct db; reflexivity.
Qed.

End Kept.

Lemma deliveries_keep_leads_witness :
  let db := Examples.database_with_failure 1 in
  let db' :=
    match sync_batch 10 3 30 (VStr "loc-1") Examples.sql_timestamp Examples.strftime_ym
            Examples.isoformat Examples.py_str Examples.unavailable_client
            1735800000 (fun _ => None) None db with
    | Ok (_, db') => db'
    | Raise _ => db
    end in
  Forall2 lead_kept (rows (leads db)) (rows (leads db')).
Proof.
  intros db db'.
  apply (proj1 (deliveries_keep_leads 10 3 30 (VStr "loc-1") Examples.sql_timestamp
                  Examples.strftime_ym Examples.isoformat Examples.py_str
                  Examples.unavailable_client 1735800000 (fun _ => None) db)
           None 1%Z 0%Z 1%Z db').
  vm_compute. reflexivity.
Defined.

Lemma retry_failed_leads_bound_witness :
  let db := Examples.database_with_failure 1 in
  let db' :=
    match retry_failed_leads 10 3 30 (VStr "loc-1") Examples.sql_timestamp
            Examples.strftime_ym Examples.isoformat Examples.py_str
            Examples.unavailable_client 1735729200 (fun _ => None) None db with
    | Ok (_, db') => db'
    | Raise _ => db
    end in
  let day := default (Sync.date_of 1735729200) None in
  (0 <= 1 <= marked_count 3 day (ghl_sync_log db))%Z
  /\ (0 + 1 = 1)%Z
  /\ (marked_count 3 day (ghl_sync_log db) = 0%Z -> db' = db).
Proof.
  intros db db'.
  apply (retry_failed_leads_bound 10 3 30 (VStr "loc-1") Examples.sql_timestamp
           Examples.strftime_ym Examples.isoformat Examples.py_str
           Examples.unavailable_client 1735729200 (fun _ => None) None db 1 0 1 db').
  vm_compute. reflexivity.
Defined.
